(** * TextPress eXtended Atom (TPXA): exporter and importer

    A shallow embedding of

    - [textpress_importer/shared/textpress_exporter.py] (module [Exporter]),
    - the older [textpress_exporter.py] (module [LegacyExporter]),
    - [textpress_importer/__init__.py] (module [Importer]),

    together with the parts of the Python 2 runtime the code relies on
    (module [Py]) and a tree-level model of ElementTree / lxml elements
    (module [ET]).  The sources are Python 2: dictionaries are hash
    tables whose iteration order is the order of their slots. *)

From Stdlib Require Import String Ascii List ZArith Lia Bool Permutation.
From Stdlib Require Import DecimalString HexadecimalString.
From Stdlib Require DecimalZ DecimalPos HexadecimalNat.
Import ListNotations.

Set Warnings "-register-all".

Local Open Scope string_scope.
Local Open Scope list_scope.

(* ================================================================== *)
(** * The Python 2 runtime                                             *)
(* ================================================================== *)

Module Py.

(** Exceptions the code can raise.  [FeedImportError] is the importer's
    own exception class; the others are Python built-ins.  [ExternalError]
    stands for an exception raised inside an external collaborator
    (date parsing, unpickling, base64 decoding). *)
Inductive Exn : Type :=
| FeedImportError (msg : string)
| IndexError
| KeyError
| ValueError
| TypeError
| AttributeError
| UnboundLocalError
| ExternalError (msg : string).

Inductive Result (A : Type) : Type :=
| Ok (a : A)
| Raise (e : Exn).
Arguments Ok {A} a.
Arguments Raise {A} e.

Definition is_ok {A} (r : Result A) : bool :=
  match r with Ok _ => true | Raise _ => false end.

Definition rbind {A B} (r : Result A) (k : A -> Result B) : Result B :=
  match r with Ok a => k a | Raise e => Raise e end.

(** Opaque Python values carried by pickled payloads. *)
Inductive PyVal : Type :=
| PNone
| PStr (s : string)
| PDict (items : list (string * PyVal))
| POpaque (n : nat).

(** ** Strings *)

Definition ord (c : ascii) : Z := Z.of_nat (nat_of_ascii c).

Definition isspace (c : ascii) : bool :=
  let n := nat_of_ascii c in
  (n =? 32)%nat || ((9 <=? n)%nat && (n <=? 13)%nat).

Fixpoint lstrip (s : string) : string :=
  match s with
  | String c r => if isspace c then lstrip r else s
  | EmptyString => EmptyString
  end.

Fixpoint string_rev_app (s acc : string) : string :=
  match s with
  | String c r => string_rev_app r (String c acc)
  | EmptyString => acc
  end.

Definition string_rev (s : string) : string := string_rev_app s "".

(** [s.strip()] *)
Definition strip (s : string) : string :=
  string_rev (lstrip (string_rev (lstrip s))).

(** Truth value of a string-or-None. *)
Definition truthy (o : option string) : bool :=
  match o with
  | Some (String _ _) => true
  | _ => false
  end.

(** [x or default] on a string-or-None. *)
Definition or_else (o : option string) (d : string) : string :=
  match o with
  | Some (String c r) => String c r
  | _ => d
  end.

Definition digit_value (c : ascii) : option Z :=
  let n := nat_of_ascii c in
  if ((48 <=? n)%nat && (n <=? 57)%nat) then Some (Z.of_nat (n - 48)) else None.

Fixpoint digits_value (acc : Z) (s : string) : option Z :=
  match s with
  | EmptyString => Some acc
  | String c r =>
      match digit_value c with
      | Some d => digits_value (10 * acc + d) r
      | None => None
      end
  end.

Definition unsigned_literal (s : string) : Result Z :=
  match s with
  | EmptyString => Raise ValueError
  | _ => match digits_value 0 s with
         | Some v => Ok v
         | None => Raise ValueError
         end
  end.

(** [int(s)] on a string: surrounding whitespace, an optional sign and
    at least one decimal digit; anything else is a [ValueError]. *)
Definition int_of_str (s : string) : Result Z :=
  match strip s with
  | String "-"%char r => rbind (unsigned_literal r) (fun v => Ok (- v)%Z)
  | String "+"%char r => unsigned_literal r
  | t => unsigned_literal t
  end.

(** [int(x)] where [x] is a string or [None]. *)
Definition int_ (x : option string) : Result Z :=
  match x with
  | None => Raise TypeError
  | Some s => int_of_str s
  end.

(** [str(n)] on an integer. *)
Definition str_int (n : Z) : string :=
  DecimalString.NilZero.string_of_int (Z.to_int n).

(** ['%x' % n] on a non-negative integer. *)
Definition hex (n : nat) : string :=
  HexadecimalString.NilZero.string_of_uint (Nat.to_hex_uint n).

(** ** Hashing (CPython 2, 64-bit [long], hash randomisation off)

    Hashes are kept as the unsigned 64-bit pattern the dictionary code
    works with ([size_t]); [-1] is [2^64 - 1]. *)

Definition two64 : Z := 2 ^ 64.
Definition wrap64 (x : Z) : Z := x mod two64.

Definition no_minus_one (x : Z) : Z :=
  if (x =? two64 - 1)%Z then (two64 - 2)%Z else x.

Fixpoint string_hash_loop (x : Z) (s : string) : Z :=
  match s with
  | EmptyString => x
  | String c r => string_hash_loop (Z.lxor (wrap64 (1000003 * x)) (ord c)) r
  end.

(** [string_hash] of stringobject.c. *)
Definition string_hash (s : string) : Z :=
  match s with
  | EmptyString => 0
  | String c _ =>
      let x := string_hash_loop (Z.shiftl (ord c) 7) s in
      no_minus_one (Z.lxor x (Z.of_nat (String.length s)))
  end.

(** [int_hash] / [long_hash]: the value itself for a machine integer;
    in general the absolute value reduced modulo [2^64 - 1] (non-zero
    when the number is), times the sign. *)
Definition int_hash (v : Z) : Z :=
  let a := Z.abs v in
  let x := if (a =? 0)%Z then 0%Z else ((a - 1) mod (two64 - 1) + 1)%Z in
  no_minus_one (if (v <? 0)%Z then wrap64 (- x) else x).

Class Hashable (K : Type) : Type :=
  { key_eqb : K -> K -> bool;
    key_eqb_spec : forall a b, key_eqb a b = true <-> a = b;
    py_hash : K -> Z }.

#[export] Instance Hashable_str : Hashable string :=
  { key_eqb := String.eqb;
    key_eqb_spec := String.eqb_eq;
    py_hash := string_hash }.

#[export] Instance Hashable_int : Hashable Z :=
  { key_eqb := Z.eqb;
    key_eqb_spec := Z.eqb_eq;
    py_hash := int_hash }.

(** ** Dictionaries

    None of the dictionaries of this program ever loses a key, so the
    hash table of a dictionary is determined by the sequence of its
    distinct keys in order of first insertion.  A dictionary is kept as
    that sequence ([entries]); reading and writing work on it, and the
    iteration order ([dict_items]) is obtained by laying the entries out
    in the table as dictobject.c does: open addressing on a table of
    [2^k] slots, starting with 8, probing [i <- 5*i + perturb + 1],
    growing when two thirds of the slots are taken. *)

Section Dict.
Context {K V : Type} {HK : Hashable K}.

Record dict : Type := mkDict { entries : list (K * V) }.

Definition dict_empty : dict := mkDict [].

Fixpoint assoc (k : K) (l : list (K * V)) : option V :=
  match l with
  | [] => None
  | (k', v) :: r => if key_eqb k k' then Some v else assoc k r
  end.

Fixpoint assoc_set (k : K) (v : V) (l : list (K * V)) : list (K * V) :=
  match l with
  | [] => [(k, v)]
  | (k', v') :: r =>
      if key_eqb k k' then (k', v) :: r else (k', v') :: assoc_set k v r
  end.

(** [d.get(k)] *)
Definition dict_get (k : K) (d : dict) : option V := assoc k (entries d).

(** [d[k]] *)
Definition dict_lookup (k : K) (d : dict) : Result V :=
  match dict_get k d with
  | Some v => Ok v
  | None => Raise KeyError
  end.

(** [k in d] *)
Definition dict_contains (k : K) (d : dict) : bool :=
  match dict_get k d with Some _ => true | None => false end.

(** [d[k] = v] *)
Definition dict_set (k : K) (v : V) (d : dict) : dict :=
  mkDict (assoc_set k v (entries d)).

(** [len(d)] *)
Definition dict_len (d : dict) : nat := List.length (entries d).

(** The hash table. *)
Definition table : Type := list (option (K * V)).

Definition slot_free (t : table) (n : nat) : bool :=
  match nth_error t n with
  | Some None => true
  | _ => false
  end.

(** Store [x] in slot [n].  Probing only ever hands over a free slot;
    on any other slot the entry moves on to the next free one, so that
    the function is total. *)
Fixpoint put (t : table) (n : nat) (x : K * V) : table :=
  match t, n with
  | [], _ => [Some x]
  | None :: r, O => Some x :: r
  | Some y :: r, O => Some y :: put r O x
  | s :: r, S m => s :: put r m x
  end.

Fixpoint probe (fuel : nat) (t : table) (mask i perturb : Z) : nat :=
  match fuel with
  | O => O
  | S f =>
      let i' := wrap64 (Z.shiftl i 2 + i + perturb + 1) in
      let slot := Z.to_nat (Z.land i' mask) in
      if slot_free t slot then slot
      else probe f t mask i' (Z.shiftr perturb 5)
  end.

Definition find_slot (t : table) (h : Z) : nat :=
  let mask := (Z.of_nat (List.length t) - 1)%Z in
  let i := Z.land h mask in
  if slot_free t (Z.to_nat i) then Z.to_nat i
  else probe (64 + List.length t) t mask i h.

Definition insert_clean (t : table) (x : K * V) : table :=
  put t (find_slot t (py_hash (fst x))) x.

Definition table_items (t : table) : list (K * V) :=
  flat_map (fun s => match s with Some x => [x] | None => [] end) t.

Fixpoint newsize_from (fuel size minused : nat) : nat :=
  match fuel with
  | O => size
  | S f => if (size <=? minused)%nat then newsize_from f (2 * size) minused
           else size
  end.

Definition dictresize (t : table) : table :=
  let used := List.length (table_items t) in
  let minused := ((if (50000 <? Z.of_nat used)%Z then 2 else 4) * used)%nat in
  fold_left insert_clean (table_items t)
            (repeat None (newsize_from (S minused) 8 minused)).

Definition insertdict (t : table) (x : K * V) : table :=
  let t' := insert_clean t x in
  if (List.length t' * 2 <=? List.length (table_items t') * 3)%nat
  then dictresize t' else t'.

Definition layout (es : list (K * V)) : list (K * V) :=
  table_items (fold_left insertdict es (repeat None 8)).

(** [d.items()], [d.keys()], [d.values()]: slot order. *)
Definition dict_items (d : dict) : list (K * V) := layout (entries d).
Definition dict_keys (d : dict) : list K := map fst (dict_items d).
Definition dict_values (d : dict) : list V := map snd (dict_items d).

End Dict.
Arguments dict : clear implicits.
Arguments table : clear implicits.

(** ** A small exception monad for straight-line code *)

Declare Scope result_scope.
Delimit Scope result_scope with result.
Notation "x <- c ;; k" := (rbind c (fun x => k))
  (at level 61, c at next level, right associativity) : result_scope.

End Py.

(* ================================================================== *)
(** * Element trees                                                    *)
(* ================================================================== *)

Module ET.
Import Py.

(** An element as ElementTree and lxml expose it: a tag in Clark
    notation ([{namespace}local]), its attributes, its text and its
    children.  Tails are never written by the exporter nor read by the
    importer and are left out. *)
Inductive Element : Type :=
| mkElement (tag : string) (attrib : list (string * string))
            (text : option string) (children : list Element).

Definition tag (e : Element) : string :=
  match e with mkElement t _ _ _ => t end.
Definition attrib (e : Element) : list (string * string) :=
  match e with mkElement _ a _ _ => a end.
Definition text (e : Element) : option string :=
  match e with mkElement _ _ x _ => x end.
Definition children (e : Element) : list Element :=
  match e with mkElement _ _ _ c => c end.

(** [Namespace(ns).name] of the importer, [_ElementHelper.__getattr__]
    of the exporter. *)
Definition qname (ns name : string) : string :=
  ("{" ++ ns ++ "}" ++ name)%string.

(** [e.attrib.get(key)] *)
Definition attrib_get (e : Element) (key : string) : option string :=
  assoc key (attrib e).

(** [e.attrib[key]] *)
Definition attrib_lookup (e : Element) (key : string) : Result string :=
  match attrib_get e key with
  | Some v => Ok v
  | None => Raise KeyError
  end.

(** [e.findall(tag)], [e.find(tag)], [e.findtext(tag)] with a plain tag
    as path: the children carrying that tag, in document order. *)
Definition findall (e : Element) (path : string) : list Element :=
  filter (fun c => String.eqb (tag c) path) (children e).

Definition find (e : Element) (path : string) : option Element :=
  hd_error (findall e path).

Definition findtext (e : Element) (path : string) : option string :=
  match find e path with
  | None => None
  | Some el => Some (match text el with Some t => t | None => "" end)
  end.

(** [SubElement(parent, ...)]: a new last child. *)
Definition SubElement (parent child : Element) : Element :=
  match parent with
  | mkElement t a x c => mkElement t a x (c ++ [child])
  end.

Definition set_attrib (e : Element) (key value : string) : Element :=
  match e with
  | mkElement t a x c => mkElement t (assoc_set key value a) x c
  end.

(** The XPath string value of an element: its text nodes in document
    order. *)
Fixpoint string_value (e : Element) : string :=
  match e with
  | mkElement _ _ x c =>
      String.append
        (match x with Some t => t | None => "" end)
        ((fix go (l : list Element) : string :=
            match l with
            | [] => ""
            | h :: r => String.append (string_value h) (go r)
            end) c)
  end.

(** ** Writing an element out and parsing it back

    Serialisation and parsing are external (ElementTree's [_write],
    lxml's parser) and are modelled on trees: what the parser returns
    for what the writer wrote.  An element whose text is the empty
    string is written as an empty element and comes back without text;
    the attribute written under the literal name [xml:base] comes back
    under the XML namespace. *)

Definition XML_NS : string := "http://www.w3.org/XML/1998/namespace".

Definition parsed_key (k : string) : string :=
  if String.eqb k "xml:base" then qname XML_NS "base" else k.

Definition parsed_text (x : option string) : option string :=
  match x with
  | Some EmptyString => None
  | _ => x
  end.

Fixpoint reparse (e : Element) : Element :=
  match e with
  | mkElement t a x c =>
      mkElement t (map (fun kv => (parsed_key (fst kv), snd kv)) a)
                (parsed_text x) (map reparse c)
  end.

End ET.

(* ================================================================== *)
(** * The exporter: textpress_importer/shared/textpress_exporter.py    *)
(* ================================================================== *)

Module Exporter.
Import Py ET.

Definition ATOM_NS : string := "http://www.w3.org/2005/Atom".
Definition TEXTPRESS_NS : string := "http://textpress.pocoo.org/".
Definition TEXTPRESS_TAG_URI : string := (TEXTPRESS_NS ++ "#tag-scheme")%string.
Definition TEXTPRESS_CATEGORY_URI : string :=
  (TEXTPRESS_NS ++ "#category-scheme")%string.
Definition XML_EPILOG : string := "</a:feed>".

(** ** Dates *)

Record datetime : Type :=
  mkDate { year : nat; month : nat; day : nat;
           hour : nat; minute : nat; second : nat }.

Definition dec (n : nat) : string :=
  DecimalString.NilZero.string_of_uint (Nat.to_uint n).

Fixpoint zeros (n : nat) : string :=
  match n with O => "" | S m => String "0"%char (zeros m) end.

Definition zfill (width n : nat) : string :=
  let s := dec n in (zeros (width - String.length s) ++ s)%string.

(** [obj.strftime('%Y-%m-%dT%H:%M:%SZ')] *)
Definition format_iso8601 (obj : datetime) : string :=
  (zfill 4 (year obj) ++ "-" ++ zfill 2 (month obj) ++ "-" ++ zfill 2 (day obj)
   ++ "T" ++ zfill 2 (hour obj) ++ ":" ++ zfill 2 (minute obj) ++ ":"
   ++ zfill 2 (second obj) ++ "Z")%string.

(** ** The blog's entities, as far as the exporter reads them *)

Record User : Type :=
  { user_id : Z;
    username : string;
    role : Z;
    pw_hash : string;
    _display_name : option string;
    first_name : option string;
    last_name : option string;
    u_description : option string;
    display_name : string;
    u_email : option string;
    is_manager : bool }.

Record Tag : Type :=
  { t_slug : string;
    t_name : string;
    t_description : option string }.

Record Comment : Type :=
  { comment_id : Z;
    c_author : option string;
    c_email : option string;
    c_www : option string;
    c_pub_date : datetime;
    blocked : bool;
    is_pingback : bool;
    blocked_msg : option string;
    parent_id : option Z;
    c_status : Z;
    submitter_ip : option string;
    c_raw_body : PyVal;
    c_parser_data : PyVal }.

Record Post : Type :=
  { p_url : string;                 (* url_for(post, _external=True) *)
    p_title : string;
    uid : string;
    last_update : datetime;
    pub_date : datetime;
    author : User;
    p_slug : string;
    post_id : Z;
    comments_enabled : bool;
    pings_enabled : bool;
    p_status : Z;
    p_body : string;                (* post.body.render() *)
    p_intro : option string;        (* post.intro.render(), None when post.intro is false *)
    p_extra : PyVal;
    p_raw_body : PyVal;
    p_raw_intro : PyVal;
    p_parser_data : PyVal;
    comments : list Comment;
    tags : list Tag }.

Record Page : Type :=
  { g_url : string;                 (* url_for(page, _external=True) *)
    g_title : string;
    page_id : Z;
    g_key : string;
    g_body : string;                (* page.body.render() *)
    g_extra : PyVal;
    g_raw_body : PyVal }.

(** The application object. *)
Record App : Type :=
  { blog_title : string;            (* app.cfg['blog_title'] *)
    blog_tagline : string;          (* app.cfg['blog_tagline'] *)
    blog_url : string;              (* app.cfg['blog_url'] *)
    cfg_items : list (string * string);
                                    (* app.cfg.iteritems(), values through unicode() *)
    plugins : list string;          (* app.plugins *)
    version : string }.             (* textpress.__version__ *)

(** What the database queries of one export return. *)
Record Store : Type :=
  { all_posts : list Post;          (* Post.objects.order_by(Post.last_update.desc()) *)
    all_users : list User;          (* User.objects.all() *)
    pages_query : option (list Page) }.
                                    (* Page.objects.all(); None when the import or
                                       the query raises *)

(** External collaborators. *)
Record Externals : Type :=
  { build_tag_uri : App -> datetime -> string -> string -> string;
    b64encode : string -> string;   (* s.encode('base64') *)
    pickle_b64 : list (string * PyVal) -> string;
                                    (* dumps(d, 2).encode('base64') *)
    utcnow : nat -> datetime }.     (* the n-th reading of datetime.utcnow() *)

Inductive Item : Type :=
| PostItem (p : Post)
| PageItem (g : Page).

(** A participant, by what its hooks do to the node handed to them.
    [defines_setup] tells whether the participant's class has a method
    called [setup]; the class [Participant] of the source has none. *)
Record Participant : Type :=
  { defines_setup : bool;
    dump_data : option Element;
    process_post : Element -> Item -> Element;
    process_user : Element -> User -> Element }.

(** [class Participant]: [before_dump], [dump_data], [process_post] and
    [process_user] all [pass]. *)
Definition default_Participant : Participant :=
  {| defines_setup := false;
     dump_data := None;
     process_post := fun node _ => node;
     process_user := fun node _ => node |}.

Record Writer : Type :=
  mkWriter
  { app : App;
    description_to_category : bool;
    tags_to_categories : bool;
    keep_as_tags : option (list string);   (* None: no -k on the command line *)
    _dependencies : dict string Element;
    users : dict Z Element;
    db_users : dict Z User;
    participants : list Participant;
    clock_reads : nat }.

(** [Writer.__init__] *)
Definition Writer_init (a : App) (description_to_category tags_to_categories : bool)
           (keep_as_tags : option (list string)) (ps : list Participant) : Writer :=
  mkWriter a description_to_category tags_to_categories keep_as_tags
           dict_empty dict_empty dict_empty ps 0.

(** ** What the generator produces *)

Record Preamble : Type :=
  { x_version : string; x_title : string; x_subtitle : string;
    x_id : string; x_blog_url : string; x_updated : string }.

Inductive Chunk : Type :=
| XmlPreamble (p : Preamble)        (* XML_PREAMBLE % {...} *)
| Node (e : Element)                (* dump_node(e) *)
| Text (s : string).                (* a literal string *)

Inductive Event : Type :=
| Yield (c : Chunk)
| Setup (participant : nat).        (* participant.setup() was called *)

(** A generator body: it reads and updates the writer, appends to the
    trace and may end in an exception. *)
Definition Gen (A : Type) : Type :=
  Writer -> list Event * Result (A * Writer).

Definition gret {A} (a : A) : Gen A := fun w => ([], Ok (a, w)).

Definition gbind {A B} (m : Gen A) (k : A -> Gen B) : Gen B :=
  fun w =>
    match m w with
    | (tr, Ok (a, w')) => let (tr', r) := k a w' in (tr ++ tr', r)
    | (tr, Raise e) => (tr, Raise e)
    end.

Declare Scope gen_scope.
Delimit Scope gen_scope with gen.
Notation "x <- c ;; k" := (gbind c (fun x => k))
  (at level 61, c at next level, right associativity) : gen_scope.
Notation "c ;;; k" := (gbind c (fun _ => k))
  (at level 61, right associativity) : gen_scope.

Definition yield (c : Chunk) : Gen unit := fun w => ([Yield c], Ok (tt, w)).
Definition log (e : Event) : Gen unit := fun w => ([e], Ok (tt, w)).
Definition graise {A} (e : Exn) : Gen A := fun _ => ([], Raise e).
Definition glift {A} (r : Result A) : Gen A :=
  fun w => match r with Ok a => ([], Ok (a, w)) | Raise e => ([], Raise e) end.
Definition self : Gen Writer := fun w => ([], Ok (w, w)).
Definition update (f : Writer -> Writer) : Gen unit := fun w => ([], Ok (tt, f w)).

Fixpoint for_each {A} (l : list A) (body : A -> Gen unit) : Gen unit :=
  match l with
  | [] => gret tt
  | x :: r => gbind (body x) (fun _ => for_each r body)
  end.

Fixpoint for_each_indexed {A} (i : nat) (l : list A) (body : nat -> A -> Gen unit)
  : Gen unit :=
  match l with
  | [] => gret tt
  | x :: r => gbind (body i x) (fun _ => for_each_indexed (S i) r body)
  end.

(** ** Building nodes *)

(** [self.atom(name, ...)] and [self.tp(name, ...)] without a parent. *)
Definition atom_ (name : string) (attrs : list (string * string))
           (txt : option string) : Element :=
  mkElement (qname ATOM_NS name) attrs txt [].

Definition tp_ (name : string) (attrs : list (string * string))
           (txt : option string) : Element :=
  mkElement (qname TEXTPRESS_NS name) attrs txt [].

Definition add_children (parent : Element) (l : list Element) : Element :=
  fold_left SubElement l parent.

Definition yes_no (b : bool) : string := if b then "yes" else "no".

Definition tp_dependency : string := qname TEXTPRESS_NS "dependency".

(** [Writer.new_dependency] *)
Definition new_dependency (tag : string) : Gen Element :=
  (w <- self ;;
   let id := hex (dict_len (_dependencies w) + 1) in
   let node := mkElement tag [(tp_dependency, id)] None [] in
   update (fun w => mkWriter (app w) (description_to_category w) (tags_to_categories w)
                             (keep_as_tags w) (dict_set id node (_dependencies w))
                             (users w) (db_users w) (participants w) (clock_reads w)) ;;;
   gret node)%gen.

(** The table holds a node by reference: what is appended to the node
    after [new_dependency] is seen through the table. *)
Definition alias_dependency (id : string) (node : Element) : Gen unit :=
  update (fun w => mkWriter (app w) (description_to_category w) (tags_to_categories w)
                            (keep_as_tags w) (dict_set id node (_dependencies w))
                            (users w) (db_users w) (participants w) (clock_reads w)).

Definition user_fields (E : Externals) (user : User) : list Element :=
  [ tp_ "username" [] (Some (username user));
    tp_ "role" [] (Some (str_int (role user)));
    tp_ "pw_hash" [] (Some (b64encode E (pw_hash user)));
    tp_ "display_name" [] (_display_name user);
    tp_ "first_name" [] (first_name user);
    tp_ "last_name" [] (last_name user);
    tp_ "description" [] (u_description user) ].

(** [Writer._register_user] *)
Definition _register_user (E : Externals) (user : User) : Gen unit :=
  (rv <- new_dependency (qname TEXTPRESS_NS "user") ;;
   let id := or_else (attrib_get rv tp_dependency) "" in
   let rv := add_children rv (user_fields E user) in
   w <- self ;;
   let rv := fold_left (fun node p => process_user p node user) (participants w) rv in
   alias_dependency id rv ;;;
   update (fun w => mkWriter (app w) (description_to_category w) (tags_to_categories w)
                             (keep_as_tags w) (_dependencies w)
                             (dict_set (user_id user) rv (users w))
                             (dict_set (user_id user) user (db_users w))
                             (participants w) (clock_reads w)))%gen.

(** The author element of an entry: a reference to the user's
    dependency, and the user's name and e-mail. *)
Definition author_reference (w : Writer) (uid : Z) (name : string)
           (email : option string) : Result Element :=
  (node <- dict_lookup uid (users w) ;;
   dep <- attrib_lookup node tp_dependency ;;
   Ok (add_children (atom_ "author" [(tp_dependency, dep)] None)
         [ atom_ "name" [] (Some name); atom_ "email" [] email ]))%result.

Definition dump_comment (E : Externals) (c : Comment) : Element :=
  add_children (tp_ "comment" [] None)
    [ tp_ "id" [] (Some (str_int (comment_id c)));
      add_children (tp_ "author" [] None)
        [ tp_ "name" [] (c_author c);
          tp_ "email" [] (c_email c);
          tp_ "uri" [] (c_www c) ];
      tp_ "published" [] (Some (format_iso8601 (c_pub_date c)));
      tp_ "blocked" [] (Some (yes_no (blocked c)));
      tp_ "is_pingback" [] (Some (yes_no (is_pingback c)));
      tp_ "blocked_msg" [] (Some (or_else (blocked_msg c) ""));
      tp_ "parent" [] (Some (match parent_id c with
                             | Some n => str_int n
                             | None => ""
                             end));
      tp_ "status" [] (Some (str_int (c_status c)));
      tp_ "submitter_ip" [] (Some (or_else (submitter_ip c) "0.0.0.0"));
      tp_ "data" [] (Some (pickle_b64 E [ ("raw_body", c_raw_body c);
                                          ("parser_data", c_parser_data c) ])) ].

(** The scheme a tag is exported under:
    [((tag.description and self.description_to_category) or
      self.tags_to_categories) and tag.slug not in self.keep_as_tags]. *)
Definition category_scheme (w : Writer) (t : Tag) : Result string :=
  if (truthy (t_description t) && description_to_category w) || tags_to_categories w
  then match keep_as_tags w with
       | None => Raise TypeError
       | Some keep =>
           Ok (if existsb (String.eqb (t_slug t)) keep
               then TEXTPRESS_TAG_URI else TEXTPRESS_CATEGORY_URI)
       end
  else Ok TEXTPRESS_TAG_URI.

Definition dump_tag (w : Writer) (t : Tag) : Result Element :=
  (scheme <- category_scheme w t ;;
   let attrib := [ ("term", t_slug t); ("scheme", scheme) ] in
   let attrib := if String.eqb (t_slug t) (t_name t) then attrib
                 else attrib ++ [ ("label", t_name t) ] in
   Ok (atom_ "category" attrib None))%result.

Fixpoint dump_tags (w : Writer) (entry : Element) (l : list Tag) : Result Element :=
  match l with
  | [] => Ok entry
  | t :: r => (node <- dump_tag w t ;; dump_tags w (SubElement entry node) r)%result
  end.

(** The entry [Writer._dump_post] builds, before the participants
    process it. *)
Definition post_entry (E : Externals) (w : Writer) (post : Post) : Result Element :=
  (let url := p_url post in
   let entry := atom_ "entry" [("xml:base", url)] None in
   let entry := add_children entry
     [ atom_ "title" [("type", "text")] (Some (p_title post));
       atom_ "id" [] (Some (uid post));
       atom_ "updated" [] (Some (format_iso8601 (last_update post)));
       atom_ "published" [] (Some (format_iso8601 (pub_date post)));
       atom_ "link" [("href", url)] None ] in
   author <- author_reference w (user_id (author post))
                              (display_name (author post)) (u_email (author post)) ;;
   let entry := SubElement entry author in
   let entry := add_children entry
     [ tp_ "slug" [] (Some (p_slug post));
       tp_ "id" [] (Some (str_int (post_id post)));
       tp_ "comments_enabled" [] (Some (yes_no (comments_enabled post)));
       tp_ "pings_enabled" [] (Some (yes_no (pings_enabled post)));
       tp_ "status" [] (Some (str_int (p_status post)));
       atom_ "content" [("type", "html")] (Some (p_body post)) ] in
   let entry := match p_intro post with
                | Some intro => SubElement entry (atom_ "summary" [("type", "html")] (Some intro))
                | None => entry
                end in
   let entry := add_children entry
     [ tp_ "content_type" [] (Some "entry");
       tp_ "data" [] (Some (pickle_b64 E [ ("extra", p_extra post);
                                           ("raw_body", p_raw_body post);
                                           ("raw_intro", p_raw_intro post);
                                           ("parser_data", p_parser_data post) ])) ] in
   let entry := add_children entry (map (dump_comment E) (comments post)) in
   dump_tags w entry (tags post))%result.

(** [Writer._dump_post] *)
Definition _dump_post (E : Externals) (w : Writer) (post : Post) : Result Element :=
  (entry <- post_entry E w post ;;
   Ok (fold_left (fun node p => process_post p node (PostItem post))
                 (participants w) entry))%result.

Definition read_clock (E : Externals) : Gen datetime :=
  (w <- self ;;
   update (fun w => mkWriter (app w) (description_to_category w) (tags_to_categories w)
                             (keep_as_tags w) (_dependencies w) (users w) (db_users w)
                             (participants w) (S (clock_reads w))) ;;;
   gret (utcnow E (clock_reads w)))%gen.

(** [[u for u in self.db_users if self.db_users[u].is_manager][0]] *)
Definition first_manager (w : Writer) : Result Z :=
  match filter (fun kv => is_manager (snd kv)) (dict_items (db_users w)) with
  | (u, _) :: _ => Ok u
  | [] => Raise IndexError
  end.

(** [Writer._dump_page] *)
Definition _dump_page (E : Externals) (page : Page) : Gen Element :=
  (now <- read_clock E ;;
   w <- self ;;
   user <- glift (first_manager w) ;;
   let url := g_url page in
   let entry := atom_ "entry" [("xml:base", url)] None in
   let entry := add_children entry
     [ atom_ "title" [("type", "text")] (Some (g_title page));
       atom_ "id" [] (Some (str_int (page_id page)));
       atom_ "updated" [] (Some (format_iso8601 now));
       atom_ "published" [] (Some (format_iso8601 now));
       atom_ "link" [("href", url)] None ] in
   db_user <- glift (dict_lookup user (db_users w)) ;;
   author <- glift (author_reference w user (display_name db_user) (u_email db_user)) ;;
   let entry := SubElement entry author in
   let entry := add_children entry
     [ tp_ "slug" [] (Some (g_key page));
       tp_ "id" [] (Some (str_int (page_id page)));
       atom_ "content" [("type", "html")] (Some (g_body page));
       tp_ "content_type" [] (Some "page");
       tp_ "data" [] (Some (pickle_b64 E [ ("extra", g_extra page);
                                           ("raw_body", g_raw_body page) ])) ] in
   gret (fold_left (fun node p => process_post p node (PageItem page))
                   (participants w) entry))%gen.

(** The [try] block at the head of [_generate]: [posts.next()], then
    [pages.next()]; a [StopIteration] from either one is answered with
    [last_update = now].  [pages] is [None] when the name was never
    bound.  The iterators are returned as they are left. *)
Definition first_items (now : datetime) (posts : list Post) (pages : option (list Page))
  : Result (list Post * option (list Page) * datetime) :=
  match posts with
  | [] => Ok ([], pages, now)
  | first_post :: rest =>
      match pages with
      | None => Raise UnboundLocalError
      | Some [] => Ok (rest, Some [], now)
      | Some (first_page :: more) =>
          Ok (first_post :: rest, Some (first_page :: more), last_update first_post)
      end
  end.

(** The dependencies block at the end of [_generate]. *)
Definition dump_dependencies : Gen unit :=
  (w <- self ;;
   match dict_len (_dependencies w) with
   | O => gret tt
   | S _ =>
       yield (Text "<tp:dependencies>") ;;;
       for_each (dict_values (_dependencies w)) (fun node => yield (Node node)) ;;;
       yield (Text "</tp:dependencies>")
   end)%gen.

(** Everything [_generate] does before the dependencies block. *)
Definition dump_entries (E : Externals) (db : Store) : Gen unit :=
  (now <- read_clock E ;;
   w <- self ;;
   let posts := all_posts db in
   let pages := if existsb (String.eqb "pages") (plugins (app w))
                then Some (match pages_query db with Some l => l | None => [] end)
                else None in
   first <- glift (first_items now posts pages) ;;
   let '(posts, pages, last_update) := first in
   let feed_id := build_tag_uri E (app w) last_update "tpxa_export" "full" in
   yield (XmlPreamble {| x_version := version (app w);
                         x_title := blog_title (app w);
                         x_subtitle := blog_tagline (app w);
                         x_id := feed_id;
                         x_blog_url := blog_url (app w);
                         x_updated := format_iso8601 last_update |}) ;;;
   for_each_indexed 0 (participants w)
     (fun i p => if defines_setup p then log (Setup i) else graise AttributeError) ;;;
   (* dump configuration *)
   yield (Node (add_children (tp_ "configuration" [] None)
                  (map (fun kv => tp_ "item" [("key", fst kv)] (Some (snd kv)))
                       (cfg_items (app w))))) ;;;
   (* allow plugins to dump trees *)
   for_each (participants w)
     (fun p => match dump_data p with
               | Some rv => yield (Node rv)
               | None => gret tt
               end) ;;;
   (* look up all the users and add them as dependencies *)
   for_each (all_users db) (_register_user E) ;;;
   (* dump all the posts *)
   for_each posts
     (fun post => w <- self ;; node <- glift (_dump_post E w post) ;; yield (Node node)) ;;;
   (* dump all the pages *)
   match pages with
   | None => graise UnboundLocalError
   | Some pages =>
       for_each pages (fun page => node <- _dump_page E page ;; yield (Node node))
   end)%gen.

(** [Writer._generate] *)
Definition _generate (E : Externals) (db : Store) : Gen unit :=
  (dump_entries E db ;;;
   dump_dependencies ;;;
   yield (Text XML_EPILOG))%gen.

(** What the consumer of the generator receives. *)
Definition chunks (tr : list Event) : list Chunk :=
  flat_map (fun e => match e with Yield c => [c] | Setup _ => [] end) tr.

Definition run (E : Externals) (db : Store) (w : Writer) : list Event * option Exn :=
  match _generate E db w with
  | (tr, Ok _) => (tr, None)
  | (tr, Raise e) => (tr, Some e)
  end.

End Exporter.

(* ================================================================== *)
(** * The older exporter: textpress_exporter.py                        *)
(* ================================================================== *)

(** The script at the top of the repository is the exporter before
    pages, the content type, the submitter's address and the tag options
    were added.  It shares the entities and the generator monad of
    [Exporter]; a [Writer] of this module ignores the option fields and
    [db_users].  [format_iso8601] is imported from TextPress here and is
    taken to be the function the newer script defines for itself. *)

Module LegacyExporter.
Import Py ET Exporter.

(** [Writer.__init__] *)
Definition Writer_init (a : App) (ps : list Participant) : Writer :=
  mkWriter a true false (Some []) dict_empty dict_empty dict_empty ps 0.

(** [Writer.new_dependency] *)
Definition new_dependency (tag : string) : Gen Element :=
  Exporter.new_dependency tag.

(** [Writer._register_user] *)
Definition _register_user (E : Externals) (user : User) : Gen unit :=
  (rv <- new_dependency (qname TEXTPRESS_NS "user") ;;
   let id := or_else (attrib_get rv tp_dependency) "" in
   let rv := add_children rv (user_fields E user) in
   w <- self ;;
   let rv := fold_left (fun node p => process_user p node user) (participants w) rv in
   alias_dependency id rv ;;;
   update (fun w => mkWriter (app w) (description_to_category w) (tags_to_categories w)
                             (keep_as_tags w) (_dependencies w)
                             (dict_set (user_id user) rv (users w))
                             (db_users w) (participants w) (clock_reads w)))%gen.

Definition dump_comment (E : Externals) (c : Comment) : Element :=
  add_children (tp_ "comment" [] None)
    [ tp_ "id" [] (Some (str_int (comment_id c)));
      add_children (tp_ "author" [] None)
        [ tp_ "name" [] (c_author c);
          tp_ "email" [] (c_email c);
          tp_ "uri" [] (c_www c) ];
      tp_ "published" [] (Some (format_iso8601 (c_pub_date c)));
      tp_ "blocked" [] (Some (yes_no (blocked c)));
      tp_ "is_pingback" [] (Some (yes_no (is_pingback c)));
      tp_ "blocked_msg" [] (Some (or_else (blocked_msg c) ""));
      tp_ "parent" [] (Some (match parent_id c with
                             | Some n => str_int n
                             | None => ""
                             end));
      tp_ "status" [] (Some (str_int (c_status c)));
      tp_ "data" [] (Some (pickle_b64 E [ ("raw_body", c_raw_body c);
                                          ("parser_data", c_parser_data c) ])) ].

(** [Writer._dump_post] *)
Definition _dump_post (E : Externals) (w : Writer) (post : Post) : Result Element :=
  (let url := p_url post in
   let entry := atom_ "entry" [("xml:base", url)] None in
   let entry := add_children entry
     [ atom_ "title" [("type", "text")] (Some (p_title post));
       atom_ "id" [] (Some (uid post));
       atom_ "updated" [] (Some (format_iso8601 (last_update post)));
       atom_ "published" [] (Some (format_iso8601 (pub_date post)));
       atom_ "link" [("href", url)] None ] in
   author <- author_reference w (user_id (author post))
                              (display_name (author post)) (u_email (author post)) ;;
   let entry := SubElement entry author in
   let entry := add_children entry
     [ tp_ "slug" [] (Some (p_slug post));
       tp_ "id" [] (Some (str_int (post_id post)));
       tp_ "comments_enabled" [] (Some (yes_no (comments_enabled post)));
       tp_ "pings_enabled" [] (Some (yes_no (pings_enabled post)));
       tp_ "status" [] (Some (str_int (p_status post)));
       atom_ "content" [("type", "html")] (Some (p_body post)) ] in
   let entry := match p_intro post with
                | Some intro => SubElement entry (atom_ "summary" [("type", "html")] (Some intro))
                | None => entry
                end in
   let entry := SubElement entry
       (tp_ "data" [] (Some (pickle_b64 E [ ("extra", p_extra post);
                                            ("raw_body", p_raw_body post);
                                            ("raw_intro", p_raw_intro post);
                                            ("parser_data", p_parser_data post) ]))) in
   let entry := add_children entry (map (dump_comment E) (comments post)) in
   Ok (fold_left (fun node p => process_post p node (PostItem post))
                 (participants w) entry))%result.

(** The [try] block at the head of [_generate]. *)
Definition first_items (now : datetime) (posts : list Post) : list Post * datetime :=
  match posts with
  | [] => ([], now)
  | first_post :: rest => (first_post :: rest, last_update first_post)
  end.

(** Everything [_generate] does before the dependencies block. *)
Definition dump_entries (E : Externals) (db : Store) : Gen unit :=
  (now <- read_clock E ;;
   w <- self ;;
   let '(posts, last_update) := first_items now (all_posts db) in
   let feed_id := build_tag_uri E (app w) last_update "tpxa_export" "full" in
   yield (XmlPreamble {| x_version := version (app w);
                         x_title := blog_title (app w);
                         x_subtitle := blog_tagline (app w);
                         x_id := feed_id;
                         x_blog_url := blog_url (app w);
                         x_updated := format_iso8601 last_update |}) ;;;
   for_each_indexed 0 (participants w)
     (fun i p => if defines_setup p then log (Setup i) else graise AttributeError) ;;;
   (* dump configuration *)
   yield (Node (add_children (tp_ "configuration" [] None)
                  (map (fun kv => tp_ "item" [("key", fst kv)] (Some (snd kv)))
                       (cfg_items (app w))))) ;;;
   (* allow plugins to dump trees *)
   for_each (participants w)
     (fun p => match dump_data p with
               | Some rv => yield (Node rv)
               | None => gret tt
               end) ;;;
   (* look up all the users and add them as dependencies *)
   for_each (all_users db) (_register_user E) ;;;
   (* dump all the posts *)
   for_each posts
     (fun post => w <- self ;; node <- glift (_dump_post E w post) ;; yield (Node node)))%gen.

(** [Writer._generate] *)
Definition _generate (E : Externals) (db : Store) : Gen unit :=
  (dump_entries E db ;;;
   dump_dependencies ;;;
   yield (Text XML_EPILOG))%gen.

Definition run (E : Externals) (db : Store) (w : Writer) : list Event * option Exn :=
  match _generate E db w with
  | (tr, Ok _) => (tr, None)
  | (tr, Raise e) => (tr, Some e)
  end.

End LegacyExporter.

(* ================================================================== *)
(** * The importer: textpress_importer/__init__.py                     *)
(* ================================================================== *)

Module Importer.
Import Py ET.

Definition datetime : Type := Exporter.datetime.

Definition ATOM_NS : string := "http://www.w3.org/2005/Atom".
Definition TEXTPRESS_NS : string := "http://textpress.pocoo.org/".
Definition TEXTPRESS_TAG_URI : string := (TEXTPRESS_NS ++ "#tag-scheme")%string.
Definition TEXTPRESS_CATEGORY_URI : string :=
  (TEXTPRESS_NS ++ "#category-scheme")%string.

Definition atom (name : string) : string := qname ATOM_NS name.
Definition xml (name : string) : string := qname XML_NS name.
Definition textpress (name : string) : string := qname TEXTPRESS_NS name.

(** ** The objects of zine.importers

    Authors and comments are objects with an identity: they live in a
    heap and are referred to by their address. *)

Definition ref : Type := nat.

Record Author : Type :=
  mkAuthor
  { a_username : option string;
    a_email : option string;
    a_real_name : option string;
    a_description : option string;
    a_www : option string;
    a_pw_hash : option string;
    a_is_author : bool;
    a_extra : PyVal;
    a_privileges : list string }.

Record Tag : Type :=
  mkTag { tag_slug : string; tag_name : option string }.

Record Category : Type :=
  mkCategory { cat_slug : string; cat_name : option string;
               cat_description : option string }.

Inductive CommentAuthor : Type :=
| AuthorName (name : option string)     (* the text of tp:name *)
| AuthorObject (a : ref).               (* an Author *)

Inductive CommentBody : Type :=
| BodyValue (v : PyVal)                 (* pickled.get('raw_body', u'') *)
| BodyEmptyList.                        (* the empty result of findall *)

Record Comment : Type :=
  mkComment
  { c_author : CommentAuthor;
    c_body : CommentBody;
    c_author_email : option string;
    c_author_url : option string;
    c_parent : option ref;
    c_pub_date : datetime;
    c_remote_addr : option string;
    c_parser : string;
    c_is_pingback : bool;
    c_status : Z;
    c_blocked_msg : option string;
    c_parser_data : PyVal }.

Record Post : Type :=
  mkPost
  { p_slug : option string;
    p_title : string;
    p_link : option string;
    p_pub_date : datetime;
    p_author : ref;
    p_intro : option string;
    p_body : option string;
    p_tags : list Tag;
    p_categories : list Category;
    p_parser : string;
    p_updated : datetime;
    p_uid : option string;
    p_comments : list ref;
    p_content_type : string;
    p_element : Element }.

(** External collaborators. *)
Record Externals : Type :=
  { parse_iso8601 : option string -> Result datetime;
    loads_b64 : string -> Result PyVal;          (* loads(s.decode('base64')) *)
    load_parser_data_b64 : string -> Result PyVal;
                                                 (* load_parser_data(s.decode('base64')) *)
    to_text : Element -> string }.

(** The extension classes the application can have registered for the
    importer; this plugin registers [TPZEAExtension]. *)
Inductive ExtensionClass : Type := TPZEAExtensionClass.

Definition feed_types (c : ExtensionClass) : list string :=
  match c with TPZEAExtensionClass => ["atom"] end.

Record App : Type :=
  { parsers : list string;                       (* the names in app.parsers *)
    privileges : list string;                    (* the names in app.privileges *)
    feed_importer_extensions : list ExtensionClass }.

(** What [_get_author] is handed: a dependency id, or (from
    [parse_comments]) the author element itself. *)
Inductive Dependency : Type :=
| ById (id : string)
| ByNode (e : Element).

Record TPZEAExtension : Type :=
  mkExt
  { _authors : dict string ref;                  (* the entries keyed by an id *)
    _authors_by_node : list (Element * ref);     (* the entries keyed by an element *)
    _tags : dict string Tag;
    _categories : dict string Category;
    _dependencies : option Element }.

Record Parser : Type :=
  mkParser
  { tree : Element;
    tags : list Tag;
    categories : list Category;
    authors : list ref;
    posts : list Post;
    extensions : list TPZEAExtension;
    _categories_by_term : dict string Category;
    _authors_by_username : dict string ref;
    _authors_by_email : dict string ref;
    author_heap : list Author;
    comment_heap : list Comment }.

Record Blog : Type :=
  mkBlog
  { b_title : option string;
    b_link : option string;
    b_description : option string;
    b_language : string;
    b_tags : list Tag;
    b_categories : list Category;
    b_posts : list Post;
    b_authors : list ref;
    b_configuration : dict string (option string);
    b_element : Element;
    b_author_heap : list Author;
    b_comment_heap : list Comment }.

(** ** The parser monad: state and exceptions *)

Definition P (A : Type) : Type := Parser -> Result (A * Parser).

Definition pret {A} (a : A) : P A := fun s => Ok (a, s).

Definition pbind {A B} (m : P A) (k : A -> P B) : P B :=
  fun s => match m s with
           | Ok (a, s') => k a s'
           | Raise e => Raise e
           end.

Declare Scope parser_scope.
Delimit Scope parser_scope with parser.
Notation "x <- c ;; k" := (pbind c (fun x => k))
  (at level 61, c at next level, right associativity) : parser_scope.
Notation "c ;;; k" := (pbind c (fun _ => k))
  (at level 61, right associativity) : parser_scope.

Definition plift {A} (r : Result A) : P A :=
  fun s => match r with Ok a => Ok (a, s) | Raise e => Raise e end.
Definition praise {A} (e : Exn) : P A := fun _ => Raise e.
Definition this : P Parser := fun s => Ok (s, s).
Definition modify (f : Parser -> Parser) : P unit := fun s => Ok (tt, f s).

Fixpoint pfor {A} (l : list A) (body : A -> P unit) : P unit :=
  match l with
  | [] => pret tt
  | x :: r => pbind (body x) (fun _ => pfor r body)
  end.

(** A loop that leaves at the first answer that is not [None]. *)
Fixpoint first_answer {A B} (l : list A) (ask : A -> P (option B)) : P (option B) :=
  match l with
  | [] => pret None
  | x :: r => pbind (ask x) (fun rv => match rv with
                                       | Some b => pret (Some b)
                                       | None => first_answer r ask
                                       end)
  end.

Definition set_categories (v : list Category) (s : Parser) : Parser :=
  mkParser (tree s) (tags s) v (authors s) (posts s) (extensions s)
           (_categories_by_term s) (_authors_by_username s) (_authors_by_email s)
           (author_heap s) (comment_heap s).
Definition set_authors (v : list ref) (s : Parser) : Parser :=
  mkParser (tree s) (tags s) (categories s) v (posts s) (extensions s)
           (_categories_by_term s) (_authors_by_username s) (_authors_by_email s)
           (author_heap s) (comment_heap s).
Definition set_posts (v : list Post) (s : Parser) : Parser :=
  mkParser (tree s) (tags s) (categories s) (authors s) v (extensions s)
           (_categories_by_term s) (_authors_by_username s) (_authors_by_email s)
           (author_heap s) (comment_heap s).
Definition set_extensions (v : list TPZEAExtension) (s : Parser) : Parser :=
  mkParser (tree s) (tags s) (categories s) (authors s) (posts s) v
           (_categories_by_term s) (_authors_by_username s) (_authors_by_email s)
           (author_heap s) (comment_heap s).
Definition set_categories_by_term (v : dict string Category) (s : Parser) : Parser :=
  mkParser (tree s) (tags s) (categories s) (authors s) (posts s) (extensions s)
           v (_authors_by_username s) (_authors_by_email s)
           (author_heap s) (comment_heap s).
Definition set_authors_by_username (v : dict string ref) (s : Parser) : Parser :=
  mkParser (tree s) (tags s) (categories s) (authors s) (posts s) (extensions s)
           (_categories_by_term s) v (_authors_by_email s)
           (author_heap s) (comment_heap s).
Definition set_authors_by_email (v : dict string ref) (s : Parser) : Parser :=
  mkParser (tree s) (tags s) (categories s) (authors s) (posts s) (extensions s)
           (_categories_by_term s) (_authors_by_username s) v
           (author_heap s) (comment_heap s).
Definition set_author_heap (v : list Author) (s : Parser) : Parser :=
  mkParser (tree s) (tags s) (categories s) (authors s) (posts s) (extensions s)
           (_categories_by_term s) (_authors_by_username s) (_authors_by_email s)
           v (comment_heap s).
Definition set_comment_heap (v : list Comment) (s : Parser) : Parser :=
  mkParser (tree s) (tags s) (categories s) (authors s) (posts s) (extensions s)
           (_categories_by_term s) (_authors_by_username s) (_authors_by_email s)
           (author_heap s) v.

(** Object creation and access. *)
Definition new_author (a : Author) : P ref :=
  fun s => Ok (List.length (author_heap s), set_author_heap (author_heap s ++ [a]) s).

Definition new_comment (c : Comment) : P ref :=
  fun s => Ok (List.length (comment_heap s), set_comment_heap (comment_heap s ++ [c]) s).

Definition no_author : Author :=
  mkAuthor None None None None None None true PNone [].

Definition the_author (heap : list Author) (r : ref) : Author := nth r heap no_author.

Fixpoint replace_nth {A} (n : nat) (x : A) (l : list A) : list A :=
  match l, n with
  | [], _ => []
  | _ :: r, O => x :: r
  | y :: r, S m => y :: replace_nth m x r
  end.

Definition set_parent (parent : ref) (c : Comment) : Comment :=
  mkComment (c_author c) (c_body c) (c_author_email c) (c_author_url c) (Some parent)
            (c_pub_date c) (c_remote_addr c) (c_parser c) (c_is_pingback c)
            (c_status c) (c_blocked_msg c) (c_parser_data c).

(** [comment.parent = parent] *)
Definition assign_parent (comment parent : ref) : P unit :=
  modify (fun s => set_comment_heap
                     (match nth_error (comment_heap s) comment with
                      | Some c => replace_nth comment (set_parent parent c) (comment_heap s)
                      | None => comment_heap s
                      end) s).

(** ** Module-level helpers *)

Definition text_or_empty (e : Element) : string :=
  match text e with Some t => t | None => "" end.

Definition has_type (ty : string) (e : Element) : bool :=
  match attrib_get e "type" with
  | Some v => String.eqb v ty
  | None => false
  end.

Section WithExternals.
Context (E : Externals) (app : App).

(** [_get_text_content] *)
Definition _get_text_content (elements : list Element) : string :=
  match elements with
  | [] => ""
  | first :: _ =>
      match List.find (has_type "text") elements with
      | Some element => text_or_empty element
      | None =>
          match List.find (has_type "html") elements with
          | Some element => to_text E element
          | None => to_text E first
          end
      end
  end.

(** [_get_html_content] *)
Definition _get_html_content (elements : list Element) : option string :=
  match elements with
  | [] => Some ""
  | first :: _ =>
      match List.find (has_type "html") elements with
      | Some element => text element
      | None => text first
      end
  end.

(** [_to_bool] *)
Definition _to_bool (value : option string) : Result bool :=
  match value with
  | None => Raise AttributeError
  | Some v =>
      let v := strip v in
      if String.eqb v "yes" then Ok true
      else if String.eqb v "no" then Ok false
      else Raise ValueError
  end.

(** [_pickle] *)
Definition _pickle (value : option string) : Result PyVal :=
  match value with
  | Some (String c r) => loads_b64 E (String c r)
  | _ => Ok PNone
  end.

(** [_parser_data] *)
Definition _parser_data (value : option string) : Result PyVal :=
  match value with
  | Some (String c r) => load_parser_data_b64 E (String c r)
  | _ => Ok PNone
  end.

(** [obj.get(key, default)] on an unpickled object. *)
Definition get_item (obj : PyVal) (key : string) (default : PyVal) : Result PyVal :=
  match obj with
  | PDict items =>
      Ok (match assoc key items with Some v => v | None => default end)
  | _ => Raise AttributeError
  end.

(** [p if p in get_application().parsers else 'html'] *)
Definition known_parser (p : PyVal) : string :=
  match p with
  | PStr name => if existsb (String.eqb name) (parsers app) then name else "html"
  | _ => "html"
  end.

(** ** TPZEAExtension *)

Definition no_extension : TPZEAExtension :=
  mkExt dict_empty [] dict_empty dict_empty None.

(** [TPZEAExtension.__init__] *)
Definition TPZEAExtension_init (root : Element) : TPZEAExtension :=
  mkExt dict_empty [] dict_empty dict_empty (find root (textpress "dependencies")).

Definition extension (i : nat) : P TPZEAExtension :=
  fun s => Ok (nth i (extensions s) no_extension, s).

Definition set_extension (i : nat) (x : TPZEAExtension) : P unit :=
  modify (fun s => set_extensions (replace_nth i x (extensions s)) s).

(** [self._lookup_user(self._dependencies, id=dependency)]: the XPath
    [tp:user[@tp:dependency=$id]].  An element passed for [$id] is
    compared through its string value. *)
Definition _lookup_user (dependencies : option Element) (dependency : Dependency)
  : Result (list Element) :=
  match dependencies with
  | None => Raise TypeError
  | Some d =>
      let wanted := match dependency with
                    | ById id => id
                    | ByNode e => string_value e
                    end in
      Ok (filter (fun u => match attrib_get u (textpress "dependency") with
                           | Some v => String.eqb v wanted
                           | None => false
                           end)
                 (findall d (textpress "user")))
  end.

(** [self._authors.get(dependency)].  An element is a key by identity,
    and no author element is looked up twice. *)
Definition cached_author (x : TPZEAExtension) (dependency : Dependency) : option ref :=
  match dependency with
  | ById id => dict_get id (_authors x)
  | ByNode _ => None
  end.

Definition cache_author (x : TPZEAExtension) (dependency : Dependency) (a : ref)
  : TPZEAExtension :=
  match dependency with
  | ById id => mkExt (dict_set id a (_authors x)) (_authors_by_node x)
                     (_tags x) (_categories x) (_dependencies x)
  | ByNode e => mkExt (_authors x) (_authors_by_node x ++ [(e, a)])
                      (_tags x) (_categories x) (_dependencies x)
  end.

Definition add_privileges (element : Element) : list string :=
  fold_left (fun acc privilege =>
               match text privilege with
               | Some name =>
                   if existsb (String.eqb name) (privileges app)
                      && negb (existsb (String.eqb name) acc)
                   then acc ++ [name] else acc
               | None => acc
               end)
            (findall element (textpress "privilege")) [].

(** [TPZEAExtension._get_author] *)
Definition _get_author (i : nat) (dependency : Dependency) : P ref :=
  (x <- extension i ;;
   match cached_author x dependency with
   | Some author => pret author
   | None =>
       found <- plift (_lookup_user (_dependencies x) dependency) ;;
       element <- plift (match found with e :: _ => Ok e | [] => Raise IndexError end) ;;
       role <- plift (match findtext element (textpress "role") with
                      | Some (String c r) => int_of_str (String c r)
                      | _ => Ok 0%Z
                      end) ;;
       extra <- plift (_pickle (findtext element (textpress "extra"))) ;;
       author <- new_author
         (mkAuthor (findtext element (textpress "username"))
                   (findtext element (textpress "email"))
                   (findtext element (textpress "real_name"))
                   (findtext element (textpress "description"))
                   (findtext element (textpress "www"))
                   (findtext element (textpress "pw_hash"))
                   (role =? 4)%Z
                   extra
                   (add_privileges element)) ;;
       set_extension i (cache_author x dependency author) ;;;
       modify (fun s => set_authors (authors s ++ [author]) s) ;;;
       pret author
   end)%parser.

(** [TPZEAExtension._parse_tag] *)
Definition _parse_tag (i : nat) (element : Element) : P Tag :=
  (term <- plift (attrib_lookup element "term") ;;
   x <- extension i ;;
   match dict_get term (_tags x) with
   | Some t => pret t
   | None =>
       let t := mkTag term (attrib_get element "label") in
       set_extension i (mkExt (_authors x) (_authors_by_node x)
                              (dict_set term t (_tags x)) (_categories x)
                              (_dependencies x)) ;;;
       pret t
   end)%parser.

(** [TPZEAExtension._parse_category] *)
Definition _parse_category (i : nat) (element : Element) : P Category :=
  (term <- plift (attrib_lookup element "term") ;;
   x <- extension i ;;
   match dict_get term (_categories x) with
   | Some c => pret c
   | None =>
       let c := mkCategory term (attrib_get element "label")
                           (findtext element (textpress "description")) in
       set_extension i (mkExt (_authors x) (_authors_by_node x)
                              (_tags x) (dict_set term c (_categories x))
                              (_dependencies x)) ;;;
       pret c
   end)%parser.

(** [TPZEAExtension._parse_config] *)
Fixpoint parse_items (items : list Element) (result : dict string (option string))
  : Result (dict string (option string)) :=
  match items with
  | [] => Ok result
  | element :: r =>
      (key <- attrib_lookup element "key" ;;
       parse_items r (dict_set key (text element) result))%result
  end.

Definition _parse_config (element : option Element)
  : Result (dict string (option string)) :=
  match element with
  | None => Ok dict_empty
  | Some element => parse_items (findall element (textpress "item")) dict_empty
  end.

(** [TPZEAExtension.handle_root] *)
Definition handle_root (blog : Blog) : Result Blog :=
  (cfg <- _parse_config (find (b_element blog) (textpress "configuration")) ;;
   Ok (mkBlog (b_title blog) (b_link blog) (b_description blog) (b_language blog)
              (b_tags blog) (b_categories blog) (b_posts blog) (b_authors blog)
              (fold_left (fun d kv => dict_set (fst kv) (snd kv) d)
                         (dict_items cfg) (b_configuration blog))
              (b_element blog) (b_author_heap blog) (b_comment_heap blog)))%result.

Definition set_content_type (v : string) (p : Post) : Post :=
  mkPost (p_slug p) (p_title p) (p_link p) (p_pub_date p) (p_author p) (p_intro p)
         (p_body p) (p_tags p) (p_categories p) (p_parser p) (p_updated p) (p_uid p)
         (p_comments p) v (p_element p).

Definition set_comments (v : list ref) (p : Post) : Post :=
  mkPost (p_slug p) (p_title p) (p_link p) (p_pub_date p) (p_author p) (p_intro p)
         (p_body p) (p_tags p) (p_categories p) (p_parser p) (p_updated p) (p_uid p)
         v (p_content_type p) (p_element p).

(** [TPZEAExtension.postprocess_post] *)
Definition postprocess_post (post : Post) : Post :=
  match findtext (p_element post) (textpress "content_type") with
  | Some content_type => set_content_type content_type post
  | None => post
  end.

(** [TPZEAExtension.lookup_author] *)
Definition lookup_author (i : nat) (author entry : Element)
           (username email : option string) : P (option ref) :=
  match attrib_get author (textpress "dependency") with
  | Some dependency => pbind (_get_author i (ById dependency)) (fun a => pret (Some a))
  | None => pret None
  end.

(** [TPZEAExtension.tag_or_category] *)
Definition tag_or_category (i : nat) (element : Element) : P (option (Tag + Category)) :=
  match attrib_get element "scheme" with
  | Some scheme =>
      if String.eqb scheme TEXTPRESS_TAG_URI
      then pbind (_parse_tag i element) (fun t => pret (Some (inl t)))
      else if String.eqb scheme TEXTPRESS_CATEGORY_URI
      then pbind (_parse_category i element) (fun c => pret (Some (inr c)))
      else pret None
  | None => pret None
  end.

(** The local variables of [TPZEAExtension.parse_comments] that live
    across the iterations of its first loop.  [comment_parser] is
    [None] until it is bound. *)
Record CommentLoop : Type :=
  mkLoop
  { comments : dict Z ref;
    unresolved_parents : list (ref * Z);
    comment_parser : option string }.

(** One iteration of the first loop of [parse_comments]. *)
Definition parse_comment (i : nat) (l : CommentLoop) (element : Element) : P CommentLoop :=
  (author <- plift (match find element (textpress "author") with
                    | Some a => Ok a
                    | None => Raise AttributeError
                    end) ;;
   who <- match attrib_get author "dependency" with
          | Some _ =>
              a <- _get_author i (ByNode author) ;;
              pret (AuthorObject a, None, None)
          | None =>
              pret (AuthorName (findtext author (textpress "name")),
                    findtext author (textpress "email"),
                    findtext author (textpress "uri"))
          end ;;
   let '(author, email, www) := who in
   data <- match findall element (textpress "data") with
           | [] => pret (BodyEmptyList, comment_parser l)
           | first :: _ =>
               pickled <- plift (_pickle (text first)) ;;
               body <- plift (get_item pickled "raw_body" (PStr "")) ;;
               parser <- plift (get_item pickled "parser" (PStr "html")) ;;
               pret (BodyValue body, Some (known_parser parser))
           end ;;
   let '(body, bound_parser) := data in
   published <- plift (parse_iso8601 E (findtext element (textpress "published"))) ;;
   comment_parser <- plift (match bound_parser with
                            | Some p => Ok p
                            | None => Raise UnboundLocalError
                            end) ;;
   pingback <- plift (_to_bool (findtext element (textpress "is_pingback"))) ;;
   status <- plift (int_ (findtext element (textpress "status"))) ;;
   parser_data <- plift (_parser_data (findtext element (textpress "parser_data"))) ;;
   comment <- new_comment
     (mkComment author body email www None published
                (findtext element (textpress "submitter_ip")) comment_parser
                pingback status (findtext element (textpress "blocked_msg"))
                parser_data) ;;
   id <- plift (int_ (findtext element (textpress "id"))) ;;
   let comments := dict_set id comment (comments l) in
   match findtext element (textpress "parent") with
   | Some parent =>                       (* parent is not None or '' *)
       parent_id <- plift (int_of_str parent) ;;
       pret (mkLoop comments (unresolved_parents l ++ [(comment, parent_id)])
                    (Some comment_parser))
   | None => pret (mkLoop comments (unresolved_parents l) (Some comment_parser))
   end)%parser.

Fixpoint parse_comment_elements (i : nat) (l : CommentLoop) (elements : list Element)
  : P CommentLoop :=
  match elements with
  | [] => pret l
  | element :: r =>
      pbind (parse_comment i l element) (fun l' => parse_comment_elements i l' r)
  end.

(** The second loop of [parse_comments]:
    [comment.parent = comments[parent_id]]. *)
Definition link_parent (comments : dict Z ref) (link : ref * Z) : P unit :=
  (parent <- plift (dict_lookup (snd link) comments) ;;
   assign_parent (fst link) parent)%parser.

(** [TPZEAExtension.parse_comments] *)
Definition TPZEA_parse_comments (i : nat) (post : Post) : P (list ref) :=
  (l <- parse_comment_elements i (mkLoop dict_empty [] None)
                               (findall (p_element post) (textpress "comment")) ;;
   pfor (unresolved_parents l) (link_parent (comments l)) ;;;
   pret (dict_values (comments l)))%parser.

(** ** TPParser, RSSParser, AtomParser *)

Definition indices (s : Parser) : list nat := seq 0 (List.length (extensions s)).

(** [TPParser.__init__] with [AtomParser.__init__] *)
Definition AtomParser_init (tree : Element) : Result Parser :=
  Ok (mkParser tree [] [] [] []
               (map (fun _ => TPZEAExtension_init tree)
                    (filter (fun c => existsb (String.eqb "atom") (feed_types c))
                            (feed_importer_extensions app)))
               dict_empty dict_empty dict_empty [] []).

(** [RSSParser.__init__] *)
Definition RSSParser_init (tree : Element) : Result Parser :=
  Raise (FeedImportError "Importing of RSS feeds is currently not possible.").

(** [_remember_author] of [parse_author] *)
Definition _remember_author (author : ref) : P unit :=
  (s <- this ;;
   let a := the_author (author_heap s) author in
   match a_email a with
   | Some email =>
       if dict_contains email (_authors_by_email s) then pret tt
       else modify (fun s => set_authors_by_email
                               (dict_set email author (_authors_by_email s)) s)
   | None => pret tt
   end ;;;
   s <- this ;;
   match a_username a with
   | Some username =>
       if dict_contains username (_authors_by_username s) then pret tt
       else modify (fun s => set_authors_by_username
                               (dict_set username author (_authors_by_username s)) s)
   | None => pret tt
   end)%parser.

(** [AtomParser.parse_author] *)
Definition parse_author (entry : Element) : P ref :=
  (author <- plift (match find entry (atom "author") with
                    | Some a => Ok a
                    | None => Raise AttributeError
                    end) ;;
   let email := findtext author (atom "email") in
   let username := findtext author (atom "name") in
   s <- this ;;
   rv <- first_answer (indices s)
                      (fun i => lookup_author i author entry username email) ;;
   match rv with
   | Some rv => _remember_author rv ;;; pret rv
   | None =>
       s <- this ;;
       match match email with
             | Some email => dict_get email (_authors_by_email s)
             | None => None
             end with
       | Some known => pret known
       | None =>
           match match username with
                 | Some username => dict_get username (_authors_by_username s)
                 | None => None
                 end with
           | Some known => pret known
           | None =>
               author <- new_author (mkAuthor username email None None None None
                                              true PNone []) ;;
               _remember_author author ;;;
               modify (fun s => set_authors (authors s ++ [author]) s) ;;;
               pret author
           end
       end
   end)%parser.

(** [_remember_category] of [parse_categories] *)
Definition _remember_category (category : Category) (element : Element) : P unit :=
  (term <- plift (attrib_lookup element "term") ;;
   s <- this ;;
   if dict_contains term (_categories_by_term s) then pret tt
   else modify (fun s => set_categories_by_term
                           (dict_set term category (_categories_by_term s)) s))%parser.

(** The body of the loop of [parse_categories] for one [category]
    element. *)
Definition parse_one_category (acc : list Tag * list Category) (category : Element)
  : P (list Tag * list Category) :=
  (s <- this ;;
   rv <- first_answer (indices s) (fun i => tag_or_category i category) ;;
   match rv with
   | Some (inr c) =>
       _remember_category c category ;;;
       pret (fst acc, snd acc ++ [c])
   | Some (inl t) => pret (fst acc ++ [t], snd acc)
   | None =>
       term <- plift (attrib_lookup category "term") ;;
       s <- this ;;
       match dict_get term (_categories_by_term s) with
       | Some c => pret (fst acc, snd acc ++ [c])
       | None =>
           let c := mkCategory term (attrib_get category "label") None in
           _remember_category c category ;;;
           modify (fun s => set_categories (categories s ++ [c]) s) ;;;
           pret (fst acc, snd acc ++ [c])
       end
   end)%parser.

Fixpoint parse_category_elements (acc : list Tag * list Category)
         (elements : list Element) : P (list Tag * list Category) :=
  match elements with
  | [] => pret acc
  | category :: r =>
      pbind (parse_one_category acc category)
            (fun acc' => parse_category_elements acc' r)
  end.

(** [AtomParser.parse_categories] *)
Definition parse_categories (entry : Element) : P (list Tag * list Category) :=
  parse_category_elements ([], []) (findall entry (atom "category")).

Fixpoint extend_comments (post : Post) (l : list nat) : P Post :=
  match l with
  | [] => pret post
  | i :: r =>
      pbind (TPZEA_parse_comments i post)
            (fun found => extend_comments (set_comments (p_comments post ++ found) post) r)
  end.

(** [AtomParser.parse_comments] *)
Definition parse_comments (post : Post) : P Post :=
  pbind this (fun s => extend_comments post (indices s)).

(** [entry.findall(textpress.data)[0]] *)
Definition first_data (entry : Element) : Result Element :=
  match findall entry (textpress "data") with
  | first :: _ => Ok first
  | [] => Raise IndexError
  end.

(** [content_type in ('page', 'entry')] *)
Definition known_content_type (content_type : option string) : bool :=
  match content_type with
  | Some t => String.eqb t "page" || String.eqb t "entry"
  | None => false
  end.

(** [AtomParser.parse_post] *)
Definition parse_post (entry : Element) : P Post :=
  (updated <- plift (parse_iso8601 E (findtext entry (atom "updated"))) ;;
   published <- match findtext entry (atom "published") with
                | Some published => plift (parse_iso8601 E (Some published))
                | None => pret updated
                end ;;
   found <- parse_categories entry ;;
   let '(tags, categories) := found in
   let link := match find entry (atom "link") with
               | Some link => attrib_get link "href"
               | None => None
               end in
   data <- plift (first_data entry) ;;
   pickled <- plift (_pickle (text data)) ;;
   post_parser <- plift (get_item pickled "parser" (PStr "html")) ;;
   let post_parser := known_parser post_parser in
   let slug := findtext entry (textpress "slug") in
   let title := _get_text_content (findall entry (atom "title")) in
   author <- parse_author entry ;;
   let post := mkPost slug title link published author
                      (_get_html_content (findall entry (atom "summary")))
                      (_get_html_content (findall entry (atom "content")))
                      tags categories post_parser updated
                      (findtext entry (atom "id")) [] "entry" entry in
   let post := if known_content_type (findtext entry (textpress "content_type"))
               then post else set_content_type "entry" post in
   post <- parse_comments post ;;
   s <- this ;;
   pret (fold_left (fun post _ => postprocess_post post) (indices s) post))%parser.

(** The loop of [AtomParser.parse] over the entries. *)
Definition parse_entries : P unit :=
  (s <- this ;;
   pfor (findall (tree s) (atom "entry"))
        (fun entry => post <- parse_post entry ;;
                      modify (fun s => set_posts (posts s ++ [post]) s)))%parser.

(** The rest of [AtomParser.parse]: the blog, handed to every
    extension's [handle_root]. *)
Definition build_blog : P Blog :=
  (s <- this ;;
   let blog := mkBlog (findtext (tree s) (atom "title"))
                      (findtext (tree s) (atom "link"))
                      (findtext (tree s) (atom "subtitle"))
                      (match attrib_get (tree s) (xml "lang") with
                       | Some lang => lang
                       | None => "en"
                       end)
                      (tags s) (categories s) (posts s) (authors s)
                      dict_empty (tree s) (author_heap s) (comment_heap s) in
   plift (fold_left (fun b _ => rbind b handle_root) (indices s) (Ok blog)))%parser.

(** [AtomParser.parse] *)
Definition parse : P Blog := (parse_entries ;;; build_blog)%parser.

Inductive parser_class : Type := RSSParser | AtomParser.

(** The choice [parse_feed] makes from the root tag. *)
Definition select_parser (root_tag : string) : Result parser_class :=
  if String.eqb root_tag "rss" then Ok RSSParser
  else if String.eqb root_tag (atom "feed") then Ok AtomParser
  else Raise (FeedImportError "Unknown feed uploaded.").

Definition construct (c : parser_class) (tree : Element) : Result Parser :=
  match c with
  | RSSParser => RSSParser_init tree
  | AtomParser => AtomParser_init tree
  end.

(** [parse_feed], from the root element [etree.parse(fd).getroot()]
    on. *)
Definition parse_feed (tree : Element) : Result Blog :=
  (parser_class <- select_parser (tag tree) ;;
   parser <- construct parser_class tree ;;
   match parse parser with
   | Ok (blog, _) => Ok blog
   | Raise e => Raise e
   end)%result.

End WithExternals.

End Importer.

(* ================================================================== *)
(** * From the exporter's output to the importer's input               *)
(* ================================================================== *)

(** The chunks of one export, concatenated, are one XML document.  The
    importer receives its root element.  [document] is the tree lxml
    builds for a well-formed sequence of chunks: the feed element with
    the six elements of the preamble, the nodes in the order they were
    written and, when it was written, the dependencies element. *)

Module Wire.
Import Py ET Exporter.

Definition preamble_elements (p : Preamble) : list Element :=
  [ atom_ "title" [] (Some (x_title p));
    atom_ "subtitle" [] (Some (x_subtitle p));
    atom_ "id" [] (Some (x_id p));
    atom_ "generator" [("uri", "http://textpress.pocoo.org/"); ("version", x_version p)]
          (Some "TextPress TPXA Export");
    atom_ "link" [("href", x_blog_url p)] None;
    atom_ "updated" [] (Some (x_updated p)) ].

(** The feed element holding [nodes] and, if any, the dependencies
    element with [dependencies] as children. *)
Definition feed_document (p : Preamble) (nodes : list Element)
           (dependencies : option (list Element)) : Element :=
  reparse
    (mkElement (qname ATOM_NS "feed") [] None
       (preamble_elements p ++ nodes
        ++ match dependencies with
           | Some l => [ mkElement (qname TEXTPRESS_NS "dependencies") [] None l ]
           | None => []
           end)).

Fixpoint leading_nodes (cs : list Chunk) : list Element * list Chunk :=
  match cs with
  | Node e :: r => let (ns, rest) := leading_nodes r in (e :: ns, rest)
  | _ => ([], cs)
  end.

Definition document (cs : list Chunk) : option Element :=
  match cs with
  | XmlPreamble p :: r =>
      let (nodes, r) := leading_nodes r in
      match r with
      | [ Text "</a:feed>" ] => Some (feed_document p nodes None)
      | Text "<tp:dependencies>" :: r =>
          let (deps, r) := leading_nodes r in
          match r with
          | [ Text "</tp:dependencies>"; Text "</a:feed>" ] =>
              Some (feed_document p nodes (Some deps))
          | _ => None
          end
      | _ => None
      end
  | _ => None
  end.



(** The document of an export that completed (an empty element
    otherwise). *)
Definition exported_document (out : list Event * option Exn) : Element :=
  match out with
  | (tr, None) =>
      match document (chunks tr) with
      | Some tree => tree
      | None => mkElement "" [] None []
      end
  | (_, Some _) => mkElement "" [] None []
  end.

End Wire.

(* ================================================================== *)
(** * A reference environment                                          *)
(* ================================================================== *)

(** Concrete stand-ins for the external collaborators, used to run the
    model on examples: a date parser for the format the exporter
    writes, and a line-based codec in place of pickle and base64 that
    gives back what was stored (flat dictionaries of strings, [None]
    and opaque values). *)

Module Reference.
Import Py ET.

Definition newline : ascii := ascii_of_nat 10.

Definition encode_value (v : PyVal) : string :=
  match v with
  | PNone => "N"
  | PStr s => String "S"%char s
  | PDict _ => "D"
  | POpaque n => String "O"%char (Exporter.dec n)
  end.

Fixpoint encode_items (l : list (string * PyVal)) : string :=
  match l with
  | [] => "."
  | (k, v) :: r =>
      (k ++ String newline (encode_value v ++ String newline (encode_items r)))%string
  end.

Fixpoint split_lines (s cur : string) : list string :=
  match s with
  | EmptyString => [string_rev cur]
  | String c r =>
      if Ascii.eqb c newline then string_rev cur :: split_lines r ""
      else split_lines r (String c cur)
  end.

Definition decode_value (s : string) : option PyVal :=
  match s with
  | String "N"%char EmptyString => Some PNone
  | String "S"%char r => Some (PStr r)
  | String "D"%char EmptyString => Some (PDict [])
  | String "O"%char r =>
      match digits_value 0 r with
      | Some n => Some (POpaque (Z.to_nat n))
      | None => None
      end
  | _ => None
  end.

Fixpoint decode_items (l : list string) : option (list (string * PyVal)) :=
  match l with
  | [ String "."%char EmptyString ] => Some []
  | k :: v :: r =>
      match decode_value v, decode_items r with
      | Some v', Some r' => Some ((k, v') :: r')
      | _, _ => None
      end
  | _ => None
  end.

Definition demo_loads (s : string) : Result PyVal :=
  match decode_items (split_lines s "") with
  | Some items => Ok (PDict items)
  | None => Raise (ExternalError "UnpicklingError")
  end.

Definition two_digits (s : string) (at_ : nat) : option nat :=
  match digits_value 0 (String.substring at_ 2 s) with
  | Some n => Some (Z.to_nat n)
  | None => None
  end.

Definition demo_parse_iso8601 (x : option string) : Result Exporter.datetime :=
  match x with
  | None => Raise TypeError
  | Some s =>
      match digits_value 0 (String.substring 0 4 s),
            two_digits s 5, two_digits s 8, two_digits s 11,
            two_digits s 14, two_digits s 17 with
      | Some y, Some mo, Some d, Some h, Some mi, Some se =>
          if (String.length s =? 20)%nat
          then Ok (Exporter.mkDate (Z.to_nat y) mo d h mi se)
          else Raise ValueError
      | _, _, _, _, _, _ => Raise ValueError
      end
  end.

Definition exporter_externals : Exporter.Externals :=
  {| Exporter.build_tag_uri := fun a d resource identifier =>
       ("tag:" ++ Exporter.blog_url a ++ "," ++ Exporter.format_iso8601 d ++ ":"
        ++ resource ++ "/" ++ identifier)%string;
     Exporter.b64encode := fun s => s;
     Exporter.pickle_b64 := encode_items;
     Exporter.utcnow := fun n => Exporter.mkDate 2009 3 1 12 0 n |}.

Definition importer_externals : Importer.Externals :=
  {| Importer.parse_iso8601 := demo_parse_iso8601;
     Importer.loads_b64 := demo_loads;
     Importer.load_parser_data_b64 := demo_loads;
     Importer.to_text := string_value |}.

(** The importing application: this plugin's [setup] has registered
    [TPZEAExtension]. *)
Definition zine : Importer.App :=
  {| Importer.parsers := ["html"; "zeml"; "text"];
     Importer.privileges := ["BLOG_ADMIN"];
     Importer.feed_importer_extensions := [Importer.TPZEAExtensionClass] |}.

(** The exporting application, with the pages plugin loaded. *)
Definition textpress : Exporter.App :=
  {| Exporter.blog_title := "My Blog";
     Exporter.blog_tagline := "just a blog";
     Exporter.blog_url := "http://example.org/";
     Exporter.cfg_items := [("blog_title", "My Blog"); ("posts_per_page", "10")];
     Exporter.plugins := ["pages"];
     Exporter.version := "0.1" |}.

Definition user_A : Exporter.User :=
  {| Exporter.user_id := 1; Exporter.username := "alice"; Exporter.role := 4;
     Exporter.pw_hash := "sha$x$y"; Exporter._display_name := Some "$nick";
     Exporter.first_name := Some "Alice"; Exporter.last_name := None;
     Exporter.u_description := Some "admin"; Exporter.display_name := "alice";
     Exporter.u_email := Some "alice@example.org"; Exporter.is_manager := true |}.

Definition user_B : Exporter.User :=
  {| Exporter.user_id := 2; Exporter.username := "bob"; Exporter.role := 2;
     Exporter.pw_hash := "sha$u$v"; Exporter._display_name := Some "$nick";
     Exporter.first_name := Some "Bob"; Exporter.last_name := None;
     Exporter.u_description := None; Exporter.display_name := "bob";
     Exporter.u_email := Some "bob@example.org"; Exporter.is_manager := false |}.

Definition user_C : Exporter.User :=
  {| Exporter.user_id := 3; Exporter.username := "carol"; Exporter.role := 2;
     Exporter.pw_hash := "sha$s$t"; Exporter._display_name := Some "$nick";
     Exporter.first_name := Some "Carol"; Exporter.last_name := None;
     Exporter.u_description := None; Exporter.display_name := "carol";
     Exporter.u_email := Some "carol@example.org"; Exporter.is_manager := false |}.

Definition comment_C1 : Exporter.Comment :=
  {| Exporter.comment_id := 1; Exporter.c_author := Some "visitor";
     Exporter.c_email := Some "v@example.org"; Exporter.c_www := None;
     Exporter.c_pub_date := Exporter.mkDate 2009 2 2 10 0 0;
     Exporter.blocked := false; Exporter.is_pingback := false;
     Exporter.blocked_msg := None; Exporter.parent_id := None;
     Exporter.c_status := 0; Exporter.submitter_ip := Some "127.0.0.1";
     Exporter.c_raw_body := PStr "first"; Exporter.c_parser_data := PNone |}.


Definition tag_news : Exporter.Tag :=
  {| Exporter.t_slug := "news"; Exporter.t_name := "News";
     Exporter.t_description := Some "What is new" |}.

Definition post_P1 (cs : list Exporter.Comment) : Exporter.Post :=
  {| Exporter.p_url := "http://example.org/2009/2/1/first";
     Exporter.p_title := "First"; Exporter.uid := "tag:example.org,2009:post/1";
     Exporter.last_update := Exporter.mkDate 2009 2 3 9 30 0;
     Exporter.pub_date := Exporter.mkDate 2009 2 1 8 0 0;
     Exporter.author := user_A; Exporter.p_slug := "first"; Exporter.post_id := 1;
     Exporter.comments_enabled := true; Exporter.pings_enabled := false;
     Exporter.p_status := 1; Exporter.p_body := "<p>hello</p>";
     Exporter.p_intro := None; Exporter.p_extra := PNone;
     Exporter.p_raw_body := PStr "hello"; Exporter.p_raw_intro := PNone;
     Exporter.p_parser_data := PNone;
     Exporter.comments := cs; Exporter.tags := [tag_news] |}.

Definition post_P2 : Exporter.Post :=
  {| Exporter.p_url := "http://example.org/2009/1/1/second";
     Exporter.p_title := "Second"; Exporter.uid := "tag:example.org,2009:post/2";
     Exporter.last_update := Exporter.mkDate 2009 1 2 9 30 0;
     Exporter.pub_date := Exporter.mkDate 2009 1 1 8 0 0;
     Exporter.author := user_A; Exporter.p_slug := "second"; Exporter.post_id := 2;
     Exporter.comments_enabled := true; Exporter.pings_enabled := true;
     Exporter.p_status := 1; Exporter.p_body := "<p>again</p>";
     Exporter.p_intro := Some "<p>intro</p>"; Exporter.p_extra := PNone;
     Exporter.p_raw_body := PStr "again"; Exporter.p_raw_intro := PStr "intro";
     Exporter.p_parser_data := PNone;
     Exporter.comments := []; Exporter.tags := [] |}.

Definition page_G : Exporter.Page :=
  {| Exporter.g_url := "http://example.org/about"; Exporter.g_title := "About";
     Exporter.page_id := 1; Exporter.g_key := "about";
     Exporter.g_body := "<p>about</p>"; Exporter.g_extra := PNone;
     Exporter.g_raw_body := PStr "about" |}.

(** A writer with [description_to_category] set, [tags_to_categories]
    unset and an empty list of tags to keep; no participants. *)
Definition writer : Exporter.Writer :=
  Exporter.Writer_init textpress true false (Some []) [].

End Reference.

(* ================================================================== *)
(** * Vocabulary of the statements                                     *)
(* ================================================================== *)

Module Statements.
Import Py ET Exporter.

(** The chunks of the dependencies block for a table. *)
Definition dependencies_block (d : dict string Element) : list Chunk :=
  match dict_len d with
  | O => []
  | S _ => Text "<tp:dependencies>" :: map Node (dict_values d)
             ++ [ Text "</tp:dependencies>" ]
  end.

(** The nodes an output carries between the two literals of the
    dependencies block. *)
Fixpoint block_nodes (cs : list Chunk) : list Element :=
  match cs with
  | [] => []
  | Text "<tp:dependencies>" :: r => fst (Wire.leading_nodes r)
  | _ :: r => block_nodes r
  end.

(** The canonical node of the [k]-th registered user. *)
Definition user_node (E : Externals) (ps : list Participant) (k : nat) (user : User)
  : Element :=
  fold_left (fun node p => process_user p node user) ps
            (add_children (mkElement (qname TEXTPRESS_NS "user")
                                     [(tp_dependency, hex k)] None [])
                          (user_fields E user)).

(** The canonical nodes of [us], registered from number [k] on, in the
    order of registration. *)
Fixpoint registered_nodes (E : Externals) (ps : list Participant) (k : nat)
         (us : list User) : list Element :=
  match us with
  | [] => []
  | u :: r => user_node E ps k u :: registered_nodes E ps (S k) r
  end.

Definition dependency_id (e : Element) : option string :=
  attrib_get e tp_dependency.

(** The nodes of the dependencies block come in the order of
    registration. *)
Definition block_in_registration_order (E : Externals) (db : Store) (w : Writer) : Prop :=
  forall tr, run E db w = (tr, None) ->
             block_nodes (chunks tr)
             = registered_nodes E (participants w) 1 (all_users db).

(** A generator whose output ends with the dependencies block of the
    table its body [entries] leaves behind, and the closing tag. *)
Definition ends_with_dependencies (entries whole : Gen unit) (w : Writer) : Prop :=
  forall tr w', whole w = (tr, Ok (tt, w')) ->
    exists pre w1,
      entries w = (pre, Ok (tt, w1))
      /\ chunks tr = chunks pre ++ dependencies_block (_dependencies w1)
                      ++ [ Text XML_EPILOG ]
      /\ Permutation (dict_values (_dependencies w1))
                     (map snd (Py.entries (_dependencies w1))).

(** The [updated] value of the feed, as the preamble carries it. *)
Definition feed_updated (cs : list Chunk) : option string :=
  match cs with
  | XmlPreamble p :: _ => Some (x_updated p)
  | _ => None
  end.

(** The Atom ids of the entries an output carries. *)
Definition entry_ids (cs : list Chunk) : list (option string) :=
  flat_map (fun c => match c with
                     | Node e => if String.eqb (tag e) (qname ATOM_NS "entry")
                                 then [findtext e (qname ATOM_NS "id")] else []
                     | _ => []
                     end) cs.

(** One post, no page, the pages plugin loaded. *)
Definition one_post_no_page : Store :=
  {| all_posts := [Reference.post_P1 []];
     all_users := [Reference.user_A];
     pages_query := Some [] |}.

(** Three users and nothing else. *)
Definition three_users : Store :=
  {| all_posts := [];
     all_users := [Reference.user_A; Reference.user_B; Reference.user_C];
     pages_query := Some [] |}.

(** A registration step: it takes the next identifier, enters the
    user's canonical node under it and yields nothing. *)
Definition registers (E : Externals) (reg : User -> Gen unit) : Prop :=
  forall (u : User) (w : Writer),
    let k := (dict_len (_dependencies w) + 1)%nat in
    exists w',
      reg u w = ([], Ok (tt, w'))
      /\ participants w' = participants w
      /\ _dependencies w'
         = dict_set (hex k) (user_node E (participants w) k u)
             (dict_set (hex k)
                (mkElement (qname TEXTPRESS_NS "user") [(tp_dependency, hex k)] None [])
                (_dependencies w)).

(** The writer a run leaves behind ([w] when it raised). *)
Definition final_writer (r : list Event * Result (unit * Writer)) (w : Writer) : Writer :=
  match snd r with Ok (_, w') => w' | Raise _ => w end.

(** A generator body that leaves the table and the participants as
    they are. *)
Definition keeps {A} (m : Gen A) : Prop :=
  forall w tr a w', m w = (tr, Ok (a, w')) ->
    _dependencies w' = _dependencies w /\ participants w' = participants w.

(** A participant that defines [setup] and leaves the nodes alone. *)
Definition participant_with_setup : Participant :=
  {| defines_setup := true;
     dump_data := None;
     process_post := fun node _ => node;
     process_user := fun node _ => node |}.

(** A generator body that calls no [setup]. *)
Definition quiet {A} (m : Gen A) : Prop :=
  forall w tr r, m w = (tr, r) -> forall i, ~ In (Setup i) tr.

End Statements.

Module ImporterStatements.
Import Py ET Importer.

(** [m] raises from the state [s]. *)
Definition raises {A} (m : P A) (s : Parser) : Prop := exists e, m s = Raise e.

(** [m] keeps the invariant [I] when it returns. *)
Definition preserves {A} (I : Parser -> Prop) (m : P A) : Prop :=
  forall s a s', I s -> m s = Ok (a, s') -> I s'.

(** The number of extensions of a parser. *)
Definition extension_count (n : nat) (s : Parser) : Prop :=
  List.length (extensions s) = n.

(** The number of extensions the parser of an Atom feed is built with. *)
Definition registered (app : App) : nat :=
  List.length (filter (fun c => existsb (String.eqb "atom") (feed_types c))
                      (feed_importer_extensions app)).

(** The part of the parser the comments of a post never touch when
    they name their authors inline. *)
Definition frame (s : Parser) :=
  (posts s, authors s, author_heap s,
   map _authors (extensions s), map _dependencies (extensions s)).

(** Two parsers that differ in the heap of comments only. *)
Definition same_but_comments (s s' : Parser) : Prop :=
  exists h, s' = set_comment_heap h s.

(** An element whose author carries no attribute called [dependency]. *)
Definition inline_author (element : Element) : Prop :=
  forall a, find element (textpress "author") = Some a ->
            attrib_get a "dependency" = None.

(** What referring to the dependency [id] does to the frame. *)
Definition referenced (id : string) (r : ref) (s s' : Parser) : Prop :=
  let c := nth 0 (map _authors (extensions s)) dict_empty in
  (dict_get id c = Some r /\ frame s' = frame s)
  \/ (dict_get id c = None
      /\ exists element rest au,
          _lookup_user (nth 0 (map _dependencies (extensions s)) None) (ById id)
          = Ok (element :: rest)
          /\ a_username au = findtext element (textpress "username")
          /\ r = List.length (author_heap s)
          /\ frame s' = (posts s, authors s ++ [r], author_heap s ++ [au],
                         replace_nth 0 (dict_set id r c) (map _authors (extensions s)),
                         map _dependencies (extensions s))).

(** ** Comments and their parents *)







(** ** Example documents *)

(** Two users, the post P1 of the first with the comments [cs] and
    the category term "news", the post P2 of the first. *)
Definition blog_store (cs : list Exporter.Comment) (pages : option (list Exporter.Page))
  : Exporter.Store :=
  {| Exporter.all_posts := [Reference.post_P1 cs; Reference.post_P2];
     Exporter.all_users := [Reference.user_A; Reference.user_B];
     Exporter.pages_query := pages |}.

(** What the exporter writes for that store and one page. *)
Definition exported (cs : list Exporter.Comment) : Element :=
  Wire.exported_document
    (Exporter.run Reference.exporter_externals
                  (blog_store cs (Some [Reference.page_G])) Reference.writer).

Definition no_element : Element := mkElement "" [] None [].

Definition first_entry (tree : Element) : Element :=
  nth 0 (findall tree (atom "entry")) no_element.

Definition first_comment (tree : Element) : Element :=
  nth 0 (findall (first_entry tree) (textpress "comment")) no_element.

Definition rss_document : Element := mkElement "rss" [("version", "2.0")] None [].

(** A comment whose author refers to the dependency 1:
    [<tp:author tp:dependency="1"/>]. *)
Definition referencing_comment : Element :=
  mkElement (textpress "comment") [] None
    [ mkElement (textpress "id") [] (Some "1") [];
      mkElement (textpress "author") [(textpress "dependency", "1")] None [];
      mkElement (textpress "published") [] (Some "2009-02-02T10:00:00Z") [];
      mkElement (textpress "is_pingback") [] (Some "no") [];
      mkElement (textpress "status") [] (Some "0") [];
      mkElement (textpress "data") []
                (Some (Reference.encode_items [("raw_body", PStr "hello")])) [] ].

(** The Atom parser of [tree] with the one extension of this plugin. *)
Definition fresh_parser (tree : Element) : Parser :=
  mkParser tree [] [] [] [] [TPZEAExtension_init tree]
           dict_empty dict_empty dict_empty [] [].

(** The parser a step leaves behind ([s] when it raised). *)
Definition state_after {A} (r : Result (A * Parser)) (s : Parser) : Parser :=
  match r with Ok (_, s') => s' | Raise _ => s end.

Definition loop_after (r : Result (CommentLoop * Parser)) (l : CommentLoop) : CommentLoop :=
  match r with Ok (l', _) => l' | Raise _ => l end.

Definition decoded_reference : Result (CommentLoop * Parser) :=
  parse_comment Reference.importer_externals Reference.zine 0
                (mkLoop dict_empty [] None) referencing_comment
                (fresh_parser (exported [])).


(** The writer after the two users were registered. *)
Definition two_registered : Exporter.Writer :=
  Statements.final_writer
    (Exporter.for_each [Reference.user_A; Reference.user_B]
                       (Exporter._register_user Reference.exporter_externals)
                       Reference.writer)
    Reference.writer.

Definition entry_of (r : Result Element) : Element :=
  match r with Ok e => e | Raise _ => no_element end.

Definition preamble : Exporter.Preamble :=
  {| Exporter.x_version := "0.1"; Exporter.x_title := "My Blog";
     Exporter.x_subtitle := "just a blog";
     Exporter.x_id := "tag:example.org,2009:tpxa_export/full";
     Exporter.x_blog_url := "http://example.org/";
     Exporter.x_updated := "2009-02-03T09:30:00Z" |}.


End ImporterStatements.

(* ================================================================== *)
(** * The command line of the exporter: main                           *)
(* ================================================================== *)

Module Cli.
Import Py ET Exporter.

(** What [parser.parse_args()] returns for the four options of [main]:
    [-i] is [None] when it is not given, the two flags default to
    [False], and [-k], an [append] option without a default, is [None]
    until it is passed once. *)
Record Options : Type :=
  mkOptions
  { o_instance : option string;
    o_tags_to_categories : bool;
    o_with_descriptions_to_categories : bool;
    o_keep_as_tag : option (list string) }.

(** What [make_textpress(instance_folder, True)] gives the exporter: the
    application, what its database answers, and the participants its
    plugins hand out on [get-tpxa-participants]. *)
Record Installation : Type :=
  { application : App;
    store : Store;
    tpxa_participants : list Participant }.

(** [title.replace(' ', '_')] *)
Fixpoint underscored (s : string) : string :=
  match s with
  | EmptyString => EmptyString
  | String c r => String (if Ascii.eqb c " "%char then "_"%char else c) (underscored r)
  end.

(** [title and title.replace(' ', '_') + '_export.tpxa' or 'blog_export.tpxa'] *)
Definition export_filename (title : string) : string :=
  match title with
  | EmptyString => "blog_export.tpxa"
  | _ => underscored title ++ "_export.tpxa"
  end.

(** [main]: the name of the file it opens and what the generator writes
    into it; [parser.error] leaves through [SystemExit]. *)
Definition main (E : Externals) (make_textpress : string -> Installation)
           (options : Options) : Result (string * (list Event * option Exn)) :=
  if negb (truthy (o_instance options)) then Raise (ExternalError "SystemExit")
  else if o_tags_to_categories options && o_with_descriptions_to_categories options
  then Raise (ExternalError "SystemExit")
  else
    let inst := make_textpress (or_else (o_instance options) "") in
    let exporter := Writer_init (application inst)
                                (o_with_descriptions_to_categories options)
                                (o_tags_to_categories options)
                                (o_keep_as_tag options)
                                (tpxa_participants inst) in
    Ok (export_filename (blog_title (application inst)), run E (store inst) exporter).

End Cli.

(* ================================================================== *)
(** * Vocabulary of the further statements                             *)
(* ================================================================== *)

Module ExportStatements.
Import Py ET Exporter Statements.

(** An event that hands a node to the consumer, or a call of [setup]. *)
Definition node_event (e : Event) : Prop :=
  match e with
  | Yield (Node _) => True
  | Setup _ => True
  | _ => False
  end.

(** A generator body that yields nothing but nodes. *)
Definition yields_nodes {A} (m : Gen A) : Prop :=
  forall w tr r, m w = (tr, r) -> Forall node_event tr.


(** [m] ends in an exception from [w]. *)
Definition fails {A} (m : Gen A) (w : Writer) : Prop :=
  exists tr e, m w = (tr, Raise e).

(** [m] keeps [I] when it returns. *)
Definition gkeeps {A} (I : Writer -> Prop) (m : Gen A) : Prop :=
  forall w tr a w', I w -> m w = (tr, Ok (a, w')) -> I w'.

(** The tag is one the options turn into a category, unless it is kept. *)
Definition category_candidate (options : Cli.Options) (t : Tag) : bool :=
  (truthy (t_description t) && Cli.o_with_descriptions_to_categories options)
  || Cli.o_tags_to_categories options.

(** The options of the writer are those of the command line. *)
Definition options_of (o : Cli.Options) (w : Writer) : Prop :=
  keep_as_tags w = Cli.o_keep_as_tag o
  /\ tags_to_categories w = Cli.o_tags_to_categories o
  /\ description_to_category w = Cli.o_with_descriptions_to_categories o.

(** No user the writer has seen is a manager. *)
Definition no_manager (w : Writer) : Prop :=
  forall k u, In (k, u) (dict_items (db_users w)) -> is_manager u = false.

(** The writer exports the application [a] and has seen no manager. *)
Definition no_manager_of (a : App) (w : Writer) : Prop :=
  no_manager w /\ app w = a.

(** ** Example installations *)

(** [-i blog -t]: every tag becomes a category, and no [-k]. *)
Definition all_tags_to_categories : Cli.Options :=
  Cli.mkOptions (Some "blog") true false None.

(** The post P2 without tags is the newest, the tagged post P1 follows;
    one page. *)
Definition tagged_post_second : Store :=
  {| all_posts := [Reference.post_P2; Reference.post_P1 []];
     all_users := [Reference.user_A; Reference.user_B];
     pages_query := Some [Reference.page_G] |}.

Definition installation (folder : string) : Cli.Installation :=
  {| Cli.application := Reference.textpress;
     Cli.store := tagged_post_second;
     Cli.tpxa_participants := [] |}.

(** Two users, neither of them a manager, and one page. *)
Definition page_without_manager : Store :=
  {| all_posts := [];
     all_users := [Reference.user_B; Reference.user_C];
     pages_query := Some [Reference.page_G] |}.


End ExportStatements.

Module DecodingStatements.
Import Py ET Statements Importer ImporterStatements.


(** The parser has collected no tag. *)
Definition no_tags (s : Parser) : Prop := tags s = [].

(** The categories of the parser have distinct terms, and each of them
    is entered under its term. *)
Definition distinct_terms (s : Parser) : Prop :=
  NoDup (map cat_slug (categories s))
  /\ forall c, In c (categories s) ->
               dict_get (cat_slug c) (_categories_by_term s) <> None.

(** The category element carries one of the two schemes of the
    exporter. *)
Definition tpxa_scheme (e : Element) : Prop :=
  attrib_get e "scheme" = Some TEXTPRESS_TAG_URI
  \/ attrib_get e "scheme" = Some TEXTPRESS_CATEGORY_URI.

(** Every category element of every entry carries one of them. *)
Definition only_tpxa_categories (tree : Element) : Prop :=
  forall entry c, In entry (findall tree (atom "entry")) ->
                  In c (findall entry (atom "category")) -> tpxa_scheme c.

(** The parser lists no category and has [n] extensions. *)
Definition unlisted (n : nat) (s : Parser) : Prop :=
  categories s = [] /\ extension_count n s.

(** The content type an entry declares: the text of [tp:content_type],
    ["entry"] without one. *)
Definition declared_content_type (entry : Element) : string :=
  match findtext entry (textpress "content_type") with
  | Some t => t
  | None => "entry"
  end.

(** The dependency [id] is defined in the block [deps]. *)
Definition defined_in (deps : option Element) (id : string) : Prop :=
  exists el rest, _lookup_user deps (ById id) = Ok (el :: rest).

(** Every extension looks into the block of [tree], and caches authors
    under defined dependencies only. *)
Definition sound_caches (tree : Element) (s : Parser) : Prop :=
  forall x, In x (extensions s) ->
            _dependencies x = find tree (textpress "dependencies")
            /\ forall id r, dict_get id (_authors x) = Some r ->
                            defined_in (_dependencies x) id.

Definition sound_and_counted (tree : Element) (n : nat) (s : Parser) : Prop :=
  sound_caches tree s /\ extension_count n s.















(** ** Example documents *)

(** The third entry of a feed. *)
Definition third_entry (tree : Element) : Element :=
  nth 2 (findall tree (atom "entry")) no_element.

(** A comment without [tp:data]. *)
Definition bare_comment : Element :=
  mkElement (textpress "comment") [] None
    [ mkElement (textpress "id") [] (Some "1") [];
      mkElement (textpress "author") [] None
        [ mkElement (textpress "name") [] (Some "visitor") [] ];
      mkElement (textpress "published") [] (Some "2009-02-02T10:00:00Z") [];
      mkElement (textpress "is_pingback") [] (Some "no") [];
      mkElement (textpress "status") [] (Some "0") [] ].

(** The entry of P1 with the further children [cs]. *)
Definition commented_entry (cs : list Element) : Element :=
  let e := entry_of (Exporter._dump_post Reference.exporter_externals two_registered
                                         (Reference.post_P1 [])) in
  mkElement (tag e) (attrib e) (text e) (children e ++ cs).

(** A feed whose only entry has the one comment [bare_comment]. *)
Definition bare_comment_document : Element :=
  Wire.feed_document preamble [commented_entry [bare_comment]]
    (Some (dict_values (Exporter._dependencies two_registered))).

(** The entry of P1, whose author refers to the dependency 1, in a feed
    without a dependencies block. *)
Definition undeclared_author_document : Element :=
  Wire.feed_document preamble
    [ entry_of (Exporter._dump_post Reference.exporter_externals two_registered
                                    (Reference.post_P1 [])) ]
    None.

(** An [atom:category] without a scheme. *)
Definition plain_category (term : string) : Element :=
  mkElement (atom "category") [("term", term)] None [].

(** A feed whose only entry carries, besides the category "news" of the
    exporter, the plain categories x, x and y. *)
Definition plain_categories_document : Element :=
  Wire.feed_document preamble
    [commented_entry [plain_category "x"; plain_category "x"; plain_category "y"]]
    (Some (dict_values (Exporter._dependencies two_registered))).


End DecodingStatements.

(* ================================================================== *)
(** * Facts about the runtime                                          *)
(* ================================================================== *)

Module PyFacts.
Import Py.

Section DictFacts.
Context {K V : Type} {HK : Hashable K}.
Implicit Types (t : table K V) (x : K * V) (l es : list (K * V)).

Lemma key_eqb_refl (k : K) : key_eqb k k = true.
Proof. apply key_eqb_spec. reflexivity. Qed.

Lemma key_eqb_neq (a b : K) : a <> b -> key_eqb a b = false.
Proof.
  intros Hne. destruct (key_eqb a b) eqn:Heq; [|reflexivity].
  apply key_eqb_spec in Heq. contradiction.
Qed.

(** *** Reading and writing *)

Lemma assoc_set_same (k : K) (v : V) l : assoc k (assoc_set k v l) = Some v.
Proof.
  induction l as [|[k' v'] r IH]; simpl.
  - now rewrite key_eqb_refl.
  - destruct (key_eqb k k') eqn:Heq; simpl; rewrite Heq; auto.
Qed.

Lemma assoc_set_other (k k' : K) (v : V) l :
  k <> k' -> assoc k (assoc_set k' v l) = assoc k l.
Proof.
  intros Hne. induction l as [|[k2 v2] r IH]; simpl.
  - now rewrite key_eqb_neq.
  - destruct (key_eqb k' k2) eqn:Heq; simpl.
    + apply key_eqb_spec in Heq. subst k2.
      now rewrite key_eqb_neq.
    + now rewrite IH.
Qed.

Lemma assoc_in_keys (k : K) l : assoc k l <> None -> In k (map fst l).
Proof.
  induction l as [|[k' v'] r IH]; simpl; [congruence|].
  destruct (key_eqb k k') eqn:Heq.
  - apply key_eqb_spec in Heq. auto.
  - auto.
Qed.

Lemma assoc_not_in (k : K) l : ~ In k (map fst l) -> assoc k l = None.
Proof.
  intros Hn. destruct (assoc k l) eqn:Ha; [|reflexivity].
  exfalso. apply Hn, assoc_in_keys. congruence.
Qed.

Lemma assoc_set_fresh (k : K) (v : V) l :
  ~ In k (map fst l) -> assoc_set k v l = l ++ [(k, v)].
Proof.
  induction l as [|[k' v'] r IH]; simpl; intros Hn; [reflexivity|].
  rewrite key_eqb_neq by (intros ->; apply Hn; auto).
  rewrite IH; auto.
Qed.

Lemma assoc_set_last (k : K) (v v' : V) l :
  ~ In k (map fst l) -> assoc_set k v' (l ++ [(k, v)]) = l ++ [(k, v')].
Proof.
  induction l as [|[k2 v2] r IH]; simpl; intros Hn.
  - now rewrite key_eqb_refl.
  - rewrite key_eqb_neq by (intros ->; apply Hn; auto).
    rewrite IH; auto.
Qed.

Lemma assoc_app_fresh (k : K) (v : V) l :
  ~ In k (map fst l) -> assoc k (l ++ [(k, v)]) = Some v.
Proof.
  intros Hn. rewrite <- (assoc_set_fresh k v l Hn). apply assoc_set_same.
Qed.



(** *** The layout of the table holds every entry once *)

Lemma put_items t n x :
  Permutation (table_items (put t n x)) (x :: table_items t).
Proof.
  revert n. induction t as [|s r IH]; intros n; simpl.
  - reflexivity.
  - destruct n as [|m].
    + destruct s as [y|]; simpl.
      * rewrite (IH O). apply perm_swap.
      * reflexivity.
    + destruct s as [y|]; simpl.
      * rewrite (IH m). apply perm_swap.
      * apply IH.
Qed.

Lemma insert_clean_items t x :
  Permutation (table_items (insert_clean t x)) (x :: table_items t).
Proof. apply put_items. Qed.

Lemma fold_insert_clean_items l t :
  Permutation (table_items (fold_left insert_clean l t)) (l ++ table_items t).
Proof.
  revert t. induction l as [|x r IH]; intros t; simpl.
  - reflexivity.
  - rewrite IH, insert_clean_items. symmetry. apply Permutation_middle.
Qed.

Lemma table_items_blank n : table_items (repeat (@None (K * V)) n) = [].
Proof. induction n; simpl; auto. Qed.

Lemma dictresize_items t :
  Permutation (table_items (dictresize t)) (table_items t).
Proof.
  unfold dictresize. rewrite fold_insert_clean_items, table_items_blank.
  now rewrite app_nil_r.
Qed.

Lemma insertdict_items t x :
  Permutation (table_items (insertdict t x)) (x :: table_items t).
Proof.
  unfold insertdict.
  destruct (_ <=? _)%nat.
  - rewrite dictresize_items. apply insert_clean_items.
  - apply insert_clean_items.
Qed.

Lemma fold_insertdict_items l t :
  Permutation (table_items (fold_left insertdict l t)) (l ++ table_items t).
Proof.
  revert t. induction l as [|x r IH]; intros t; simpl.
  - reflexivity.
  - rewrite IH, insertdict_items. symmetry. apply Permutation_middle.
Qed.

Lemma layout_permutation es : Permutation (layout es) es.
Proof.
  unfold layout. rewrite fold_insertdict_items, table_items_blank.
  now rewrite app_nil_r.
Qed.

Lemma dict_values_permutation (d : dict K V) :
  Permutation (dict_values d) (map snd (entries d)).
Proof. apply Permutation_map, layout_permutation. Qed.

Lemma dict_items_in (d : dict K V) x : In x (dict_items d) <-> In x (entries d).
Proof.
  split; apply Permutation_in;
    [apply layout_permutation | apply Permutation_sym, layout_permutation].
Qed.

End DictFacts.

(** *** Identifiers *)

Lemma hex_injective (n m : nat) : hex n = hex m -> n = m.
Proof.
  unfold hex. intros H.
  apply HexadecimalNat.Unsigned.to_uint_inj.
  assert (Hnil : forall k, Nat.to_hex_uint k <> Hexadecimal.Nil).
  { intros k Hk.
    pose proof (HexadecimalNat.Unsigned.of_to k) as Hof.
    rewrite Hk in Hof. simpl in Hof. subst k. discriminate Hk. }
  pose proof (HexadecimalString.NilZero.usu _ (Hnil n)) as Hn.
  pose proof (HexadecimalString.NilZero.usu _ (Hnil m)) as Hm.
  rewrite H in Hn. congruence.
Qed.

Lemma int_of_str_empty : int_of_str "" = Raise ValueError.
Proof. reflexivity. Qed.

End PyFacts.

(* ================================================================== *)
(** * Facts about the exporters                                        *)
(* ================================================================== *)

Module ExporterFacts.
Import Py ET Exporter Statements PyFacts.

(** ** The generator monad *)

Lemma gbind_ok {A B} (m : Gen A) (k : A -> Gen B) w tr b w' :
  gbind m k w = (tr, Ok (b, w')) ->
  exists tr1 a w1 tr2,
    m w = (tr1, Ok (a, w1)) /\ k a w1 = (tr2, Ok (b, w')) /\ tr = tr1 ++ tr2.
Proof.
  unfold gbind. destruct (m w) as [tr1 [[a w1]|e]].
  - destruct (k a w1) as [tr2 r] eqn:Hk. intros [= <- ->].
    exists tr1, a, w1, tr2. auto.
  - intros [= _ H].
Qed.

Lemma chunks_app (a b : list Event) : chunks (a ++ b) = chunks a ++ chunks b.
Proof. unfold chunks. now rewrite flat_map_app. Qed.

Lemma chunks_yields (cs : list Chunk) : chunks (map Yield cs) = cs.
Proof. induction cs; simpl; congruence. Qed.

Lemma for_each_yield_nodes (l : list Element) (w : Writer) :
  for_each l (fun node => yield (Node node)) w
  = (map Yield (map Node l), Ok (tt, w)).
Proof.
  induction l as [|n r IH]; simpl; [reflexivity|].
  unfold gbind, yield at 1. now rewrite IH.
Qed.

Lemma dump_dependencies_run (w : Writer) :
  dump_dependencies w
  = (map Yield (dependencies_block (_dependencies w)), Ok (tt, w)).
Proof.
  unfold dump_dependencies, dependencies_block, gbind, self.
  destruct (dict_len (_dependencies w)); [reflexivity|].
  unfold yield at 1. rewrite for_each_yield_nodes. unfold yield.
  simpl. now rewrite map_app.
Qed.

Lemma generate_ends_with_dependencies (body : Gen unit) (w : Writer) :
  ends_with_dependencies body
    (gbind body (fun _ => gbind dump_dependencies
                                (fun _ => yield (Text XML_EPILOG)))) w.
Proof.
  intros tr w' H.
  apply gbind_ok in H. destruct H as (pre & [] & w1 & tr2 & Hpre & H & ->).
  apply gbind_ok in H. destruct H as (blk & [] & w2 & tr3 & Hblk & H & ->).
  rewrite dump_dependencies_run in Hblk. injection Hblk as <- <-.
  unfold yield in H. injection H as <- <-.
  exists pre, w1. split; [exact Hpre|]. split.
  - now rewrite !chunks_app, chunks_yields.
  - apply dict_values_permutation.
Qed.

(** ** What a body leaves untouched *)

Lemma keeps_gret {A} (a : A) : keeps (gret a).
Proof. intros w tr a0 w' H. inversion H; subst; auto. Qed.

Lemma keeps_gbind {A B} (m : Gen A) (k : A -> Gen B) :
  keeps m -> (forall a, keeps (k a)) -> keeps (gbind m k).
Proof.
  intros Hm Hk w tr b w' H.
  apply gbind_ok in H. destruct H as (tr1 & a & w1 & tr2 & H1 & H2 & _).
  apply Hm in H1. apply Hk in H2. destruct H1, H2. split; congruence.
Qed.

Lemma keeps_yield (c : Chunk) : keeps (yield c).
Proof. intros w tr a w' H. inversion H; subst; auto. Qed.

Lemma keeps_log (e : Event) : keeps (log e).
Proof. intros w tr a w' H. inversion H; subst; auto. Qed.

Lemma keeps_graise {A} (e : Exn) : keeps (@graise A e).
Proof. intros w tr a w' [=]. Qed.

Lemma keeps_glift {A} (r : Result A) : keeps (glift r).
Proof.
  intros w tr a w'. unfold glift.
  destruct r; intros H; inversion H; subst; auto.
Qed.

Lemma keeps_self : keeps self.
Proof. intros w tr a w' H. inversion H; subst; auto. Qed.

Lemma keeps_read_clock (E : Externals) : keeps (read_clock E).
Proof. intros w tr a w' H. inversion H; subst; auto. Qed.

Lemma keeps_for_each {A} (l : list A) (body : A -> Gen unit) :
  (forall x, keeps (body x)) -> keeps (for_each l body).
Proof.
  intros Hb. induction l as [|x r IH]; simpl.
  - apply keeps_gret.
  - apply keeps_gbind; auto.
Qed.

Lemma keeps_for_each_indexed {A} (l : list A) (body : nat -> A -> Gen unit) :
  (forall i x, keeps (body i x)) -> forall i, keeps (for_each_indexed i l body).
Proof.
  intros Hb. induction l as [|x r IH]; intros i; simpl.
  - apply keeps_gret.
  - apply keeps_gbind; auto.
Qed.

Create HintDb keeps.
#[local] Hint Resolve keeps_gret keeps_yield keeps_log keeps_graise keeps_glift
  keeps_self keeps_read_clock : keeps.

Ltac keeps_step :=
  match goal with
  | |- keeps (gbind _ _) => apply keeps_gbind; [|intros ?]
  | |- keeps (for_each _ _) => apply keeps_for_each; intros ?
  | |- keeps (for_each_indexed _ _ _) => apply keeps_for_each_indexed; intros ? ?
  | |- keeps (match ?x with _ => _ end) => destruct x
  | |- keeps (if ?x then _ else _) => destruct x
  | |- keeps _ => solve [auto with keeps]
  end.

Lemma keeps_dump_page (E : Externals) (page : Page) : keeps (_dump_page E page).
Proof. unfold _dump_page. repeat keeps_step. Qed.

#[local] Hint Resolve keeps_dump_page : keeps.

Ltac use_keeps H :=
  match type of H with
  | ?m _ = _ =>
      let K := fresh "K" in
      assert (K : keeps m) by (repeat keeps_step);
      apply K in H; clear K
  end.

(** ** Registration *)

Lemma register_user_registers (E : Externals) : registers E (Exporter._register_user E).
Proof.
  intros u w k. eexists. split; [|split].
  - unfold _register_user, new_dependency, alias_dependency, gbind, self, update, gret.
    cbn. reflexivity.
  - reflexivity.
  - cbn. fold k. unfold user_node. cbn. generalize (hex k) as id.
    intros id. destruct id; reflexivity.
Qed.

Lemma legacy_register_user_registers (E : Externals) :
  registers E (LegacyExporter._register_user E).
Proof.
  intros u w k. eexists. split; [|split].
  - unfold LegacyExporter._register_user, LegacyExporter.new_dependency,
      new_dependency, alias_dependency, gbind, self, update, gret.
    cbn. reflexivity.
  - reflexivity.
  - cbn. fold k. unfold user_node. cbn. generalize (hex k) as id.
    intros id. destruct id; reflexivity.
Qed.

Lemma registered_keys_fresh (n : nat) :
  ~ In (hex (S n)) (map hex (seq 1 n)).
Proof.
  intros Hin. apply in_map_iff in Hin. destruct Hin as (m & Hm & Hin).
  apply hex_injective in Hm. apply in_seq in Hin. lia.
Qed.

Lemma register_users_spec (E : Externals) (reg : User -> Gen unit) (us : list User) :
  registers E reg ->
  forall (w : Writer) (n : nat),
    map fst (entries (_dependencies w)) = map hex (seq 1 n) ->
    exists w',
      for_each us reg w = ([], Ok (tt, w'))
      /\ participants w' = participants w
      /\ entries (_dependencies w')
         = entries (_dependencies w)
           ++ combine (map hex (seq (S n) (List.length us)))
                      (registered_nodes E (participants w) (S n) us).
Proof.
  intros Hreg. induction us as [|u r IH]; intros w n Hkeys.
  - exists w. simpl. rewrite app_nil_r. auto.
  - destruct (Hreg u w) as (w1 & Hrun & Hps & Hdeps).
    assert (Hlen : (dict_len (_dependencies w) + 1 = S n)%nat).
    { unfold dict_len. rewrite <- (length_map fst), Hkeys, length_map, length_seq. lia. }
    rewrite Hlen in Hdeps.
    assert (Hent : entries (_dependencies w1)
                   = entries (_dependencies w)
                     ++ [(hex (S n), user_node E (participants w) (S n) u)]).
    { rewrite Hdeps. simpl.
      rewrite (assoc_set_fresh (hex (S n)) _ (entries (_dependencies w)))
        by (rewrite Hkeys; apply registered_keys_fresh).
      apply assoc_set_last. rewrite Hkeys. apply registered_keys_fresh. }
    destruct (IH w1 (S n)) as (w' & Hrun' & Hps' & Hdeps').
    { rewrite Hent, map_app, Hkeys, (seq_S n 1), map_app. reflexivity. }
    exists w'. split; [|split].
    + simpl. unfold gbind. now rewrite Hrun, Hrun'.
    + congruence.
    + rewrite Hdeps', Hent, Hps, <- app_assoc. reflexivity.
Qed.

Lemma combine_registered (E : Externals) (ps : list Participant) (us : list User) :
  forall k, map snd (combine (map hex (seq k (List.length us)))
                             (registered_nodes E ps k us))
            = registered_nodes E ps k us.
Proof.
  induction us as [|u r IH]; intros k; simpl; [reflexivity|]. now rewrite IH.
Qed.

Lemma dump_entries_dependencies (E : Externals) (db : Store) (w : Writer) pre w1 :
  dump_entries E db w = (pre, Ok (tt, w1)) ->
  _dependencies w = dict_empty ->
  map snd (entries (_dependencies w1))
  = registered_nodes E (participants w) 1 (all_users db).
Proof.
  unfold dump_entries. intros H Hempty.
  apply gbind_ok in H. destruct H as (? & now & wa & ? & Ha & H & _).
  apply keeps_read_clock in Ha. destruct Ha as [Hda Hpa].
  apply gbind_ok in H. destruct H as (? & w0 & wb & ? & Hb & H & _).
  injection Hb as _ -> ->.
  apply gbind_ok in H. destruct H as (? & [[posts pages] last] & wc & ? & Hc & H & _).
  apply keeps_glift in Hc. destruct Hc as [Hdc Hpc].
  apply gbind_ok in H. destruct H as (? & ? & wd & ? & Hd & H & _).
  apply keeps_yield in Hd. destruct Hd as [Hdd Hpd].
  apply gbind_ok in H. destruct H as (? & ? & we & ? & He & H & _).
  use_keeps He. destruct He as [Hde Hpe].
  apply gbind_ok in H. destruct H as (? & ? & wf & ? & Hf & H & _).
  apply keeps_yield in Hf. destruct Hf as [Hdf Hpf].
  apply gbind_ok in H. destruct H as (? & ? & wg & ? & Hg & H & _).
  use_keeps Hg. destruct Hg as [Hdg Hpg].
  apply gbind_ok in H. destruct H as (? & ? & wh & ? & Hh & H & _).
  destruct (register_users_spec E _ (all_users db) (register_user_registers E) wg 0)
    as (wh' & Hreg & Hph & Hdh).
  { rewrite Hdg, Hdf, Hde, Hdd, Hdc, Hda, Hempty. reflexivity. }
  rewrite Hreg in Hh. injection Hh as _ Hw. subst wh.
  apply gbind_ok in H. destruct H as (? & ? & wi & ? & Hi & H & _).
  use_keeps Hi. destruct Hi as [Hdi Hpi].
  destruct pages as [pages|]; [|discriminate H].
  use_keeps H. destruct H as [Hdj Hpj].
  rewrite Hdj, Hdi, Hdh, Hdg, Hdf, Hde, Hdd, Hdc, Hda, Hempty. simpl.
  rewrite Hpg, Hpf, Hpe, Hpd, Hpc, Hpa.
  apply combine_registered.
Qed.

Lemma legacy_dump_entries_dependencies (E : Externals) (db : Store) (w : Writer) pre w1 :
  LegacyExporter.dump_entries E db w = (pre, Ok (tt, w1)) ->
  _dependencies w = dict_empty ->
  map snd (entries (_dependencies w1))
  = registered_nodes E (participants w) 1 (all_users db).
Proof.
  unfold LegacyExporter.dump_entries. intros H Hempty.
  apply gbind_ok in H. destruct H as (? & now & wa & ? & Ha & H & _).
  apply keeps_read_clock in Ha. destruct Ha as [Hda Hpa].
  apply gbind_ok in H. destruct H as (? & w0 & wb & ? & Hb & H & _).
  injection Hb as _ -> ->.
  destruct (LegacyExporter.first_items now (all_posts db)) as [posts last].
  apply gbind_ok in H. destruct H as (? & ? & wd & ? & Hd & H & _).
  apply keeps_yield in Hd. destruct Hd as [Hdd Hpd].
  apply gbind_ok in H. destruct H as (? & ? & we & ? & He & H & _).
  use_keeps He. destruct He as [Hde Hpe].
  apply gbind_ok in H. destruct H as (? & ? & wf & ? & Hf & H & _).
  apply keeps_yield in Hf. destruct Hf as [Hdf Hpf].
  apply gbind_ok in H. destruct H as (? & ? & wg & ? & Hg & H & _).
  use_keeps Hg. destruct Hg as [Hdg Hpg].
  apply gbind_ok in H. destruct H as (? & ? & wh & ? & Hh & H & _).
  destruct (register_users_spec E _ (all_users db) (legacy_register_user_registers E) wg 0)
    as (wh' & Hreg & Hph & Hdh).
  { rewrite Hdg, Hdf, Hde, Hdd, Hda, Hempty. reflexivity. }
  rewrite Hreg in Hh. injection Hh as _ Hw. subst wh.
  use_keeps H. destruct H as [Hdi Hpi].
  rewrite Hdi, Hdh, Hdg, Hdf, Hde, Hdd, Hda, Hempty. simpl.
  rewrite Hpg, Hpf, Hpe, Hpd, Hpa.
  apply combine_registered.
Qed.

(** ** The shape of an entry *)






Lemma filter_none {A} (f : A -> bool) (l : list A) :
  Forall (fun x => f x = false) l -> filter f l = [].
Proof. induction 1 as [|x r Hx _ IH]; simpl; [reflexivity|]. now rewrite Hx. Qed.



End ExporterFacts.

(* ================================================================== *)
(** * Facts about element trees                                        *)
(* ================================================================== *)

Module ETFacts.
Import Py ET PyFacts.

Lemma tag_reparse (e : Element) : tag (reparse e) = tag e.
Proof. destruct e; reflexivity. Qed.

Lemma children_reparse (e : Element) : children (reparse e) = map reparse (children e).
Proof. destruct e; reflexivity. Qed.

Lemma text_reparse (e : Element) : text (reparse e) = parsed_text (text e).
Proof. destruct e; reflexivity. Qed.


Lemma filter_map_commute {A B} (f : A -> B) (p : B -> bool) (l : list A) :
  filter p (map f l) = map f (filter (fun x => p (f x)) l).
Proof.
  induction l as [|x r IH]; simpl; [reflexivity|].
  destruct (p (f x)); simpl; congruence.
Qed.

Lemma findall_reparse (e : Element) (path : string) :
  findall (reparse e) path = map reparse (findall e path).
Proof.
  unfold findall. rewrite children_reparse, filter_map_commute.
  f_equal. apply filter_ext. intros c. now rewrite tag_reparse.
Qed.

Lemma find_reparse (e : Element) (path : string) :
  find (reparse e) path = option_map reparse (find e path).
Proof.
  unfold find. rewrite findall_reparse. now destruct (findall e path).
Qed.

Lemma findtext_reparse (e : Element) (path : string) :
  findtext (reparse e) path = findtext e path.
Proof.
  unfold findtext. rewrite find_reparse. destruct (find e path) as [el|]; simpl; [|reflexivity].
  rewrite text_reparse. destruct (text el) as [[|c r]|]; reflexivity.
Qed.


End ETFacts.

(* ================================================================== *)
(** * Facts about the importer                                         *)
(* ================================================================== *)

Module ImporterFacts.
Import Py ET PyFacts ETFacts Importer ImporterStatements.


Section Monad.
Context (I : Parser -> Prop).

Lemma pbind_ok {A B} (m : P A) (k : A -> P B) s b s' :
  pbind m k s = Ok (b, s') ->
  exists a s1, m s = Ok (a, s1) /\ k a s1 = Ok (b, s').
Proof.
  unfold pbind. destruct (m s) as [[a s1]|e]; [|discriminate].
  intros H. exists a, s1. auto.
Qed.

Lemma pbind_raises_left {A B} (m : P A) (k : A -> P B) s :
  raises m s -> raises (pbind m k) s.
Proof. intros [e He]. exists e. unfold pbind. now rewrite He. Qed.

Lemma pbind_raises {A B} (m : P A) (k : A -> P B) s :
  (forall a s1, m s = Ok (a, s1) -> raises (k a) s1) -> raises (pbind m k) s.
Proof.
  intros H. unfold raises, pbind. destruct (m s) as [[a s1]|e] eqn:Hm.
  - apply H. reflexivity.
  - eauto.
Qed.

Lemma preserves_pret {A} (a : A) : preserves I (pret a).
Proof. intros s a0 s' Hs [= _ <-]. exact Hs. Qed.

Lemma preserves_pbind {A B} (m : P A) (k : A -> P B) :
  preserves I m -> (forall a, preserves I (k a)) -> preserves I (pbind m k).
Proof.
  intros Hm Hk s b s' Hs H. apply pbind_ok in H. destruct H as (a & s1 & H1 & H2).
  eapply Hk; [|exact H2]. eapply Hm; eauto.
Qed.

Lemma preserves_plift {A} (r : Result A) : preserves I (plift r).
Proof. intros s a s' Hs. unfold plift. destruct r; intros [= _ <-]. exact Hs. Qed.

Lemma preserves_praise {A} (e : Exn) : preserves I (@praise A e).
Proof. intros s a s' _ [=]. Qed.

Lemma preserves_this : preserves I this.
Proof. intros s a s' Hs [= _ <-]. exact Hs. Qed.

Lemma preserves_modify (f : Parser -> Parser) :
  (forall s, I s -> I (f s)) -> preserves I (modify f).
Proof. intros Hf s a s' Hs H. inversion H; subst. auto. Qed.

Lemma preserves_pfor {A} (l : list A) (body : A -> P unit) :
  (forall x, preserves I (body x)) -> preserves I (pfor l body).
Proof.
  intros Hb. induction l as [|x r IH]; simpl.
  - apply preserves_pret.
  - apply preserves_pbind; auto.
Qed.

Lemma preserves_first_answer {A B} (l : list A) (ask : A -> P (option B)) :
  (forall x, preserves I (ask x)) -> preserves I (first_answer l ask).
Proof.
  intros Hb. induction l as [|x r IH]; simpl.
  - apply preserves_pret.
  - apply preserves_pbind; auto. intros [b|]; [apply preserves_pret|exact IH].
Qed.

(** A loop raises when, from every state of the invariant, the body
    raises at one of its elements. *)
Lemma pfor_raises {A} (l : list A) (body : A -> P unit) (x : A) :
  In x l ->
  (forall y, preserves I (body y)) ->
  (forall s, I s -> raises (body x) s) ->
  forall s, I s -> raises (pfor l body) s.
Proof.
  intros Hin Hpres Hx. induction l as [|y r IH]; [destruct Hin|].
  intros s Hs. simpl. destruct Hin as [->|Hin].
  - apply pbind_raises_left. auto.
  - apply pbind_raises. intros a s1 H1. apply IH; auto. eapply Hpres; eauto.
Qed.

End Monad.


Create HintDb pres.
#[local] Hint Resolve preserves_pret preserves_plift preserves_praise preserves_this : pres.

Ltac pres_step :=
  match goal with
  | |- preserves _ (pbind _ _) => apply preserves_pbind; [|intros ?]
  | |- preserves _ (pfor _ _) => apply preserves_pfor; intros ?
  | |- preserves _ (first_answer _ _) => apply preserves_first_answer; intros ?
  | |- preserves _ (let _ := _ in _) => cbv zeta
  | |- preserves _ (match ?x with _ => _ end) => destruct x
  | |- preserves _ (if ?x then _ else _) => destruct x
  | |- preserves _ _ => solve [auto with pres]
  end.

Lemma length_replace_nth {A} (n : nat) (x : A) (l : list A) :
  List.length (replace_nth n x l) = List.length l.
Proof.
  revert n. induction l as [|y r IH]; intros [|n]; simpl; auto.
Qed.

Section Count.
Context (E : Externals) (app : App) (n : nat).

Lemma count_modify (f : Parser -> Parser) :
  (forall s, extensions (f s) = extensions s) -> preserves (extension_count n) (modify f).
Proof.
  intros Hf. apply preserves_modify. intros s Hs. unfold extension_count.
  now rewrite Hf.
Qed.

Lemma count_extension (i : nat) : preserves (extension_count n) (extension i).
Proof. intros s a s' Hs H. inversion H; subst. exact Hs. Qed.

Lemma count_set_extension (i : nat) (x : TPZEAExtension) :
  preserves (extension_count n) (set_extension i x).
Proof.
  apply preserves_modify. intros s Hs. unfold extension_count. simpl.
  now rewrite length_replace_nth.
Qed.

Lemma count_new_author (a : Author) : preserves (extension_count n) (new_author a).
Proof. intros s r s' Hs H. inversion H; subst. exact Hs. Qed.

Lemma count_new_comment (c : Comment) : preserves (extension_count n) (new_comment c).
Proof. intros s r s' Hs H. inversion H; subst. exact Hs. Qed.

Lemma count_assign_parent (c p : ref) : preserves (extension_count n) (assign_parent c p).
Proof. apply count_modify. reflexivity. Qed.

#[local] Hint Resolve count_extension count_set_extension count_new_author
  count_new_comment count_assign_parent : pres.
#[local] Hint Extern 1 (preserves _ (modify _)) =>
  (apply count_modify; reflexivity) : pres.

Lemma count_get_author (i : nat) (d : Dependency) : preserves (extension_count n) (_get_author E app i d).
Proof. unfold _get_author. repeat pres_step. Qed.
#[local] Hint Resolve count_get_author : pres.

Lemma count_parse_tag (i : nat) (e : Element) : preserves (extension_count n) (_parse_tag i e).
Proof. unfold _parse_tag. repeat pres_step. Qed.

Lemma count_parse_category (i : nat) (e : Element) : preserves (extension_count n) (_parse_category i e).
Proof. unfold _parse_category. repeat pres_step. Qed.
#[local] Hint Resolve count_parse_tag count_parse_category : pres.

Lemma count_lookup_author (i : nat) (a e : Element) (u m : option string) :
  preserves (extension_count n) (lookup_author E app i a e u m).
Proof. unfold lookup_author. repeat pres_step. Qed.

Lemma count_tag_or_category (i : nat) (e : Element) :
  preserves (extension_count n) (tag_or_category i e).
Proof. unfold tag_or_category. repeat pres_step. Qed.
#[local] Hint Resolve count_lookup_author count_tag_or_category : pres.

Lemma count_parse_comment (i : nat) (l : CommentLoop) (e : Element) :
  preserves (extension_count n) (parse_comment E app i l e).
Proof. unfold parse_comment. repeat pres_step. Qed.
#[local] Hint Resolve count_parse_comment : pres.

Lemma count_parse_comment_elements (i : nat) (els : list Element) :
  forall l, preserves (extension_count n) (parse_comment_elements E app i l els).
Proof.
  induction els as [|x r IH]; intros l; simpl; repeat pres_step; try apply IH.
Qed.
#[local] Hint Resolve count_parse_comment_elements : pres.

Lemma count_link_parent (cs : dict Z ref) (link : ref * Z) :
  preserves (extension_count n) (link_parent cs link).
Proof. unfold link_parent. repeat pres_step. Qed.
#[local] Hint Resolve count_link_parent : pres.

Lemma count_TPZEA_parse_comments (i : nat) (post : Post) :
  preserves (extension_count n) (TPZEA_parse_comments E app i post).
Proof. unfold TPZEA_parse_comments. repeat pres_step. Qed.
#[local] Hint Resolve count_TPZEA_parse_comments : pres.

Lemma count_remember_author (a : ref) : preserves (extension_count n) (_remember_author a).
Proof. unfold _remember_author. repeat pres_step. Qed.
#[local] Hint Resolve count_remember_author : pres.

Lemma count_parse_author (entry : Element) : preserves (extension_count n) (parse_author E app entry).
Proof. unfold parse_author. repeat pres_step. Qed.

Lemma count_remember_category (c : Category) (e : Element) :
  preserves (extension_count n) (_remember_category c e).
Proof. unfold _remember_category. repeat pres_step. Qed.
#[local] Hint Resolve count_parse_author count_remember_category : pres.

Lemma count_parse_one_category (acc : list Tag * list Category) (e : Element) :
  preserves (extension_count n) (parse_one_category acc e).
Proof. unfold parse_one_category. repeat pres_step. Qed.
#[local] Hint Resolve count_parse_one_category : pres.

Lemma count_parse_category_elements (els : list Element) :
  forall acc, preserves (extension_count n) (parse_category_elements acc els).
Proof.
  induction els as [|x r IH]; intros acc; simpl; repeat pres_step; try apply IH.
Qed.

Lemma count_parse_categories (entry : Element) : preserves (extension_count n) (parse_categories entry).
Proof. apply count_parse_category_elements. Qed.
#[local] Hint Resolve count_parse_categories : pres.

Lemma count_extend_comments (l : list nat) :
  forall post, preserves (extension_count n) (extend_comments E app post l).
Proof.
  induction l as [|i r IH]; intros post; simpl; repeat pres_step; try apply IH.
Qed.
#[local] Hint Resolve count_extend_comments : pres.

Lemma count_parse_comments (post : Post) : preserves (extension_count n) (parse_comments E app post).
Proof. unfold parse_comments. repeat pres_step. Qed.
#[local] Hint Resolve count_parse_comments : pres.

Lemma count_parse_post (entry : Element) : preserves (extension_count n) (parse_post E app entry).
Proof. unfold parse_post. repeat pres_step. Qed.

End Count.

Section Raising.
Context (E : Externals) (app : App).

Ltac raise_or_go :=
  unfold raises;
  repeat (unfold pbind, plift, praise, pret;
          match goal with
          | |- exists e, Raise ?x = Raise e => exists x; reflexivity
          | |- exists e, match ?x with _ => _ end = Raise e => destruct x eqn:?
          | |- exists e, (let (_, _) := ?x in _) _ = Raise e => destruct x eqn:?
          | |- exists e, (let (_, _) := ?x in _) = Raise e => destruct x eqn:?
          | |- exists e, match ?x with _ => _ end _ = Raise e => destruct x eqn:?
          end; try discriminate).

Lemma parse_post_needs_data (entry : Element) (s : Parser) :
  findall entry (textpress "data") = [] -> raises (parse_post E app entry) s.
Proof.
  intros Hdata. unfold parse_post, first_data. rewrite Hdata.
  raise_or_go.
Qed.

Lemma parse_comment_bad_parent (i : nat) (l : CommentLoop) (element : Element)
      (p : string) (e0 : Exn) (s : Parser) :
  findtext element (textpress "parent") = Some p ->
  int_of_str p = Raise e0 ->
  raises (parse_comment E app i l element) s.
Proof.
  intros Hp Hbad. unfold parse_comment. rewrite Hp, Hbad.
  raise_or_go.
Qed.

Lemma parse_comment_elements_raises (i : nat) (els : list Element) (x : Element) :
  In x els ->
  (forall l s, raises (parse_comment E app i l x) s) ->
  forall l s, raises (parse_comment_elements E app i l els) s.
Proof.
  intros Hin Hx. induction els as [|y r IH]; [destruct Hin|].
  intros l s. simpl. destruct Hin as [->|Hin].
  - apply pbind_raises_left, Hx.
  - apply pbind_raises. intros l' s' _. apply IH, Hin.
Qed.

Lemma p_element_set_comments (v : list ref) (p : Post) :
  p_element (set_comments v p) = p_element p.
Proof. reflexivity. Qed.

(** A post whose element makes the extension's [parse_comments] raise
    cannot be parsed by a parser that has an extension. *)
Lemma parse_post_comments_raise (n : nat) (entry : Element) :
  (forall i post s, p_element post = entry ->
                    raises (TPZEA_parse_comments E app i post) s) ->
  forall s, extension_count (S n) s -> raises (parse_post E app entry) s.
Proof.
  intros Hbad s Hs. unfold parse_post.
  apply pbind_raises. intros updated s1 H1.
  assert (Hs1 : extension_count (S n) s1)
    by (eapply (preserves_plift (extension_count (S n))); eauto).
  apply pbind_raises. intros published s2 H2.
  assert (Hs2 : extension_count (S n) s2).
  { revert H2. destruct (findtext entry (atom "published")); intros H2.
    - eapply (preserves_plift (extension_count (S n))); eauto.
    - eapply (preserves_pret (extension_count (S n))); eauto. }
  apply pbind_raises. intros [tags cats] s3 H3.
  assert (Hs3 : extension_count (S n) s3)
    by (eapply count_parse_categories; eauto).
  cbv zeta.
  apply pbind_raises. intros data s4 H4.
  assert (Hs4 : extension_count (S n) s4)
    by (eapply (preserves_plift (extension_count (S n))); eauto).
  apply pbind_raises. intros pickled s5 H5.
  assert (Hs5 : extension_count (S n) s5)
    by (eapply (preserves_plift (extension_count (S n))); eauto).
  apply pbind_raises. intros parser s6 H6.
  assert (Hs6 : extension_count (S n) s6)
    by (eapply (preserves_plift (extension_count (S n))); eauto).
  apply pbind_raises. intros author s7 H7.
  assert (Hs7 : extension_count (S n) s7)
    by (eapply count_parse_author; eauto).
  apply pbind_raises_left.
  match goal with |- raises (parse_comments E app ?p) s7 =>
    change (raises (extend_comments E app p (indices s7)) s7) end.
  unfold indices. rewrite Hs7. simpl.
  apply pbind_raises_left. apply Hbad.
  destruct (known_content_type _); reflexivity.
Qed.

Lemma parse_raises_at_entry (n : nat) (entry : Element) (s : Parser) :
  In entry (findall (tree s) (atom "entry")) ->
  extension_count n s ->
  (forall s', extension_count n s' -> raises (parse_post E app entry) s') ->
  raises (parse E app) s.
Proof.
  intros Hin Hs Hbad.
  unfold parse. apply pbind_raises_left. unfold parse_entries.
  change (raises (pfor (findall (tree s) (atom "entry"))
                       (fun entry => pbind (parse_post E app entry)
                          (fun post => modify (fun s => set_posts (posts s ++ [post]) s)))) s).
  apply (pfor_raises (extension_count n)) with (x := entry); auto.
  - intros y. apply preserves_pbind; [apply count_parse_post|].
    intros post. apply count_modify. reflexivity.
  - intros s' Hs'. apply pbind_raises_left. auto.
Qed.

Lemma registered_positive : feed_importer_extensions app <> [] ->
  exists n, registered app = S n.
Proof.
  unfold registered. destruct (feed_importer_extensions app) as [|[] r]; [congruence|].
  intros _. simpl. eauto.
Qed.

Lemma parse_feed_atom (tree : Element) :
  tag tree = atom "feed" ->
  parse_feed E app tree
  = match AtomParser_init app tree with
    | Ok parser => match parse E app parser with
                   | Ok (blog, _) => Ok blog
                   | Raise e => Raise e
                   end
    | Raise e => Raise e
    end.
Proof.
  intros Ht. unfold parse_feed, select_parser. rewrite Ht.
  replace (atom "feed" =? "rss") with false by (vm_compute; reflexivity).
  rewrite String.eqb_refl. reflexivity.
Qed.

Lemma parse_feed_ok_atom (tree : Element) (blog : Blog) :
  parse_feed E app tree = Ok blog -> tag tree = atom "feed".
Proof.
  unfold parse_feed, select_parser.
  destruct (tag tree =? "rss") eqn:Hrss; [discriminate|].
  destruct (tag tree =? atom "feed") eqn:Hatom; [|discriminate].
  intros _. now apply String.eqb_eq.
Qed.

Lemma parse_feed_raises_at_entry (tree entry : Element) :
  tag tree = atom "feed" ->
  In entry (findall tree (atom "entry")) ->
  (forall s, extension_count (registered app) s -> raises (parse_post E app entry) s) ->
  exists e, parse_feed E app tree = Raise e.
Proof.
  intros Ht Hin Hbad. rewrite parse_feed_atom by exact Ht.
  unfold AtomParser_init.
  match goal with |- context [parse E app ?p0] =>
    destruct (parse_raises_at_entry (registered app) entry p0) as [e He] end.
  - exact Hin.
  - unfold extension_count, registered. simpl. now rewrite length_map.
  - exact Hbad.
  - exists e. now rewrite He.
Qed.


Lemma plift_ok {A} (r : Result A) (s s' : Parser) (a : A) :
  plift r s = Ok (a, s') -> r = Ok a /\ s' = s.
Proof. unfold plift. destruct r; intros H; inversion H; auto. Qed.






(** A parent field that is no number. *)
Lemma TPZEA_parse_comments_bad_parent (i : nat) (post : Post) (x : Element)
      (p : string) (e0 : Exn) (s : Parser) :
  In x (findall (p_element post) (textpress "comment")) ->
  findtext x (textpress "parent") = Some p ->
  int_of_str p = Raise e0 ->
  raises (TPZEA_parse_comments E app i post) s.
Proof.
  intros Hin Hp Hbad. unfold TPZEA_parse_comments.
  apply pbind_raises_left.
  apply parse_comment_elements_raises with (x := x); [exact Hin|].
  intros l s0. eapply parse_comment_bad_parent; eauto.
Qed.


End Raising.

Lemma map_replace_nth {A B} (f : A -> B) (i : nat) (x d : A) (l : list A) :
  f x = f (nth i l d) -> map f (replace_nth i x l) = map f l.
Proof.
  revert i. induction l as [|y r IH]; intros [|i] H; simpl in *; try reflexivity.
  - now rewrite H.
  - now rewrite IH.
Qed.

Ltac pinv :=
  repeat match goal with
         | H : pbind _ _ _ = Ok _ |- _ =>
             apply pbind_ok in H; destruct H as (? & ? & ? & ?)
         | H : plift _ _ = Ok _ |- _ =>
             apply plift_ok in H; destruct H as [? ?]; subst
         | H : pret _ _ = Ok _ |- _ => inversion H; subst; clear H
         | H : this _ = Ok _ |- _ => inversion H; subst; clear H
         | H : modify _ _ = Ok _ |- _ => inversion H; subst; clear H
         | H : extension _ _ = Ok _ |- _ => inversion H; subst; clear H
         | H : set_extension _ _ _ = Ok _ |- _ => inversion H; subst; clear H
         | H : new_author _ _ = Ok _ |- _ => inversion H; subst; clear H
         | H : new_comment _ _ = Ok _ |- _ => inversion H; subst; clear H
         | H : assign_parent _ _ _ = Ok _ |- _ => inversion H; subst; clear H
         | H : praise _ _ = Ok _ |- _ => discriminate H
         | H : Ok _ = Ok _ |- _ => inversion H; subst; clear H
         | H : (let (_, _) := ?x in _) _ = Ok _ |- _ => destruct x
         | H : match ?x with _ => _ end _ = Ok _ |- _ => destruct x eqn:?
         | H : match ?x with _ => _ end = Ok _ |- _ => destruct x eqn:?; try discriminate
         end.

Section Frame.
Context (E : Externals) (app : App).

Lemma frame_parse_tag (i : nat) (e : Element) (s s' : Parser) (t : Tag) :
  _parse_tag i e s = Ok (t, s') -> frame s' = frame s.
Proof.
  unfold _parse_tag. intros H. pinv; try reflexivity.
  unfold frame. simpl.
  rewrite !(map_replace_nth _ i _ no_extension); reflexivity.
Qed.

Lemma frame_parse_category (i : nat) (e : Element) (s s' : Parser) (c : Category) :
  _parse_category i e s = Ok (c, s') -> frame s' = frame s.
Proof.
  unfold _parse_category. intros H. pinv; try reflexivity.
  unfold frame. simpl.
  rewrite !(map_replace_nth _ i _ no_extension); reflexivity.
Qed.

Lemma frame_tag_or_category (i : nat) (e : Element) (s s' : Parser) rv :
  tag_or_category i e s = Ok (rv, s') -> frame s' = frame s.
Proof.
  unfold tag_or_category. intros H. pinv; try reflexivity.
  - eapply frame_parse_tag; eauto.
  - eapply frame_parse_category; eauto.
Qed.

Lemma frame_first_tag_or_category (e : Element) (l : list nat) :
  forall s s' rv,
    first_answer l (fun i => tag_or_category i e) s = Ok (rv, s') -> frame s' = frame s.
Proof.
  induction l as [|i r IH]; intros s s' rv H; simpl in H.
  - pinv. reflexivity.
  - apply pbind_ok in H. destruct H as (a & s1 & H1 & H2).
    apply frame_tag_or_category in H1. destruct a.
    + pinv. exact H1.
    + apply IH in H2. congruence.
Qed.

Lemma frame_remember_category (c : Category) (e : Element) (s s' : Parser) :
  _remember_category c e s = Ok (tt, s') -> frame s' = frame s.
Proof. unfold _remember_category. intros H. pinv; reflexivity. Qed.

Lemma frame_parse_one_category acc (e : Element) (s s' : Parser) acc' :
  parse_one_category acc e s = Ok (acc', s') -> frame s' = frame s.
Proof.
  unfold parse_one_category. intros H.
  apply pbind_ok in H. destruct H as (s0 & s1 & H0 & H). inversion H0; subst; clear H0.
  apply pbind_ok in H. destruct H as (rv & s2 & H1 & H).
  apply frame_first_tag_or_category in H1. rewrite <- H1.
  destruct rv as [[t|c]|]; pinv;
    repeat match goal with
           | H : _remember_category _ _ _ = Ok (?u, _) |- _ =>
               destruct u; apply frame_remember_category in H
           end; try congruence; try reflexivity.
  unfold frame in *. simpl. congruence.
Qed.

Lemma frame_parse_categories (entry : Element) (s s' : Parser) found :
  parse_categories entry s = Ok (found, s') -> frame s' = frame s.
Proof.
  unfold parse_categories. generalize (@nil Tag, @nil Category).
  revert s. induction (findall entry (atom "category")) as [|c r IH];
    intros s acc H; simpl in H.
  - pinv. reflexivity.
  - apply pbind_ok in H. destruct H as (acc' & s1 & H1 & H2).
    apply frame_parse_one_category in H1. apply IH in H2. congruence.
Qed.


Lemma same_but_comments_refl (s : Parser) : same_but_comments s s.
Proof. exists (comment_heap s). now destruct s. Qed.

Lemma same_but_comments_trans (s1 s2 s3 : Parser) :
  same_but_comments s1 s2 -> same_but_comments s2 s3 -> same_but_comments s1 s3.
Proof. intros [h1 ->] [h2 ->]. exists h2. reflexivity. Qed.

Lemma same_but_comments_frame (s s' : Parser) :
  same_but_comments s s' -> frame s' = frame s /\ extensions s' = extensions s.
Proof. intros [h ->]. split; reflexivity. Qed.

Lemma parse_comment_inline (i : nat) (l l' : CommentLoop) (x : Element) (s s' : Parser) :
  inline_author x ->
  parse_comment E app i l x s = Ok (l', s') ->
  same_but_comments s s'.
Proof.
  intros Hinline H. unfold parse_comment in H.
  apply pbind_ok in H. destruct H as (a & s1 & H1 & H).
  apply plift_ok in H1. destruct H1 as [H1 ->].
  destruct (find x (textpress "author")) as [a'|] eqn:Hfind; [|discriminate].
  injection H1 as ->. rewrite (Hinline _ Hfind) in H.
  pinv.
  all: eexists; reflexivity.
Qed.

Lemma parse_comment_elements_inline (i : nat) (els : list Element) :
  Forall inline_author els ->
  forall l s l' s',
    parse_comment_elements E app i l els s = Ok (l', s') -> same_but_comments s s'.
Proof.
  induction 1 as [|x r Hx _ IH]; intros l s l' s' H; simpl in H.
  - pinv. apply same_but_comments_refl.
  - apply pbind_ok in H. destruct H as (l1 & s1 & H1 & H2).
    eapply same_but_comments_trans.
    + eapply parse_comment_inline; eauto.
    + eapply IH; eauto.
Qed.

Lemma link_parents_same (cs : dict Z ref) (links : list (ref * Z)) :
  forall s s', pfor links (link_parent cs) s = Ok (tt, s') -> same_but_comments s s'.
Proof.
  induction links as [|k r IH]; intros s s' H; simpl in H.
  - pinv. apply same_but_comments_refl.
  - apply pbind_ok in H. destruct H as ([] & s1 & H1 & H2).
    eapply same_but_comments_trans; [|eapply IH; eauto].
    unfold link_parent in H1. pinv. eexists. reflexivity.
Qed.

Lemma TPZEA_parse_comments_inline (i : nat) (post : Post) (s s' : Parser) found :
  Forall inline_author (findall (p_element post) (textpress "comment")) ->
  TPZEA_parse_comments E app i post s = Ok (found, s') ->
  same_but_comments s s'.
Proof.
  intros Hall H. unfold TPZEA_parse_comments in H.
  apply pbind_ok in H. destruct H as (l & s1 & H1 & H).
  apply pbind_ok in H. destruct H as ([] & s2 & H2 & H).
  pinv.
  eapply same_but_comments_trans.
  - eapply parse_comment_elements_inline; eauto.
  - eapply link_parents_same; eauto.
Qed.

Lemma extend_comments_inline (l : list nat) :
  forall post s post' s',
    Forall inline_author (findall (p_element post) (textpress "comment")) ->
    extend_comments E app post l s = Ok (post', s') ->
    same_but_comments s s'
    /\ p_author post' = p_author post /\ p_element post' = p_element post.
Proof.
  induction l as [|i r IH]; intros post s post' s' Hall H; simpl in H.
  - pinv. split; [apply same_but_comments_refl|auto].
  - apply pbind_ok in H. destruct H as (found & s1 & H1 & H2).
    apply TPZEA_parse_comments_inline in H1; [|exact Hall].
    apply IH in H2; [|exact Hall]. destruct H2 as (H2 & Ha & He).
    split; [eapply same_but_comments_trans; eauto|]. auto.
Qed.

Lemma frame_remember_author (a : ref) (s s' : Parser) :
  _remember_author a s = Ok (tt, s') ->
  frame s' = frame s /\ extensions s' = extensions s.
Proof. unfold _remember_author. intros H. pinv; split; reflexivity. Qed.

(** What [_get_author] does with an identifier. *)
Lemma get_author_by_id (i : nat) (id : string) (s s' : Parser) (r : ref) :
  _get_author E app i (ById id) s = Ok (r, s') ->
  let x := nth i (extensions s) no_extension in
  (dict_get id (_authors x) = Some r /\ s' = s)
  \/ (dict_get id (_authors x) = None
      /\ exists element rest au,
          _lookup_user (_dependencies x) (ById id) = Ok (element :: rest)
          /\ a_username au = findtext element (textpress "username")
          /\ r = List.length (author_heap s)
          /\ s' = set_authors (authors s ++ [r])
                    (set_extensions
                       (replace_nth i (cache_author x (ById id) r) (extensions s))
                       (set_author_heap (author_heap s ++ [au]) s))).
Proof.
  intros H. cbv zeta. set (x := nth i (extensions s) no_extension).
  unfold _get_author in H.
  apply pbind_ok in H. destruct H as (x' & s1 & H1 & H).
  inversion H1; subst; clear H1. fold x in H.
  change (cached_author x (ById id)) with (dict_get id (_authors x)) in H.
  destruct (dict_get id (_authors x)) as [r'|] eqn:Hget.
  - pinv. left. auto.
  - right. split; [reflexivity|]. pinv.
    all: eexists _, _, _; split; [eassumption|]; split; [|split].
    all: try reflexivity.
    all: reflexivity.
Qed.

(** The author of an entry that refers to a dependency. *)
Lemma parse_author_by_reference (entry ael : Element) (id : string)
      (s s' : Parser) (r : ref) :
  find entry (atom "author") = Some ael ->
  attrib_get ael (textpress "dependency") = Some id ->
  extensions s <> [] ->
  parse_author E app entry s = Ok (r, s') ->
  exists s1,
    _get_author E app 0 (ById id) s = Ok (r, s1)
    /\ frame s' = frame s1 /\ extensions s' = extensions s1.
Proof.
  intros Hfind Hdep Hext H. unfold parse_author in H. rewrite Hfind in H.
  apply pbind_ok in H. destruct H as (a & s0 & H0 & H).
  apply plift_ok in H0. destruct H0 as [H0 ->]. injection H0 as <-.
  apply pbind_ok in H. destruct H as (s0 & s1 & H0 & H).
  inversion H0; subst; clear H0.
  apply pbind_ok in H. destruct H as (rv & s2 & H1 & H).
  unfold indices in H1. destruct (extensions s1) as [|x0 xs] eqn:Hx; [congruence|].
  simpl in H1. apply pbind_ok in H1. destruct H1 as (rv0 & s3 & H1 & H2).
  unfold lookup_author in H1. rewrite Hdep in H1.
  apply pbind_ok in H1. destruct H1 as (a & s4 & H1 & H3).
  inversion H3; subst; clear H3. inversion H2; subst; clear H2.
  apply pbind_ok in H. destruct H as ([] & s5 & H4 & H).
  inversion H; subst; clear H.
  apply frame_remember_author in H4. destruct H4.
  exists s2. auto.
Qed.



Lemma replace_nth_map {A B} (f : A -> B) (i : nat) (x : A) (l : list A) :
  map f (replace_nth i x l) = replace_nth i (f x) (map f l).
Proof.
  revert i. induction l as [|y r IH]; intros [|i]; simpl; try reflexivity.
  now rewrite IH.
Qed.

Lemma frame_nonempty (s s' : Parser) :
  frame s' = frame s -> extensions s <> [] -> extensions s' <> [].
Proof.
  unfold frame. intros H Hs Hs'. injection H as _ _ _ H _.
  rewrite Hs' in H. destruct (extensions s); [congruence|discriminate].
Qed.

Lemma p_author_postprocess {A} (l : list A) (post : Post) :
  p_author (fold_left (fun post _ => postprocess_post post) l post) = p_author post.
Proof.
  revert post. induction l as [|i r IH]; intros post; simpl; [reflexivity|].
  rewrite IH. unfold postprocess_post.
  destruct (findtext (p_element post) (textpress "content_type")); reflexivity.
Qed.

Lemma referenced_frame (id : string) (r : ref) (s0 s s' s1 : Parser) :
  frame s = frame s0 -> frame s1 = frame s' ->
  referenced id r s s' -> referenced id r s0 s1.
Proof.
  unfold referenced, frame. intros H0 H1. injection H0 as Hp Ha Hh Hc Hd.
  rewrite Hp, Ha, Hh, Hc, Hd. rewrite H1. tauto.
Qed.

Lemma get_author_referenced (id : string) (s s' : Parser) (r : ref) :
  _get_author E app 0 (ById id) s = Ok (r, s') -> referenced id r s s'.
Proof.
  intros H. apply get_author_by_id in H. cbv zeta in H. unfold referenced.
  change dict_empty with (_authors no_extension).
  change (@None Element) with (_dependencies no_extension).
  rewrite !map_nth.
  destruct H as [[Hhit ->]|(Hmiss & element & rest & au & Hl & Hu & Hr & ->)].
  - left. auto.
  - right. split; [exact Hmiss|]. exists element, rest, au.
    split; [exact Hl|]. split; [exact Hu|]. split; [exact Hr|].
    unfold frame. simpl. destruct (extensions s); reflexivity.
Qed.

(** An entry whose author refers to a dependency and whose comments
    name their authors inline. *)
Lemma parse_post_by_reference (entry ael : Element) (id : string)
      (s s' : Parser) (post : Post) :
  find entry (atom "author") = Some ael ->
  attrib_get ael (textpress "dependency") = Some id ->
  Forall inline_author (findall entry (textpress "comment")) ->
  extensions s <> [] ->
  parse_post E app entry s = Ok (post, s') ->
  referenced id (p_author post) s s' /\ extensions s' <> [].
Proof.
  intros Hfind Hdep Hinline Hext H. unfold parse_post in H.
  apply pbind_ok in H. destruct H as (updated & s1 & H1 & H).
  apply plift_ok in H1. destruct H1 as [_ ->].
  apply pbind_ok in H. destruct H as (published & s2 & H2 & H).
  assert (s2 = s) as ->.
  { destruct (findtext entry (atom "published")).
    - apply plift_ok in H2. tauto.
    - now inversion H2. }
  clear H2.
  apply pbind_ok in H. destruct H as ([tags cats] & s3 & H3 & H).
  apply frame_parse_categories in H3.
  cbv zeta in H.
  apply pbind_ok in H. destruct H as (data & s4 & H4 & H).
  apply plift_ok in H4. destruct H4 as [_ ->].
  apply pbind_ok in H. destruct H as (pickled & s5 & H5 & H).
  apply plift_ok in H5. destruct H5 as [_ ->].
  apply pbind_ok in H. destruct H as (parser & s6 & H6 & H).
  apply plift_ok in H6. destruct H6 as [_ ->].
  apply pbind_ok in H. destruct H as (author & s7 & H7 & H).
  apply parse_author_by_reference with (ael := ael) (id := id) in H7; auto;
    [|eapply frame_nonempty; eauto].
  destruct H7 as (s8 & Hget & Hframe7 & Hext7).
  apply get_author_referenced in Hget.
  apply pbind_ok in H. destruct H as (post' & s9 & H9 & H).
  unfold parse_comments in H9.
  apply pbind_ok in H9. destruct H9 as (s10 & s11 & H10 & H9).
  inversion H10; subst; clear H10.
  apply extend_comments_inline in H9;
    [|destruct (known_content_type _); exact Hinline].
  destruct H9 as (Hsame & Hauthor & _).
  apply same_but_comments_frame in Hsame. destruct Hsame as [Hframe9 Hext9].
  apply pbind_ok in H. destruct H as (s12 & s13 & H12 & H).
  inversion H12; subst; clear H12. inversion H; subst; clear H.
  rewrite p_author_postprocess, Hauthor.
  replace (p_author (if known_content_type _ then _ else _)) with author
    by (destruct (known_content_type _); reflexivity).
  split.
  - eapply referenced_frame; [exact H3| |exact Hget]. congruence.
  - rewrite Hext9. eapply frame_nonempty; [exact Hframe7|].
    destruct Hget as [[_ Hf]|(_ & el & rest & au & _ & _ & _ & Hf)].
    + eapply frame_nonempty; [exact Hf|]. eapply frame_nonempty; eauto.
    + intros Hnil. unfold frame in Hf. rewrite Hnil in Hf. simpl in Hf.
      injection Hf as _ _ _ Hf' _.
      assert (Hne : extensions s3 <> []) by (eapply frame_nonempty; eauto).
      destruct (extensions s3); [congruence|discriminate].
Qed.

End Frame.

End ImporterFacts.

(* ================================================================== *)
(** * The exporters: dependencies block, first items, participants,
      category schemes                                                 *)
(* ================================================================== *)

Module ExporterClaims.
Import Py ET Statements PyFacts ExporterFacts.
Local Open Scope string_scope.
Local Open Scope list_scope.

(** C2: in both writers the output of [_generate] is the
    output of the entries, then the dependencies block of the table the
    entries leave behind, then the closing tag of the feed: the block
    comes after every entry.  The block of an empty table is empty;
    otherwise it is one pair of container literals around the nodes of
    the table.  The table holds, in the order of insertion, the
    canonical nodes of the users in the order they were registered;
    the block lists the same nodes in the order the dictionary
    iterates, a permutation of the order of registration. *)
Theorem C2_dependencies_block_follows_entries
        (E : Exporter.Externals) (db : Exporter.Store) (w : Exporter.Writer) :
  ends_with_dependencies (Exporter.dump_entries E db) (Exporter._generate E db) w
  /\ ends_with_dependencies (LegacyExporter.dump_entries E db)
                            (LegacyExporter._generate E db) w
  /\ dependencies_block dict_empty = []
  /\ (forall pre w1,
        Exporter._dependencies w = dict_empty ->
        Exporter.dump_entries E db w = (pre, Ok (tt, w1))
        \/ LegacyExporter.dump_entries E db w = (pre, Ok (tt, w1)) ->
        map snd (entries (Exporter._dependencies w1))
        = registered_nodes E (Exporter.participants w) 1 (Exporter.all_users db)).
Proof.
  split; [|split; [|split]].
  - apply generate_ends_with_dependencies.
  - apply generate_ends_with_dependencies.
  - reflexivity.
  - intros pre w1 Hempty [H|H].
    + eapply dump_entries_dependencies; eauto.
    + eapply legacy_dump_entries_dependencies; eauto.
Qed.

(** The export of three users ends with their block. *)
Lemma C2_dependencies_block_witness :
  exists pre w1,
    Exporter.dump_entries Reference.exporter_externals three_users Reference.writer
    = (pre, Ok (tt, w1))
    /\ Exporter.chunks
         (fst (Exporter._generate Reference.exporter_externals three_users Reference.writer))
       = Exporter.chunks pre ++ dependencies_block (Exporter._dependencies w1)
                         ++ [ Exporter.Text Exporter.XML_EPILOG ]
    /\ Permutation (dict_values (Exporter._dependencies w1))
                   (map snd (entries (Exporter._dependencies w1))).
Proof.
  apply (proj1 (C2_dependencies_block_follows_entries
                  Reference.exporter_externals three_users Reference.writer)
               (fst (Exporter._generate Reference.exporter_externals three_users
                                        Reference.writer))
               (final_writer (Exporter._generate Reference.exporter_externals
                                                 three_users Reference.writer)
                             Reference.writer)).
  vm_compute. reflexivity.
Defined.

(** Three users are registered under 1, 2 and 3; the block lists them
    as 1, 3, 2, the order of a Python 2 dictionary with these keys. *)
Lemma C2_registration_order_counterexample :
  ~ block_in_registration_order Reference.exporter_externals three_users Reference.writer.
Proof.
  intros H.
  assert (Hrun : Exporter.run Reference.exporter_externals three_users Reference.writer
                 = (fst (Exporter.run Reference.exporter_externals three_users
                                      Reference.writer), None))
    by (vm_compute; reflexivity).
  apply H in Hrun. apply (f_equal (map dependency_id)) in Hrun.
  vm_compute in Hrun. discriminate Hrun.
Qed.

(** C3: the writer of the plugin takes the first post and the first
    page in one [try] block.  With a post and no page, the block is
    left after the first post was taken: the remaining posts are
    exported, and the feed is stamped with the wall clock although a
    post exists; without the pages plugin the name [pages] is unbound.
    For the store with one post and no page the export carries the
    clock's instant and no entry, where the older writer, which has no
    pages, carries the post's last update and its entry. *)
Theorem C3_newest_post_lost_without_a_page :
  (forall now p ps,
      Exporter.first_items now (p :: ps) (Some []) = Ok (ps, Some [], now))
  /\ (forall now p ps,
         Exporter.first_items now (p :: ps) None = Raise UnboundLocalError)
  /\ (let out := Exporter.run Reference.exporter_externals one_post_no_page
                              Reference.writer in
      snd out = None
      /\ feed_updated (Exporter.chunks (fst out)) = Some "2009-03-01T12:00:00Z"
      /\ entry_ids (Exporter.chunks (fst out)) = [])
  /\ (let out := LegacyExporter.run Reference.exporter_externals one_post_no_page
                                    Reference.writer in
      snd out = None
      /\ feed_updated (Exporter.chunks (fst out)) = Some "2009-02-03T09:30:00Z"
      /\ entry_ids (Exporter.chunks (fst out)) = [Some "tag:example.org,2009:post/1"]).
Proof.
  split; [reflexivity|]. split; [reflexivity|].
  split; vm_compute; auto.
Qed.

(** C7: [Participant] defines [before_dump], and [_generate] calls
    [setup].  With a participant that only has the default hooks in
    front, the export raises before any node, the configuration
    included, was written; in the older writer the output is the
    preamble alone and the exception is [AttributeError]. *)
Theorem C7_default_participant_breaks_export
        (E : Exporter.Externals) (db : Exporter.Store) (w : Exporter.Writer)
        (ps : list Exporter.Participant) :
  Exporter.participants w = Exporter.default_Participant :: ps ->
  (exists tr e, Exporter.run E db w = (tr, Some e)
                /\ forall n, ~ In (Exporter.Yield (Exporter.Node n)) tr)
  /\ (exists p, LegacyExporter.run E db w
                = ([Exporter.Yield (Exporter.XmlPreamble p)], Some AttributeError)).
Proof.
  intros Hps. split.
  - unfold Exporter.run, Exporter._generate, Exporter.dump_entries.
    cbv beta iota zeta delta
        [Exporter.gbind Exporter.read_clock Exporter.self Exporter.update Exporter.gret
         Exporter.glift Exporter.yield Exporter.participants Exporter.app
         Exporter.clock_reads].
    destruct w as [a d t k deps us dbu parts clock]. simpl in Hps. subst parts.
    cbv beta iota zeta.
    destruct (Exporter.first_items _ _ _) as [[[posts pages] last]|e].
    + cbv beta iota zeta delta [Exporter.for_each_indexed Exporter.gbind
                                 Exporter.default_Participant Exporter.defines_setup
                                 Exporter.graise app].
      eexists _, _. split; [reflexivity|].
      intros n [Hn|[]]. discriminate Hn.
    + eexists _, _. split; [reflexivity|]. intros n [].
  - unfold LegacyExporter.run, LegacyExporter._generate, LegacyExporter.dump_entries.
    cbv beta iota zeta delta
        [Exporter.gbind Exporter.read_clock Exporter.self Exporter.update Exporter.gret
         Exporter.glift Exporter.yield Exporter.participants Exporter.app
         Exporter.clock_reads].
    destruct w as [a d t k deps us dbu parts clock]. simpl in Hps. subst parts.
    cbv beta iota zeta.
    destruct (LegacyExporter.first_items _ _) as [posts last].
    cbv beta iota zeta delta [Exporter.for_each_indexed Exporter.gbind
                               Exporter.default_Participant Exporter.defines_setup
                               Exporter.graise app].
    eexists. reflexivity.
Qed.

(** One default participant, one post. *)
Lemma C7_default_participant_witness :
  (exists tr e,
      Exporter.run Reference.exporter_externals one_post_no_page
        (Exporter.Writer_init Reference.textpress true false (Some [])
                              [Exporter.default_Participant]) = (tr, Some e)
      /\ forall n, ~ In (Exporter.Yield (Exporter.Node n)) tr)
  /\ (exists p,
         LegacyExporter.run Reference.exporter_externals one_post_no_page
           (Exporter.Writer_init Reference.textpress true false (Some [])
                                 [Exporter.default_Participant])
         = ([Exporter.Yield (Exporter.XmlPreamble p)], Some AttributeError)).
Proof.
  apply (C7_default_participant_breaks_export _ _ _ []). reflexivity.
Defined.



End ExporterClaims.

(* ================================================================== *)
(** * From the writer to the parser: the shared author                 *)
(* ================================================================== *)

Module RoundTrip.
Import Py ET Statements PyFacts ExporterFacts ETFacts.
Local Open Scope string_scope.
Local Open Scope list_scope.


Import Importer ImporterStatements ImporterFacts.









End RoundTrip.

(* ================================================================== *)
(** * The importer: root tag, data, comments                           *)
(* ================================================================== *)

Module ImporterClaims.
Import Py ET PyFacts ETFacts Importer ImporterStatements ImporterFacts.
Local Open Scope string_scope.
Local Open Scope list_scope.

Section WithExternals.
Context (E : Externals) (app : App).

(** Without [tp:data], what [parse_post] raises once the dates and the
    categories were read is the [IndexError] of the index. *)
Lemma parse_post_index_error (entry : Element) (s s1 : Parser) u p tc :
  findall entry (textpress "data") = [] ->
  parse_iso8601 E (findtext entry (atom "updated")) = Ok u ->
  match findtext entry (atom "published") with
  | Some published => parse_iso8601 E (Some published)
  | None => Ok u
  end = Ok p ->
  parse_categories entry s = Ok (tc, s1) ->
  parse_post E app entry s = Raise IndexError.
Proof.
  intros Hd Hu Hp Hc. unfold parse_post, first_data.
  unfold pbind at 1. unfold plift at 1. rewrite Hu.
  unfold pbind at 1.
  assert (Hpub : match findtext entry (atom "published") with
                 | Some published => plift (parse_iso8601 E (Some published))
                 | None => pret u
                 end s = Ok (p, s)).
  { destruct (findtext entry (atom "published")); unfold plift, pret; [rewrite Hp|]; congruence. }
  rewrite Hpub. unfold pbind at 1. rewrite Hc. destruct tc.
  unfold pbind at 1. unfold plift at 1. rewrite Hd. reflexivity.
Qed.

(** C10: [parse_post] raises for every entry without a [tp:data]
    child, and the exception is the [IndexError] of
    [entry.findall(textpress.data)[0]] when the dates and the
    categories before it were read.  Hence, when [parse_feed] returns a
    blog, every entry of the document has a [tp:data] child; and for
    an entry that has one the index returns it and does not raise. *)
Theorem C10_every_entry_needs_data (tree : Element) :
  (forall entry s, findall entry (textpress "data") = [] ->
                   exists e, parse_post E app entry s = Raise e)
  /\ (forall entry s s1 u p tc,
        findall entry (textpress "data") = [] ->
        parse_iso8601 E (findtext entry (atom "updated")) = Ok u ->
        match findtext entry (atom "published") with
        | Some published => parse_iso8601 E (Some published)
        | None => Ok u
        end = Ok p ->
        parse_categories entry s = Ok (tc, s1) ->
        parse_post E app entry s = Raise IndexError)
  /\ (forall blog, parse_feed E app tree = Ok blog ->
        forall entry, In entry (findall tree (atom "entry")) ->
                      findall entry (textpress "data") <> []
                      /\ exists first, first_data entry = Ok first)
  /\ (forall entry, findall entry (textpress "data") <> [] ->
                    first_data entry <> Raise IndexError).
Proof.
  split; [|split; [|split]].
  - intros entry s H. apply parse_post_needs_data. exact H.
  - intros. eapply parse_post_index_error; eauto.
  - intros blog Hok entry Hin.
    assert (Hne : findall entry (textpress "data") <> []).
    { intro Hnil.
      destruct (parse_feed_raises_at_entry E app tree entry) as (e & He).
      - eapply parse_feed_ok_atom; eauto.
      - exact Hin.
      - intros s _. apply parse_post_needs_data. exact Hnil.
      - congruence. }
    split; [exact Hne|]. unfold first_data.
    destruct (findall entry (textpress "data")); [congruence|eauto].
  - intros entry H. unfold first_data.
    destruct (findall entry (textpress "data")); congruence.
Qed.

(** C9: [parse_feed] chooses by the tag of the root.  The root [rss]
    raises the [FeedImportError] of [RSSParser]; a root that is neither
    [rss] nor the Atom [feed] raises the [FeedImportError] for an
    unknown feed; a blog is returned for the Atom [feed] only, where
    the result is that of [AtomParser.parse]; and two documents whose
    roots have the same tag, not the Atom [feed], have the same
    result. *)
Theorem C9_parse_feed_selects_by_root_tag (tree : Element) :
  (tag tree = "rss" ->
   parse_feed E app tree
   = Raise (FeedImportError "Importing of RSS feeds is currently not possible."))
  /\ (tag tree <> "rss" -> tag tree <> atom "feed" ->
      parse_feed E app tree = Raise (FeedImportError "Unknown feed uploaded."))
  /\ (forall blog, parse_feed E app tree = Ok blog -> tag tree = atom "feed")
  /\ (tag tree = atom "feed" ->
      exists parser, AtomParser_init app tree = Ok parser
                     /\ parse_feed E app tree
                        = match parse E app parser with
                          | Ok (blog, _) => Ok blog
                          | Raise e => Raise e
                          end)
  /\ (forall other, tag other = tag tree -> tag tree <> atom "feed" ->
                    parse_feed E app other = parse_feed E app tree).
Proof.
  split; [|split; [|split; [|split]]].
  - intros H. unfold parse_feed, select_parser. rewrite H. reflexivity.
  - intros H1 H2. unfold parse_feed, select_parser.
    apply String.eqb_neq in H1, H2. rewrite H1, H2. reflexivity.
  - intros blog H. eapply parse_feed_ok_atom; eauto.
  - intros H. rewrite (parse_feed_atom E app tree H).
    unfold AtomParser_init. eexists. split; reflexivity.
  - intros other Heq Hna. unfold parse_feed. rewrite Heq.
    unfold select_parser. apply String.eqb_neq in Hna. rewrite Hna.
    destruct (String.eqb (tag tree) "rss"); reflexivity.
Qed.




(** C5: a comment whose parent field is the empty string makes
    [parse_feed] raise on the Atom document that holds it, with the
    TextPress extension registered: [if parent is not None or ''] lets
    the empty string through to [int(parent)].  And the empty string is
    what the exporter writes for a comment without a parent. *)
Theorem C5_empty_parent_field_aborts_decoding (tree entry comment : Element) :
  tag tree = atom "feed" ->
  feed_importer_extensions app <> [] ->
  In entry (findall tree (atom "entry")) ->
  In comment (findall entry (textpress "comment")) ->
  findtext comment (textpress "parent") = Some "" ->
  (exists e, parse_feed E app tree = Raise e)
  /\ (forall EE c, Exporter.parent_id c = None ->
                   findtext (reparse (Exporter.dump_comment EE c)) (textpress "parent")
                   = Some "").
Proof.
  intros Htag Hext Hentry Hin Hparent. split.
  - destruct (registered_positive app Hext) as (n & Hn).
    apply parse_feed_raises_at_entry with (entry := entry); auto.
    intros s Hs. rewrite Hn in Hs.
    eapply parse_post_comments_raise; [|exact Hs].
    intros i post s0 Hpost.
    eapply TPZEA_parse_comments_bad_parent with (x := comment);
      rewrite ?Hpost; eauto using int_of_str_empty.
  - intros EE c Hc. rewrite findtext_reparse.
    unfold Exporter.dump_comment. rewrite Hc. reflexivity.
Qed.

(** C6: [parse_comments] asks the author element for the attribute
    [dependency] without a namespace.  For a comment whose author
    carries the reference in the extension namespace only, a
    successful step changes neither the authors nor the caches of the
    extensions, and the comment it adds has the text of [tp:name] for
    an author, not an author object. *)
Theorem C6_comment_author_reference_is_ignored
        (i : nat) (l l' : CommentLoop) (element author : Element) (X : string)
        (s s' : Parser) :
  find element (textpress "author") = Some author ->
  attrib_get author (textpress "dependency") = Some X ->
  attrib_get author "dependency" = None ->
  parse_comment E app i l element s = Ok (l', s') ->
  authors s' = authors s
  /\ author_heap s' = author_heap s
  /\ extensions s' = extensions s
  /\ exists c, comment_heap s' = comment_heap s ++ [c]
               /\ c_author c = AuthorName (findtext author (textpress "name")).
Proof.
  intros Hfind HX Hnone H. unfold parse_comment in H.
  rewrite Hfind in H.
  apply pbind_ok in H. destruct H as (a0 & s0 & H0 & H).
  apply plift_ok in H0. destruct H0 as [H0 ->]. injection H0 as <-.
  rewrite Hnone in H.
  pinv.
  all: repeat split; try reflexivity; eexists; split; reflexivity.
Qed.

End WithExternals.



(** An [rss] root and a root with an empty tag. *)
Lemma C9_parse_feed_witness :
  parse_feed Reference.importer_externals Reference.zine rss_document
  = Raise (FeedImportError "Importing of RSS feeds is currently not possible.")
  /\ parse_feed Reference.importer_externals Reference.zine no_element
     = Raise (FeedImportError "Unknown feed uploaded.").
Proof.
  split.
  - apply (proj1 (C9_parse_feed_selects_by_root_tag Reference.importer_externals Reference.zine rss_document)).
    reflexivity.
  - apply (proj1 (proj2 (C9_parse_feed_selects_by_root_tag
                           Reference.importer_externals Reference.zine no_element)));
      vm_compute; discriminate.
Defined.

(** The export of two posts and a page decodes, and every entry
    has its data. *)
Lemma C10_every_entry_needs_data_witness :
  is_ok (parse_feed Reference.importer_externals Reference.zine (exported [])) = true
  /\ forall entry, In entry (findall (exported []) (atom "entry")) ->
                   findall entry (textpress "data") <> []
                   /\ exists first, first_data entry = Ok first.
Proof.
  split; [vm_compute; reflexivity|].
  destruct (parse_feed Reference.importer_externals Reference.zine (exported [])) as [blog|e] eqn:H.
  - exact (proj1 (proj2 (proj2 (C10_every_entry_needs_data
                                  Reference.importer_externals Reference.zine (exported []))))
                 blog H).
  - vm_compute in H. discriminate H.
Defined.

(** The export of a post with one top-level comment: decoding raises
    [ValueError]. *)
Lemma C5_empty_parent_field_witness :
  parse_feed Reference.importer_externals Reference.zine (exported [Reference.comment_C1]) = Raise ValueError
  /\ (exists e, parse_feed Reference.importer_externals Reference.zine (exported [Reference.comment_C1]) = Raise e)
  /\ (forall EE c, Exporter.parent_id c = None ->
                   findtext (reparse (Exporter.dump_comment EE c)) (textpress "parent")
                   = Some "").
Proof.
  split; [vm_compute; reflexivity|].
  apply (C5_empty_parent_field_aborts_decoding
           Reference.importer_externals Reference.zine (exported [Reference.comment_C1])
           (first_entry (exported [Reference.comment_C1]))
           (first_comment (exported [Reference.comment_C1]))).
  - vm_compute. reflexivity.
  - vm_compute. discriminate.
  - vm_compute. left. reflexivity.
  - vm_compute. left. reflexivity.
  - vm_compute. reflexivity.
Defined.




(** [<tp:author tp:dependency="1"/>] in a document that defines the
    dependency 1: the comment's author is [AuthorName None]. *)
Lemma C6_comment_author_reference_witness :
  is_ok decoded_reference = true
  /\ authors (state_after decoded_reference (fresh_parser (exported [])))
     = authors (fresh_parser (exported []))
  /\ author_heap (state_after decoded_reference (fresh_parser (exported [])))
     = author_heap (fresh_parser (exported []))
  /\ extensions (state_after decoded_reference (fresh_parser (exported [])))
     = extensions (fresh_parser (exported []))
  /\ exists c,
       comment_heap (state_after decoded_reference (fresh_parser (exported [])))
       = comment_heap (fresh_parser (exported [])) ++ [c]
       /\ c_author c
          = AuthorName (findtext (mkElement (textpress "author")
                                            [(textpress "dependency", "1")] None [])
                                 (textpress "name")).
Proof.
  split; [vm_compute; reflexivity|].
  apply (C6_comment_author_reference_is_ignored
           Reference.importer_externals Reference.zine 0
           (mkLoop dict_empty [] None)
           (loop_after decoded_reference (mkLoop dict_empty [] None))
           referencing_comment
           (mkElement (textpress "author") [(textpress "dependency", "1")] None [])
           "1"
           (fresh_parser (exported []))
           (state_after decoded_reference (fresh_parser (exported [])))).
  - vm_compute. reflexivity.
  - vm_compute. reflexivity.
  - vm_compute. reflexivity.
  - vm_compute. reflexivity.
Defined.


End ImporterClaims.

(* ================================================================== *)
(** * Further properties                                               *)
(* ================================================================== *)

Module Further.
Import Py ET PyFacts ETFacts Importer ImporterStatements ImporterFacts.
Local Open Scope string_scope.
Local Open Scope list_scope.


(** After a reference to [id], the cache of the first extension holds
    the author under [id]. *)
Lemma referenced_cached (id : string) (r : ref) (s s' : Parser) :
  extensions s <> [] ->
  referenced id r s s' ->
  dict_get id (nth 0 (map _authors (extensions s')) dict_empty) = Some r.
Proof.
  intros Hx [[Hget Hf]|(Hget & el & rest & au & _ & _ & _ & Hf)].
  - unfold frame in Hf. injection Hf as _ _ _ Hc _. rewrite Hc. exact Hget.
  - unfold frame in Hf. injection Hf as _ _ _ Hc _. rewrite Hc.
    destruct (extensions s) as [|x xs]; [congruence|]. simpl.
    unfold dict_get, dict_set. simpl. apply assoc_set_same.
Qed.

(** An entry whose author element carries [tp:dependency] and whose
    comments name their authors inline: when [parse_post] returns, the
    post's author is the author cached for that dependency, taken from
    the cache as it is or built from the dependency's [tp:user] node,
    appended to the parser's authors and cached; afterwards the cache
    holds it under the dependency. *)
Theorem post_author_is_the_cached_dependency
        (E : Externals) (app : App) (entry ael : Element) (id : string) (s : Parser) :
  find entry (atom "author") = Some ael ->
  attrib_get ael (textpress "dependency") = Some id ->
  Forall inline_author (findall entry (textpress "comment")) ->
  extensions s <> [] ->
  match parse_post E app entry s with
  | Ok (post, s') =>
      referenced id (p_author post) s s'
      /\ dict_get id (nth 0 (map _authors (extensions s')) dict_empty)
         = Some (p_author post)
  | Raise _ => True
  end.
Proof.
  intros Hf Hd Hc Hx.
  destruct (parse_post E app entry s) as [[post s']|e] eqn:H; [|exact Logic.I].
  destruct (parse_post_by_reference E app entry ael id s s' post Hf Hd Hc Hx H) as [Hr _].
  split; [exact Hr|]. eapply referenced_cached; eauto.
Qed.

(** The first entry of an exported feed. *)
Lemma post_author_is_the_cached_dependency_witness :
  is_ok (parse_post Reference.importer_externals Reference.zine
                    (first_entry (exported [])) (fresh_parser (exported []))) = true
  /\ match parse_post Reference.importer_externals Reference.zine
                      (first_entry (exported [])) (fresh_parser (exported [])) with
     | Ok (post, s') =>
         referenced "1" (p_author post) (fresh_parser (exported [])) s'
         /\ dict_get "1" (nth 0 (map _authors (extensions s')) dict_empty)
            = Some (p_author post)
     | Raise _ => True
     end.
Proof.
  split; [vm_compute; reflexivity|].
  apply (post_author_is_the_cached_dependency
           Reference.importer_externals Reference.zine
           (first_entry (exported []))
           (nth 0 (findall (first_entry (exported [])) (atom "author")) no_element)
           "1" (fresh_parser (exported []))).
  - vm_compute. reflexivity.
  - vm_compute. reflexivity.
  - vm_compute. constructor.
  - vm_compute. discriminate.
Defined.

End Further.

(* ================================================================== *)
(** * The hooks of the participants                                    *)
(* ================================================================== *)

Module Hooks.
Import Py ET Statements PyFacts ExporterFacts Exporter.
Local Open Scope string_scope.
Local Open Scope list_scope.

(** What a bind did, whether it returned or raised. *)
Lemma gbind_run {A B} (m : Gen A) (k : A -> Gen B) w tr r :
  gbind m k w = (tr, r) ->
  (exists e, m w = (tr, Raise e) /\ r = Raise e)
  \/ (exists tr1 a w1 tr2,
         m w = (tr1, Ok (a, w1)) /\ k a w1 = (tr2, r) /\ tr = tr1 ++ tr2).
Proof.
  unfold gbind. destruct (m w) as [tr1 [[a w1]|e]].
  - destruct (k a w1) as [tr2 r2] eqn:Hk. intros H. inversion H; subst.
    right. eauto 10.
  - intros H. inversion H; subst. left. eauto.
Qed.

Lemma quiet_gret {A} (a : A) : quiet (gret a).
Proof. intros w tr r H. inversion H. intros i []. Qed.

Lemma quiet_gbind {A B} (m : Gen A) (k : A -> Gen B) :
  quiet m -> (forall a, quiet (k a)) -> quiet (gbind m k).
Proof.
  intros Hm Hk w tr r H i. apply gbind_run in H.
  destruct H as [(e & H & _)|(tr1 & a & w1 & tr2 & H1 & H2 & ->)].
  - eapply Hm; eauto.
  - rewrite in_app_iff. intros [Hin|Hin]; [eapply Hm|eapply Hk]; eauto.
Qed.

Lemma quiet_yield (c : Chunk) : quiet (yield c).
Proof. intros w tr r H. inversion H. intros i [Hi|[]]. discriminate Hi. Qed.

Lemma quiet_graise {A} (e : Exn) : quiet (@graise A e).
Proof. intros w tr r H. inversion H. intros i []. Qed.

Lemma quiet_glift {A} (x : Result A) : quiet (glift x).
Proof. intros w tr r H. destruct x; inversion H; intros i []. Qed.

Lemma quiet_self : quiet self.
Proof. intros w tr r H. inversion H. intros i []. Qed.

Lemma quiet_update (f : Writer -> Writer) : quiet (update f).
Proof. intros w tr r H. inversion H. intros i []. Qed.

Lemma quiet_for_each {A} (l : list A) (body : A -> Gen unit) :
  (forall x, quiet (body x)) -> quiet (for_each l body).
Proof.
  intros Hb. induction l as [|x l IH]; simpl.
  - apply quiet_gret.
  - apply quiet_gbind; auto.
Qed.

Create HintDb quiet.
#[local] Hint Resolve quiet_gret quiet_yield quiet_graise quiet_glift quiet_self
  quiet_update : quiet.

Ltac quiet_step :=
  match goal with
  | |- quiet (gbind _ _) => apply quiet_gbind; [|intros ?]
  | |- quiet (for_each _ _) => apply quiet_for_each; intros ?
  | |- quiet (match ?x with _ => _ end) => destruct x
  | |- quiet (if ?x then _ else _) => destruct x
  | |- quiet _ => solve [auto with quiet]
  end.

Lemma quiet_read_clock (E : Externals) : quiet (read_clock E).
Proof. unfold read_clock. repeat quiet_step. Qed.

Lemma quiet_register_user (E : Externals) (u : User) : quiet (_register_user E u).
Proof.
  unfold _register_user, new_dependency, alias_dependency. repeat quiet_step.
Qed.

#[local] Hint Resolve quiet_read_clock quiet_register_user : quiet.

Lemma quiet_dump_page (E : Externals) (page : Page) : quiet (_dump_page E page).
Proof. unfold _dump_page. repeat quiet_step. Qed.

Lemma quiet_dump_dependencies : quiet dump_dependencies.
Proof. unfold dump_dependencies. repeat quiet_step. Qed.

#[local] Hint Resolve quiet_dump_page quiet_dump_dependencies : quiet.

(** [for participant in self.participants: participant.setup()] when
    every participant defines [setup]. *)
Lemma setup_calls (ps : list Participant) :
  Forall (fun p => defines_setup p = true) ps ->
  forall i w,
    for_each_indexed i ps
      (fun i p => if defines_setup p then log (Setup i) else graise AttributeError) w
    = (map Setup (seq i (List.length ps)), Ok (tt, w)).
Proof.
  induction 1 as [|p ps Hp _ IH]; intros i w; [reflexivity|].
  simpl. unfold gbind at 1. rewrite Hp. unfold log at 1.
  rewrite IH. reflexivity.
Qed.

Lemma tag_add_children (e : Element) (l : list Element) :
  tag (add_children e l) = tag e.
Proof.
  unfold add_children. revert e.
  induction l as [|x l IH]; intros e; simpl; [reflexivity|].
  rewrite IH. destruct e; reflexivity.
Qed.

Lemma dump_entries_setup (E : Externals) (db : Store) (w : Writer)
      (tr : list Event) (r : Result (unit * Writer)) :
  Forall (fun p => defines_setup p = true) (participants w) ->
  dump_entries E db w = (tr, r) ->
  (tr = [] /\ exists e, r = Raise e)
  \/ exists pre cfg rest,
       tr = Yield (XmlPreamble pre)
            :: map Setup (seq 0 (List.length (participants w)))
            ++ Yield (Node cfg) :: rest
       /\ tag cfg = qname TEXTPRESS_NS "configuration"
       /\ forall i, ~ In (Setup i) rest.
Proof.
  intros Hps H. unfold dump_entries in H.
  apply gbind_run in H.
  destruct H as [(e & H & _)|(tr1 & now & w1 & tr2 & H1 & H & ->)];
    [discriminate H|].
  assert (Hw1 : participants w1 = participants w /\ tr1 = []).
  { unfold read_clock, gbind, self, update, gret in H1. simpl in H1.
    inversion H1; subst. auto. }
  destruct Hw1 as [Hw1 ->]. clear H1. rewrite <- Hw1 in *. clear Hw1 w.
  apply gbind_run in H.
  destruct H as [(e & H & _)|(tr1 & w2 & w3 & tr3 & H1 & H & ->)];
    [discriminate H|].
  inversion H1; subst. clear H1.
  apply gbind_run in H.
  destruct H as [(e & H & ->)|(tr1 & first & w4 & tr4 & H1 & H & ->)].
  { left. destruct (first_items _ _ _); inversion H; eauto. }
  assert (Hf : tr1 = [] /\ w4 = w3).
  { destruct (first_items _ _ _); inversion H1; auto. }
  destruct Hf as [-> ->]. clear H1.
  destruct first as [[posts pages] last].
  apply gbind_run in H.
  destruct H as [(e & H & _)|(tr1 & u1 & w5 & tr5 & H1 & H & ->)];
    [discriminate H|].
  inversion H1; subst. clear H1.
  apply gbind_run in H. rewrite setup_calls in H by exact Hps.
  destruct H as [(e & H & _)|(tr1 & u2 & w6 & tr6 & H1 & H & ->)];
    [discriminate H|].
  inversion H1; subst. clear H1.
  apply gbind_run in H.
  destruct H as [(e & H & _)|(tr1 & u3 & w7 & tr7 & H1 & H & ->)];
    [discriminate H|].
  inversion H1; subst. clear H1.
  right. eexists _, _, _. split; [reflexivity|]. split.
  - rewrite tag_add_children. reflexivity.
  - cbv beta in H. revert H.
    match goal with |- ?m _ = _ -> _ => assert (Q : quiet m) end.
    { repeat quiet_step. }
    intros H. eapply Q; eauto.
Qed.

(** When every participant defines [setup], an export that writes
    anything writes the preamble, calls [setup] on each participant,
    once and in order, writes the configuration node, and calls no
    [setup] afterwards. *)
Theorem setup_hooks_run_once_before_configuration
        (E : Externals) (db : Store) (w : Writer)
        (tr : list Event) (out : option Exn) :
  Forall (fun p => defines_setup p = true) (participants w) ->
  run E db w = (tr, out) ->
  tr = []
  \/ exists pre cfg rest,
       tr = Yield (XmlPreamble pre)
            :: map Setup (seq 0 (List.length (participants w)))
            ++ Yield (Node cfg) :: rest
       /\ tag cfg = qname TEXTPRESS_NS "configuration"
       /\ forall i, ~ In (Setup i) rest.
Proof.
  intros Hps Hrun. unfold run in Hrun.
  destruct (_generate E db w) as [tr0 r0] eqn:Hg.
  assert (tr0 = tr) by (destruct r0; inversion Hrun; reflexivity). subst tr0.
  clear Hrun. unfold _generate in Hg.
  apply gbind_run in Hg.
  destruct Hg as [(e & H & _)|(tr1 & u & w1 & tr2 & H1 & H & ->)].
  - destruct (dump_entries_setup E db w tr _ Hps H) as [[-> _]|Hs]; auto.
  - destruct (dump_entries_setup E db w tr1 _ Hps H1)
      as [[_ (e & He)]|(pre & cfg & rest & -> & Hcfg & Hrest)]; [discriminate He|].
    right. exists pre, cfg, (rest ++ tr2). split; [|split; [exact Hcfg|]].
    + simpl. rewrite <- app_assoc. reflexivity.
    + intros i. rewrite in_app_iff. intros [Hin|Hin]; [eapply Hrest; eauto|].
      cbv beta in H. revert H.
      match goal with |- ?m _ = _ -> _ => assert (Q : quiet m) end.
      { repeat quiet_step. }
      intros H. eapply Q; eauto.
Qed.

(** Two participants with [setup]. *)
Lemma setup_hooks_run_once_witness :
  exists pre cfg rest,
    fst (run Reference.exporter_externals one_post_no_page
           (Writer_init Reference.textpress true false (Some [])
                        [participant_with_setup; participant_with_setup]))
    = Yield (XmlPreamble pre) :: map Setup (seq 0 2) ++ Yield (Node cfg) :: rest
    /\ tag cfg = qname TEXTPRESS_NS "configuration"
    /\ forall i, ~ In (Setup i) rest.
Proof.
  destruct (setup_hooks_run_once_before_configuration
              Reference.exporter_externals one_post_no_page
              (Writer_init Reference.textpress true false (Some [])
                           [participant_with_setup; participant_with_setup])
              (fst (run Reference.exporter_externals one_post_no_page
                      (Writer_init Reference.textpress true false (Some [])
                         [participant_with_setup; participant_with_setup])))
              (snd (run Reference.exporter_externals one_post_no_page
                      (Writer_init Reference.textpress true false (Some [])
                         [participant_with_setup; participant_with_setup]))))
    as [H|H].
  - repeat constructor.
  - apply surjective_pairing.
  - vm_compute in H. discriminate H.
  - exact H.
Defined.

End Hooks.

(* ================================================================== *)
(** * The shape of a completed export                                  *)
(* ================================================================== *)

Module ExportShape.
Import Py ET Exporter Statements ExportStatements PyFacts ExporterFacts.

Lemma nodes_gret {A} (a : A) : yields_nodes (gret a).
Proof. intros w tr r H. inversion H. constructor. Qed.

Lemma nodes_gbind {A B} (m : Gen A) (k : A -> Gen B) :
  yields_nodes m -> (forall a, yields_nodes (k a)) -> yields_nodes (gbind m k).
Proof.
  intros Hm Hk w tr r H. apply Hooks.gbind_run in H.
  destruct H as [(e & H & _)|(tr1 & a & w1 & tr2 & H1 & H2 & ->)].
  - eapply Hm; eauto.
  - apply Forall_app. split; [eapply Hm|eapply Hk]; eauto.
Qed.

Lemma nodes_yield (n : Element) : yields_nodes (yield (Node n)).
Proof. intros w tr r H. inversion H. repeat constructor. Qed.

Lemma nodes_log (i : nat) : yields_nodes (log (Setup i)).
Proof. intros w tr r H. inversion H. repeat constructor. Qed.

Lemma nodes_graise {A} (e : Exn) : yields_nodes (@graise A e).
Proof. intros w tr r H. inversion H. constructor. Qed.

Lemma nodes_glift {A} (x : Result A) : yields_nodes (glift x).
Proof. intros w tr r H. destruct x; inversion H; constructor. Qed.

Lemma nodes_self : yields_nodes self.
Proof. intros w tr r H. inversion H. constructor. Qed.

Lemma nodes_update (f : Writer -> Writer) : yields_nodes (update f).
Proof. intros w tr r H. inversion H. constructor. Qed.

Lemma nodes_for_each {A} (l : list A) (body : A -> Gen unit) :
  (forall x, yields_nodes (body x)) -> yields_nodes (for_each l body).
Proof.
  intros Hb. induction l as [|x l IH]; simpl.
  - apply nodes_gret.
  - apply nodes_gbind; auto.
Qed.

Lemma nodes_for_each_indexed {A} (l : list A) (body : nat -> A -> Gen unit) :
  (forall i x, yields_nodes (body i x)) ->
  forall i, yields_nodes (for_each_indexed i l body).
Proof.
  intros Hb. induction l as [|x l IH]; intros i; simpl.
  - apply nodes_gret.
  - apply nodes_gbind; auto.
Qed.

Create HintDb nodes.
#[local] Hint Resolve nodes_gret nodes_yield nodes_log nodes_graise nodes_glift
  nodes_self nodes_update : nodes.

Ltac nodes_step :=
  match goal with
  | |- yields_nodes (gbind _ _) => apply nodes_gbind; [|intros ?]
  | |- yields_nodes (for_each _ _) => apply nodes_for_each; intros ?
  | |- yields_nodes (for_each_indexed _ _ _) => apply nodes_for_each_indexed; intros ? ?
  | |- yields_nodes (match ?x with _ => _ end) => destruct x
  | |- yields_nodes (if ?x then _ else _) => destruct x
  | |- yields_nodes _ => solve [auto with nodes]
  end.

Lemma nodes_read_clock (E : Externals) : yields_nodes (read_clock E).
Proof. unfold read_clock. repeat nodes_step. Qed.

Lemma nodes_register_user (E : Externals) (u : User) : yields_nodes (_register_user E u).
Proof.
  unfold _register_user, new_dependency, alias_dependency. repeat nodes_step.
Qed.

#[local] Hint Resolve nodes_read_clock nodes_register_user : nodes.

Lemma nodes_dump_page (E : Externals) (page : Page) : yields_nodes (_dump_page E page).
Proof. unfold _dump_page. repeat nodes_step. Qed.

#[local] Hint Resolve nodes_dump_page : nodes.









End ExportShape.

(* ================================================================== *)
(** * Exports that cannot complete                                     *)
(* ================================================================== *)

Module ExportFailures.
Import Py ET Exporter Statements ExportStatements PyFacts ExporterFacts Cli.

Section Keeps.
Variable I : Writer -> Prop.

Lemma gkeeps_gret {A} (a : A) : gkeeps I (gret a).
Proof. intros w tr b w' Hw H. inversion H; subst. exact Hw. Qed.

Lemma gkeeps_gbind {A B} (m : Gen A) (k : A -> Gen B) :
  gkeeps I m -> (forall a, gkeeps I (k a)) -> gkeeps I (gbind m k).
Proof.
  intros Hm Hk w tr b w' Hw H.
  apply gbind_ok in H. destruct H as (t1 & a & w1 & t2 & H1 & H2 & _).
  eapply Hk; [|exact H2]. eapply Hm; eauto.
Qed.

Lemma gkeeps_yield (c : Chunk) : gkeeps I (yield c).
Proof. intros w tr b w' Hw H. inversion H; subst. exact Hw. Qed.

Lemma gkeeps_log (e : Event) : gkeeps I (log e).
Proof. intros w tr b w' Hw H. inversion H; subst. exact Hw. Qed.

Lemma gkeeps_graise {A} (e : Exn) : gkeeps I (@graise A e).
Proof. intros w tr b w' Hw H. inversion H. Qed.

Lemma gkeeps_glift {A} (r : Result A) : gkeeps I (glift r).
Proof. intros w tr b w' Hw H. destruct r; inversion H; subst. exact Hw. Qed.

Lemma gkeeps_self : gkeeps I self.
Proof. intros w tr b w' Hw H. inversion H; subst. exact Hw. Qed.

Lemma gkeeps_update (f : Writer -> Writer) :
  (forall w, I w -> I (f w)) -> gkeeps I (update f).
Proof. intros Hf w tr b w' Hw H. inversion H; subst. auto. Qed.

Lemma gkeeps_for_each {A} (l : list A) (body : A -> Gen unit) :
  (forall x, In x l -> gkeeps I (body x)) -> gkeeps I (for_each l body).
Proof.
  induction l as [|x l IH]; intros Hb; simpl.
  - apply gkeeps_gret.
  - apply gkeeps_gbind; [apply Hb; now left|].
    intros _. apply IH. intros y Hy. apply Hb. now right.
Qed.

Lemma gkeeps_for_each_indexed {A} (l : list A) (body : nat -> A -> Gen unit) :
  (forall i x, gkeeps I (body i x)) -> forall i, gkeeps I (for_each_indexed i l body).
Proof.
  intros Hb. induction l as [|x l IH]; intros i; simpl.
  - apply gkeeps_gret.
  - apply gkeeps_gbind; auto.
Qed.

End Keeps.

Lemma fails_gbind {A B} (m : Gen A) (k : A -> Gen B) (w : Writer) :
  (forall tr a w', m w = (tr, Ok (a, w')) -> fails (k a) w') -> fails (gbind m k) w.
Proof.
  intros H. unfold fails, gbind.
  destruct (m w) as [tr [[a w']|e]] eqn:Hm.
  - destruct (H _ _ _ eq_refl) as (tr' & e & ->). eauto.
  - eauto.
Qed.

Lemma fails_for_each {A} (I : Writer -> Prop) (l : list A) (body : A -> Gen unit)
      (x : A) :
  (forall y, gkeeps I (body y)) ->
  In x l ->
  (forall w, I w -> fails (body x) w) ->
  forall w, I w -> fails (for_each l body) w.
Proof.
  intros Hk Hin Hx. induction l as [|y l IH]; [contradiction|].
  intros w Hw. simpl. apply fails_gbind. intros tr [] w' Hy.
  destruct Hin as [->|Hin].
  - destruct (Hx w Hw) as (tr' & e & He). congruence.
  - apply IH; [exact Hin|]. eapply Hk; eauto.
Qed.

Create HintDb gkeeps.
#[local] Hint Resolve gkeeps_gret gkeeps_yield gkeeps_log gkeeps_graise gkeeps_glift
  gkeeps_self : gkeeps.

Ltac gkeeps_step :=
  match goal with
  | |- gkeeps _ (gbind _ _) => apply gkeeps_gbind; [|intros ?]
  | |- gkeeps _ (for_each _ _) => apply gkeeps_for_each; intros ? ?
  | |- gkeeps _ (for_each_indexed _ _ _) => apply gkeeps_for_each_indexed; intros ? ?
  | |- gkeeps _ (update _) => apply gkeeps_update; intros ? ?
  | |- gkeeps _ (match ?x with _ => _ end) => destruct x
  | |- gkeeps _ (if ?x then _ else _) => destruct x
  | |- gkeeps _ _ => solve [auto with gkeeps]
  end.

(** ** The options never change *)

Section Options.
Variable E : Externals.
Variable o : Options.

Lemma options_read_clock : gkeeps (options_of o) (read_clock E).
Proof. unfold read_clock. repeat gkeeps_step. assumption. Qed.

Lemma options_register_user (u : User) : gkeeps (options_of o) (_register_user E u).
Proof.
  unfold _register_user, new_dependency, alias_dependency.
  repeat gkeeps_step; assumption.
Qed.

Lemma dump_tags_needs_keep_list (w : Writer) (l : list Tag) (t : Tag) :
  options_of o w -> o_keep_as_tag o = None ->
  In t l -> category_candidate o t = true ->
  forall entry, dump_tags w entry l = Raise TypeError.
Proof.
  intros (Hk & Ht & Hd) Hnone Hin Hc.
  assert (Hraise : forall t', category_candidate o t' = true ->
                              dump_tag w t' = Raise TypeError).
  { intros t' Hc'. unfold dump_tag, category_scheme.
    unfold category_candidate in Hc'. rewrite Ht, Hd, Hc', Hk, Hnone. reflexivity. }
  induction l as [|t' l IH]; [contradiction|]. intros entry.
  cbn [dump_tags].
  destruct (category_candidate o t') eqn:Hc'.
  - rewrite (Hraise _ Hc'). reflexivity.
  - destruct Hin as [->|Hin]; [congruence|].
    unfold dump_tag at 1, category_scheme.
    unfold category_candidate in Hc'. rewrite Ht, Hd, Hc'.
    cbn [rbind]. apply IH. exact Hin.
Qed.

Lemma dump_post_needs_keep_list (w : Writer) (post : Post) (t : Tag) :
  options_of o w -> o_keep_as_tag o = None ->
  In t (tags post) -> category_candidate o t = true ->
  (exists e, _dump_post E w post = Raise e)
  /\ (forall a, author_reference w (user_id (author post)) (display_name (author post))
                  (u_email (author post)) = Ok a ->
                _dump_post E w post = Raise TypeError).
Proof.
  intros Hw Hnone Hin Hc.
  unfold _dump_post, post_entry.
  destruct (author_reference w _ _ _) as [a|e] eqn:Ha; cbn [rbind].
  - rewrite (dump_tags_needs_keep_list w _ t Hw Hnone Hin Hc). cbn [rbind].
    split; [eauto|reflexivity].
  - split; [eauto|]. intros a Ha'. discriminate Ha'.
Qed.

Lemma dump_entries_needs_keep_list (db : Store) (post : Post) (t : Tag) (w : Writer) :
  options_of o w -> o_keep_as_tag o = None ->
  In post (tl (all_posts db)) ->
  In t (tags post) -> category_candidate o t = true ->
  fails (dump_entries E db) w.
Proof.
  intros Hw Hnone Hpost Hin Hc. unfold dump_entries.
  apply fails_gbind. intros tr1 now w1 H1.
  apply (options_read_clock _ _ _ _ Hw) in H1.
  apply fails_gbind. intros tr2 w2 w2' H2. inversion H2; subst; clear H2.
  apply fails_gbind. intros tr3 first w3 H3.
  assert (Hposts : In post (fst (fst first)) /\ w3 = w2').
  { destruct (all_posts db) as [|p0 rest]; [contradiction|]. cbn [tl] in Hpost.
    unfold first_items in H3.
    destruct (if existsb _ _ then _ else _) as [[|g gs]|];
      inversion H3; subst; cbn [fst]; split; auto. now right. }
  destruct Hposts as [Hposts ->]. clear H3.
  destruct first as [[posts pages] last]. cbn [fst] in Hposts.
  apply fails_gbind. intros tr4 [] w4 H4. inversion H4; subst; clear H4.
  apply fails_gbind. intros tr5 [] w5 H5.
  apply (gkeeps_for_each_indexed (options_of o)) in H5; [| |exact H1].
  2:{ intros i p. repeat gkeeps_step. }
  apply fails_gbind. intros tr6 [] w6 H6. inversion H6; subst; clear H6.
  apply fails_gbind. intros tr7 [] w7 H7.
  apply (gkeeps_for_each (options_of o)) in H7; [| |exact H5].
  2:{ intros p _. repeat gkeeps_step. }
  apply fails_gbind. intros tr8 [] w8 H8.
  apply (gkeeps_for_each (options_of o)) in H8; [| |exact H7].
  2:{ intros u _. apply options_register_user. }
  unfold fails, gbind at 1.
  match goal with
  | |- exists _ _, (match ?m w8 with _ => _ end) = _ =>
      assert (F : fails m w8)
  end.
  { apply (fails_for_each (options_of o) posts _ post); [| exact Hposts | | exact H8].
    - intros y. repeat gkeeps_step.
    - intros w9 Hw'. apply fails_gbind. intros ? ? ? Hs. inversion Hs; subst.
      destruct (proj1 (dump_post_needs_keep_list _ post t Hw' Hnone Hin Hc)) as (e & He).
      rewrite He. unfold fails, gbind, glift. eauto. }
  destruct F as (tr9 & e & ->). eauto.
Qed.

End Options.

(** Started without [-k], the tool cannot export a blog in which a post
    after the newest one carries a tag that the options [-t] or [-d]
    would turn into a category: the run ends in an exception, and
    [_dump_post] raises [TypeError] for that post as soon as its author
    is registered. *)
Theorem categories_without_keep_list_abort_the_export
        (E : Externals) (make_textpress : string -> Installation) (options : Options)
        (folder : string) (post : Post) (t : Tag) :
  o_instance options = Some folder ->
  o_keep_as_tag options = None ->
  In post (tl (all_posts (store (make_textpress folder)))) ->
  In t (tags post) ->
  category_candidate options t = true ->
  (forall name written, main E make_textpress options = Ok (name, written) ->
     snd written <> None)
  /\ (forall w a,
        options_of options w ->
        author_reference w (user_id (author post)) (display_name (author post))
          (u_email (author post)) = Ok a ->
        _dump_post E w post = Raise TypeError).
Proof.
  intros Hi Hnone Hpost Hin Hc. split.
  - intros name written H. unfold main in H. rewrite Hi in H.
    destruct folder as [|c folder]; cbn [truthy negb] in H; [discriminate H|].
    destruct (_ && _); [discriminate H|].
    cbn [or_else] in H. injection H as _ <-.
    unfold run, _generate.
    match goal with
    | |- snd (match gbind ?m ?k ?w with _ => _ end) <> None =>
        destruct (fails_gbind m k w) as (tr & e & ->)
    end.
    + intros ? ? ? Hd.
      match type of Hd with
      | _ ?w0 = _ =>
          assert (Hw : options_of options w0) by (repeat split);
          destruct (dump_entries_needs_keep_list E options _ post t w0
                      Hw Hnone Hpost Hin Hc) as (tr0 & e & He)
      end.
      congruence.
    + discriminate.
  - intros w a Hw Ha.
    exact (proj2 (dump_post_needs_keep_list E options w post t Hw Hnone Hin Hc) a Ha).
Qed.

(** [-i blog -t] on a blog whose second post has the tag "news". *)
Lemma categories_without_keep_list_witness :
  (exists name tr,
     main Reference.exporter_externals installation all_tags_to_categories
     = Ok (name, (tr, Some TypeError)))
  /\ (forall name written,
        main Reference.exporter_externals installation all_tags_to_categories
        = Ok (name, written) ->
        snd written <> None)
  /\ (forall w a,
        options_of all_tags_to_categories w ->
        author_reference w 1%Z "alice" (Some "alice@example.org") = Ok a ->
        _dump_post Reference.exporter_externals w (Reference.post_P1 [])
        = Raise TypeError).
Proof.
  split; [vm_compute; eexists _, _; reflexivity|].
  apply (categories_without_keep_list_abort_the_export
           Reference.exporter_externals installation all_tags_to_categories
           "blog" (Reference.post_P1 []) Reference.tag_news).
  - reflexivity.
  - reflexivity.
  - vm_compute. left. reflexivity.
  - vm_compute. left. reflexivity.
  - reflexivity.
Defined.

(** ** Pages need a manager *)

Lemma assoc_set_values {K V} `{Hashable K} (k k0 : K) (v v0 : V) (l : list (K * V)) :
  In (k, v) (assoc_set k0 v0 l) -> v = v0 \/ In (k, v) l.
Proof.
  induction l as [|[k' v'] r IH]; simpl.
  - intros [Heq|[]]. left. congruence.
  - destruct (key_eqb k0 k').
    + intros [Heq|Hin]; [left; congruence|right; now right].
    + intros [Heq|Hin]; [right; now left|].
      destruct (IH Hin); [now left|right; now right].
Qed.

Section Pages.
Variable E : Externals.
Variable a : App.

Lemma manager_read_clock : gkeeps (no_manager_of a) (read_clock E).
Proof. unfold read_clock. repeat gkeeps_step. assumption. Qed.

Lemma manager_register_user (u : User) :
  is_manager u = false -> gkeeps (no_manager_of a) (_register_user E u).
Proof.
  intros Hu. unfold _register_user, new_dependency, alias_dependency.
  repeat gkeeps_step; try assumption.
  match goal with H : no_manager_of a _ |- _ => destruct H as [Hm Ha] end.
  split; [|exact Ha]. intros k v Hin. cbn [db_users] in Hin.
  apply dict_items_in in Hin. cbn [dict_set entries] in Hin.
  apply assoc_set_values in Hin. destruct Hin as [->|Hin]; [exact Hu|].
  apply (Hm k). apply dict_items_in. exact Hin.
Qed.

Lemma dump_page_needs_a_manager (g : Page) (w : Writer) :
  no_manager w -> _dump_page E g w = ([], Raise IndexError).
Proof.
  intros Hm. unfold _dump_page.
  unfold gbind at 1. unfold read_clock at 1. unfold gbind at 1.
  cbn [self update gret gbind app]. unfold glift at 1, first_manager.
  cbn [db_users].
  rewrite filter_none; [reflexivity|].
  apply Forall_forall. intros [k u] Hin. apply (Hm k u Hin).
Qed.

Lemma dump_entries_needs_a_manager (db : Store) (g : Page) (gs : list Page) (w : Writer) :
  no_manager_of a w ->
  (forall u, In u (all_users db) -> is_manager u = false) ->
  existsb (String.eqb "pages") (plugins a) = true ->
  pages_query db = Some (g :: gs) ->
  fails (dump_entries E db) w.
Proof.
  intros Hw Hus Hplug Hpages. unfold dump_entries.
  apply fails_gbind. intros tr1 now w1 H1.
  apply (manager_read_clock _ _ _ _ Hw) in H1.
  apply fails_gbind. intros tr2 w2 w2' H2. inversion H2; subst; clear H2.
  rewrite (proj2 H1), Hplug, Hpages.
  apply fails_gbind. intros tr3 first w3 H3.
  assert (Hfirst : snd (fst first) = Some (g :: gs) /\ w3 = w2').
  { unfold first_items in H3. destruct (all_posts db); inversion H3; auto. }
  destruct Hfirst as [Hfirst ->]. clear H3.
  destruct first as [[posts pages] last]. cbn [fst snd] in Hfirst. subst pages.
  apply fails_gbind. intros tr4 [] w4 H4. inversion H4; subst; clear H4.
  apply fails_gbind. intros tr5 [] w5 H5.
  apply (gkeeps_for_each_indexed (no_manager_of a)) in H5; [| |exact H1].
  2:{ intros i p. repeat gkeeps_step. }
  apply fails_gbind. intros tr6 [] w6 H6. inversion H6; subst; clear H6.
  apply fails_gbind. intros tr7 [] w7 H7.
  apply (gkeeps_for_each (no_manager_of a)) in H7; [| |exact H5].
  2:{ intros p _. repeat gkeeps_step. }
  apply fails_gbind. intros tr8 [] w8 H8.
  apply (gkeeps_for_each (no_manager_of a)) in H8; [| |exact H7].
  2:{ intros u Hu. apply manager_register_user. auto. }
  apply fails_gbind. intros tr9 [] w9 H9.
  apply (gkeeps_for_each (no_manager_of a)) in H9; [| |exact H8].
  2:{ intros p _. repeat gkeeps_step. }
  cbn [for_each]. unfold fails, gbind.
  rewrite (dump_page_needs_a_manager g w9 (proj1 H9)). eauto.
Qed.

End Pages.

(** A blog that has a page but no user who is a manager cannot be
    exported: the run ends in an exception, and [_dump_page] raises
    [IndexError] before it yields anything whenever the writer has
    registered no manager. *)
Theorem pages_need_a_manager
        (E : Externals) (db : Store) (a : App) (d t : bool)
        (k : option (list string)) (ps : list Participant)
        (g : Page) (gs : list Page) :
  (forall u, In u (all_users db) -> is_manager u = false) ->
  existsb (String.eqb "pages") (plugins a) = true ->
  pages_query db = Some (g :: gs) ->
  (exists tr e, run E db (Writer_init a d t k ps) = (tr, Some e))
  /\ (forall w page, no_manager w -> _dump_page E page w = ([], Raise IndexError)).
Proof.
  intros Hus Hplug Hpages. split.
  - unfold run, _generate.
    match goal with
    | |- exists _ _, (match gbind ?m ?f ?w with _ => _ end) = _ =>
        destruct (fails_gbind m f w) as (tr & e & ->)
    end.
    + intros ? ? ? Hd.
      destruct (dump_entries_needs_a_manager E a db g gs (Writer_init a d t k ps))
        as (tr0 & e & He); auto.
      * split; [|reflexivity]. intros k0 u Hin. apply dict_items_in in Hin.
        destruct Hin.
      * congruence.
    + eauto.
  - intros w page Hm. apply dump_page_needs_a_manager. exact Hm.
Qed.

(** Two users without the manager role and the page "about". *)
Lemma pages_need_a_manager_witness :
  snd (run Reference.exporter_externals page_without_manager Reference.writer)
  = Some IndexError
  /\ (exists tr e,
        run Reference.exporter_externals page_without_manager
            (Writer_init Reference.textpress true false (Some []) [])
        = (tr, Some e))
  /\ (forall w page, no_manager w ->
        _dump_page Reference.exporter_externals page w = ([], Raise IndexError)).
Proof.
  split; [vm_compute; reflexivity|].
  apply (pages_need_a_manager Reference.exporter_externals page_without_manager
           Reference.textpress true false (Some []) [] Reference.page_G []).
  - intros u Hu. vm_compute in Hu. destruct Hu as [<-|[<-|[]]]; reflexivity.
  - reflexivity.
  - reflexivity.
Defined.

End ExportFailures.

(* ================================================================== *)
(** * Invariants of the parser                                         *)
(* ================================================================== *)

(** An invariant of the parser state is carried through [parse_post]
    layer by layer: what the functions of one layer need is what the
    functions they call keep. *)

Module ParserInvariants.
Import Py ET PyFacts ETFacts Importer ImporterStatements ImporterFacts.

#[local] Hint Resolve preserves_pret preserves_plift preserves_praise preserves_this : pres.

(** Closes the goals about a step that leaves the invariant alone. *)
Ltac prim :=
  intros;
  match goal with
  | |- preserves _ _ =>
      let Hs := fresh "Hs" in
      let H := fresh "H" in
      intros ? ? ? Hs H; inversion H; subst; exact Hs
  | Hs : ?I _ |- ?I _ => exact Hs
  end.

Section Leaves.
Context (E : Externals) (app : App) (I : Parser -> Prop).
Hypothesis I_new_author : forall a, preserves I (new_author a).
Hypothesis I_set_extension : forall i x, preserves I (set_extension i x).
Hypothesis I_authors : forall v s, I s -> I (set_authors v s).
Hypothesis I_by_email : forall v s, I s -> I (set_authors_by_email v s).
Hypothesis I_by_username : forall v s, I s -> I (set_authors_by_username v s).
Hypothesis I_by_term : forall v s, I s -> I (set_categories_by_term v s).
Hypothesis I_comment_heap : forall v s, I s -> I (set_comment_heap v s).

Lemma keeps_extension (i : nat) : preserves I (extension i).
Proof. intros s a s' Hs H. inversion H; subst. exact Hs. Qed.

#[local] Hint Resolve keeps_extension I_new_author I_set_extension : pres.
#[local] Hint Extern 1 (preserves _ (modify _)) =>
  (apply preserves_modify; intros ? ?; auto) : pres.

Lemma keeps_get_author (i : nat) (d : Dependency) : preserves I (_get_author E app i d).
Proof. unfold _get_author. repeat pres_step. Qed.

Lemma keeps_parse_tag (i : nat) (e : Element) : preserves I (_parse_tag i e).
Proof. unfold _parse_tag. repeat pres_step. Qed.

Lemma keeps_parse_category (i : nat) (e : Element) : preserves I (_parse_category i e).
Proof. unfold _parse_category. repeat pres_step. Qed.

Lemma keeps_remember_author (a : ref) : preserves I (_remember_author a).
Proof. unfold _remember_author. repeat pres_step. Qed.

Lemma keeps_remember_category (c : Category) (e : Element) :
  preserves I (_remember_category c e).
Proof. unfold _remember_category. repeat pres_step. Qed.

Lemma keeps_assign_parent (c p : ref) : preserves I (assign_parent c p).
Proof. unfold assign_parent. apply preserves_modify. intros s Hs. auto. Qed.

End Leaves.

Section Middle.
Context (E : Externals) (app : App) (I : Parser -> Prop).
Hypothesis I_get_author : forall i d, preserves I (_get_author E app i d).
Hypothesis I_parse_tag : forall i e, preserves I (_parse_tag i e).
Hypothesis I_parse_category : forall i e, preserves I (_parse_category i e).
Hypothesis I_remember_author : forall a, preserves I (_remember_author a).
Hypothesis I_new_author : forall a, preserves I (new_author a).
Hypothesis I_new_comment : forall c, preserves I (new_comment c).
Hypothesis I_assign_parent : forall c p, preserves I (assign_parent c p).
Hypothesis I_authors : forall v s, I s -> I (set_authors v s).
Hypothesis I_remember_category : forall c e, preserves I (_remember_category c e).
Hypothesis I_categories : forall v s, I s -> I (set_categories v s).

#[local] Hint Resolve I_get_author I_parse_tag I_parse_category I_remember_author
  I_new_author I_new_comment I_assign_parent I_remember_category : pres.
#[local] Hint Extern 1 (preserves _ (modify _)) =>
  (apply preserves_modify; intros ? ?; auto) : pres.

Lemma keeps_lookup_author (i : nat) (a e : Element) (u m : option string) :
  preserves I (lookup_author E app i a e u m).
Proof. unfold lookup_author. repeat pres_step. Qed.

Lemma keeps_tag_or_category (i : nat) (e : Element) : preserves I (tag_or_category i e).
Proof. unfold tag_or_category. repeat pres_step. Qed.

#[local] Hint Resolve keeps_lookup_author keeps_tag_or_category : pres.

Lemma keeps_parse_comment (i : nat) (l : CommentLoop) (e : Element) :
  preserves I (parse_comment E app i l e).
Proof. unfold parse_comment. repeat pres_step. Qed.

#[local] Hint Resolve keeps_parse_comment : pres.

Lemma keeps_parse_comment_elements (i : nat) (els : list Element) :
  forall l, preserves I (parse_comment_elements E app i l els).
Proof.
  induction els as [|x r IH]; intros l; simpl; repeat pres_step; try apply IH.
Qed.

#[local] Hint Resolve keeps_parse_comment_elements : pres.

Lemma keeps_link_parent (cs : dict Z ref) (link : ref * Z) :
  preserves I (link_parent cs link).
Proof. unfold link_parent. repeat pres_step. Qed.

#[local] Hint Resolve keeps_link_parent : pres.

Lemma keeps_TPZEA_parse_comments (i : nat) (post : Post) :
  preserves I (TPZEA_parse_comments E app i post).
Proof. unfold TPZEA_parse_comments. repeat pres_step. Qed.

#[local] Hint Resolve keeps_TPZEA_parse_comments : pres.

Lemma keeps_extend_comments (l : list nat) :
  forall post, preserves I (extend_comments E app post l).
Proof.
  induction l as [|i r IH]; intros post; simpl; repeat pres_step; try apply IH.
Qed.

#[local] Hint Resolve keeps_extend_comments : pres.

Lemma keeps_parse_comments (post : Post) : preserves I (parse_comments E app post).
Proof. unfold parse_comments. repeat pres_step. Qed.

Lemma keeps_parse_author (entry : Element) : preserves I (parse_author E app entry).
Proof. unfold parse_author. repeat pres_step. Qed.

Lemma keeps_first_tag_or_category (l : list nat) (e : Element) :
  preserves I (first_answer l (fun i => tag_or_category i e)).
Proof. repeat pres_step. Qed.

Lemma keeps_parse_one_category (acc : list Tag * list Category) (e : Element) :
  preserves I (parse_one_category acc e).
Proof. unfold parse_one_category. repeat pres_step. Qed.

End Middle.

Section Top.
Context (E : Externals) (app : App) (I : Parser -> Prop).
Hypothesis I_parse_one_category :
  forall acc e, preserves I (parse_one_category acc e).
Hypothesis I_parse_author : forall entry, preserves I (parse_author E app entry).
Hypothesis I_parse_comments : forall post, preserves I (parse_comments E app post).
Hypothesis I_posts : forall v s, I s -> I (set_posts v s).

#[local] Hint Resolve I_parse_one_category I_parse_author I_parse_comments : pres.
#[local] Hint Extern 1 (preserves _ (modify _)) =>
  (apply preserves_modify; intros ? ?; auto) : pres.

Lemma keeps_parse_category_elements (els : list Element) :
  forall acc, preserves I (parse_category_elements acc els).
Proof.
  induction els as [|x r IH]; intros acc; simpl; repeat pres_step; try apply IH.
Qed.

Lemma keeps_parse_categories (entry : Element) : preserves I (parse_categories entry).
Proof. apply keeps_parse_category_elements. Qed.

#[local] Hint Resolve keeps_parse_categories : pres.

Lemma keeps_parse_post (entry : Element) : preserves I (parse_post E app entry).
Proof. unfold parse_post. repeat pres_step. Qed.

#[local] Hint Resolve keeps_parse_post : pres.

Lemma keeps_parse_entries : preserves I (parse_entries E app).
Proof. unfold parse_entries. repeat pres_step. Qed.

End Top.

(** An invariant that every update of the parser keeps. *)
Section Whole.
Context (E : Externals) (app : App) (I : Parser -> Prop).
Hypothesis I_new_author : forall a, preserves I (new_author a).
Hypothesis I_new_comment : forall c, preserves I (new_comment c).
Hypothesis I_set_extension : forall i x, preserves I (set_extension i x).
Hypothesis I_authors : forall v s, I s -> I (set_authors v s).
Hypothesis I_by_email : forall v s, I s -> I (set_authors_by_email v s).
Hypothesis I_by_username : forall v s, I s -> I (set_authors_by_username v s).
Hypothesis I_by_term : forall v s, I s -> I (set_categories_by_term v s).
Hypothesis I_categories : forall v s, I s -> I (set_categories v s).
Hypothesis I_comment_heap : forall v s, I s -> I (set_comment_heap v s).
Hypothesis I_posts : forall v s, I s -> I (set_posts v s).

Lemma whole_parse_post (entry : Element) : preserves I (parse_post E app entry).
Proof.
  assert (G : forall i d, preserves I (_get_author E app i d))
    by (intros; apply keeps_get_author; auto).
  assert (T : forall i e, preserves I (_parse_tag i e))
    by (intros; apply keeps_parse_tag; auto).
  assert (C : forall i e, preserves I (_parse_category i e))
    by (intros; apply keeps_parse_category; auto).
  assert (RA : forall a, preserves I (_remember_author a))
    by (intros; apply keeps_remember_author; auto).
  assert (RC : forall c e, preserves I (_remember_category c e))
    by (intros; apply keeps_remember_category; auto).
  assert (AP : forall c p, preserves I (assign_parent c p))
    by (intros; apply keeps_assign_parent; auto).
  apply keeps_parse_post; intros.
  - apply keeps_parse_one_category; auto.
  - apply keeps_parse_author; auto.
  - apply keeps_parse_comments; auto.
Qed.

Lemma whole_parse_entries : preserves I (parse_entries E app).
Proof.
  unfold parse_entries. repeat pres_step.
  - apply whole_parse_post.
  - apply preserves_modify. auto.
Qed.

End Whole.

End ParserInvariants.

(* ================================================================== *)
(** * Numbers written and read back                                    *)
(* ================================================================== *)

Module NumberFacts.
Import Py DecodingStatements.












End NumberFacts.

(* ================================================================== *)
(** * What a decoded blog lists                                        *)
(* ================================================================== *)

Module BlogLists.
Import Py ET PyFacts ETFacts Importer ImporterStatements ImporterFacts.
Import DecodingStatements ParserInvariants.

#[local] Hint Resolve preserves_pret preserves_plift preserves_praise preserves_this : pres.

Section Lists.
Context (E : Externals) (app : App).

Lemma no_tags_parse_entries : preserves no_tags (parse_entries E app).
Proof.
  apply whole_parse_entries; prim.
Qed.

Lemma dict_get_set_some {V} (k k' : string) (v : V) (d : dict string V) :
  dict_get k d <> None -> dict_get k (dict_set k' v d) <> None.
Proof.
  unfold dict_get, dict_set. simpl. intros H.
  destruct (String.eqb_spec k k') as [->|Hne].
  - rewrite assoc_set_same. discriminate.
  - rewrite assoc_set_other; auto.
Qed.

Lemma distinct_remember_category (c : Category) (e : Element) :
  preserves distinct_terms (_remember_category c e).
Proof.
  intros s a s' [Hnd Hin] H. unfold _remember_category in H. pinv.
  - split; assumption.
  - split; [exact Hnd|]. simpl. intros c0 Hc0.
    apply dict_get_set_some. auto.
Qed.

Lemma NoDup_snoc {A} (l : list A) (x : A) :
  NoDup l -> ~ In x l -> NoDup (l ++ [x]).
Proof.
  intros Hl Hx. apply NoDup_app; auto.
  - constructor; [intros []|constructor].
  - intros y Hy [<-|[]]. contradiction.
Qed.

Lemma distinct_first_tag_or_category (l : list nat) (e : Element) :
  preserves distinct_terms (first_answer l (fun i => tag_or_category i e)).
Proof.
  apply keeps_first_tag_or_category; intros.
  - apply keeps_parse_tag; prim.
  - apply keeps_parse_category; prim.
Qed.

Lemma distinct_parse_one_category (acc : list Tag * list Category) (e : Element) :
  preserves distinct_terms (parse_one_category acc e).
Proof.
  intros s acc' s' Hs H. unfold parse_one_category in H.
  apply pbind_ok in H. destruct H as (s0 & s1 & H0 & H).
  inversion H0; subst; clear H0.
  apply pbind_ok in H. destruct H as (rv & s2 & H1 & H).
  apply distinct_first_tag_or_category in H1; [|exact Hs].
  destruct rv as [[t|c]|].
  - inversion H; subst. exact H1.
  - apply pbind_ok in H. destruct H as (u & s3 & H2 & H).
    inversion H; subst. eapply distinct_remember_category; [exact H1|exact H2].
  - apply pbind_ok in H. destruct H as (term & s3 & H2 & H).
    apply plift_ok in H2. destruct H2 as [Hterm ->].
    apply pbind_ok in H. destruct H as (s4 & s5 & H3 & H).
    inversion H3; subst; clear H3.
    destruct (dict_get term (_categories_by_term s5)) as [c|] eqn:Hget.
    + inversion H; subst. exact H1.
    + apply pbind_ok in H. destruct H as (u & s6 & H4 & H).
      apply pbind_ok in H. destruct H as (u' & s7 & H5 & H).
      inversion H5; subst; clear H5. inversion H; subst; clear H.
      unfold _remember_category in H4.
      apply pbind_ok in H4. destruct H4 as (term' & s8 & H6 & H4).
      apply plift_ok in H6. destruct H6 as [Hterm' ->].
      rewrite Hterm in Hterm'. injection Hterm' as <-.
      apply pbind_ok in H4. destruct H4 as (s9 & s10 & H7 & H4).
      inversion H7; subst; clear H7.
      unfold dict_contains in H4. rewrite Hget in H4.
      inversion H4; subst; clear H4.
      destruct H1 as [Hnd Hin]. split; simpl.
      * rewrite map_app. simpl. apply NoDup_snoc; [exact Hnd|].
        intros Hx. apply in_map_iff in Hx. destruct Hx as (c0 & Hc0 & Hin0).
        apply Hin in Hin0. rewrite Hc0 in Hin0. congruence.
      * intros c0 Hc0. apply in_app_iff in Hc0. destruct Hc0 as [Hc0|[<-|[]]].
        -- apply dict_get_set_some. auto.
        -- simpl. unfold dict_get, dict_set. simpl. rewrite assoc_set_same.
           discriminate.
Qed.

Lemma distinct_parse_entries : preserves distinct_terms (parse_entries E app).
Proof.
  apply keeps_parse_entries; intros.
  - apply distinct_parse_one_category.
  - apply keeps_parse_author; intros; try prim.
    + apply keeps_get_author; prim.
    + apply keeps_remember_author; prim.
  - apply keeps_parse_comments; intros; try prim.
    apply keeps_get_author; prim.
  - prim.
Qed.

Lemma handle_roots_lists {A} (l : list A) :
  forall (b blog : Blog),
    fold_left (fun b _ => rbind b handle_root) l (Ok b) = Ok blog ->
    b_tags blog = b_tags b /\ b_categories blog = b_categories b
    /\ b_title blog = b_title b /\ b_link blog = b_link b
    /\ b_description blog = b_description b /\ b_language blog = b_language b
    /\ b_element blog = b_element b.
Proof.
  induction l as [|i r IH]; intros b blog H; simpl in H.
  - injection H as ->. repeat split.
  - destruct (handle_root b) as [b'|e] eqn:Hb.
    + apply IH in H. unfold handle_root in Hb.
      destruct (_parse_config _) as [cfg|]; simpl in Hb; [|discriminate].
      injection Hb as <-. exact H.
    + exfalso. clear - H. induction r; simpl in H; [discriminate|auto].
Qed.

Lemma parse_ok (s s' : Parser) (blog : Blog) :
  parse E app s = Ok (blog, s') ->
  exists s1, parse_entries E app s = Ok (tt, s1)
             /\ build_blog s1 = Ok (blog, s').
Proof.
  unfold parse. intros H. apply pbind_ok in H.
  destruct H as ([] & s1 & H1 & H2). eauto.
Qed.

Lemma parse_feed_ok (tree : Element) (blog : Blog) :
  parse_feed E app tree = Ok blog ->
  exists s0 s', AtomParser_init app tree = Ok s0
                /\ parse E app s0 = Ok (blog, s').
Proof.
  intros H. pose proof (parse_feed_ok_atom E app tree blog H) as Htag.
  rewrite (parse_feed_atom E app tree Htag) in H.
  unfold AtomParser_init in *.
  match type of H with
  | match parse E app ?p with _ => _ end = _ =>
      destruct (parse E app p) as [[b s']|e] eqn:Hp; [|discriminate];
      injection H as ->; eauto
  end.
Qed.

Lemma blog_lists_no_tags (tree : Element) (blog : Blog) :
  parse_feed E app tree = Ok blog -> b_tags blog = [].
Proof.
  intros H. apply parse_feed_ok in H. destruct H as (s0 & s' & H0 & H).
  apply parse_ok in H. destruct H as (s1 & H1 & H2).
  unfold AtomParser_init in H0. injection H0 as <-.
  assert (Ht : no_tags s1)
    by (eapply no_tags_parse_entries; [|exact H1]; reflexivity).
  unfold build_blog in H2.
  apply pbind_ok in H2. destruct H2 as (s2 & s3 & H3 & H2).
  inversion H3; subst; clear H3.
  apply plift_ok in H2. destruct H2 as [H2 _].
  apply handle_roots_lists in H2. destruct H2 as (Htags & _).
  simpl in Htags. rewrite Htags. exact Ht.
Qed.

(** A blog that [parse_feed] returns lists no tags at all, for no
    function ever adds to the parser's list of tags, and its categories
    have pairwise distinct terms. *)
Theorem blog_lists_no_tags_and_distinct_categories (tree : Element) (blog : Blog) :
  parse_feed E app tree = Ok blog ->
  b_tags blog = [] /\ NoDup (map cat_slug (b_categories blog)).
Proof.
  intros H. split; [exact (blog_lists_no_tags tree blog H)|].
  apply parse_feed_ok in H. destruct H as (s0 & s' & H0 & H).
  apply parse_ok in H. destruct H as (s1 & H1 & H2).
  unfold AtomParser_init in H0. injection H0 as <-.
  assert (Hd0 : distinct_terms
                  (mkParser tree [] [] [] []
                     (map (fun _ => TPZEAExtension_init tree)
                        (filter (fun c => existsb (String.eqb "atom") (feed_types c))
                           (feed_importer_extensions app)))
                     dict_empty dict_empty dict_empty [] [])).
  { split; simpl; [constructor|intros c []]. }
  assert (Hd : distinct_terms s1)
    by (eapply distinct_parse_entries; [exact Hd0|exact H1]).
  destruct Hd as [Hd _].
  unfold build_blog in H2.
  apply pbind_ok in H2. destruct H2 as (s2 & s3 & H3 & H2).
  inversion H3; subst; clear H3.
  apply plift_ok in H2. destruct H2 as [H2 _].
  apply handle_roots_lists in H2. destruct H2 as (_ & Hcats & _).
  simpl in Hcats. rewrite Hcats. exact Hd.
Qed.

End Lists.

(** An entry with the exporter's category "news", which the extension
    takes, and the plain categories x, x and y. *)
Lemma blog_lists_witness :
  exists blog,
    parse_feed Reference.importer_externals Reference.zine plain_categories_document
    = Ok blog
    /\ map cat_slug (b_categories blog) = ["x"; "y"]
    /\ b_tags blog = []
    /\ NoDup (map cat_slug (b_categories blog)).
Proof.
  destruct (parse_feed Reference.importer_externals Reference.zine
                       plain_categories_document) as [blog|e] eqn:H.
  - exists blog. split; [reflexivity|]. split.
    + vm_compute in H. injection H as <-. reflexivity.
    + exact (blog_lists_no_tags_and_distinct_categories
               Reference.importer_externals Reference.zine
               plain_categories_document blog H).
  - vm_compute in H. discriminate H.
Defined.

(** ** Categories the extension decodes *)

Section Unlisted.
Context (E : Externals) (app : App).

Lemma unlisted_set_extension (m : nat) (i : nat) (x : TPZEAExtension) :
  preserves (unlisted m) (set_extension i x).
Proof.
  intros s a s' [Hc Hn] H. split.
  - inversion H; subst. exact Hc.
  - eapply count_set_extension; eauto.
Qed.

Lemma unlisted_new_author (m : nat) (a : Author) : preserves (unlisted m) (new_author a).
Proof. intros s r s' [Hc Hn] H. inversion H; subst. split; assumption. Qed.

Lemma unlisted_new_comment (m : nat) (c : Comment) : preserves (unlisted m) (new_comment c).
Proof. intros s r s' [Hc Hn] H. inversion H; subst. split; assumption. Qed.

Lemma unlisted_get_author (m : nat) (i : nat) (d : Dependency) :
  preserves (unlisted m) (_get_author E app i d).
Proof.
  apply keeps_get_author; intros;
    auto using unlisted_set_extension, unlisted_new_author; prim.
Qed.

Lemma unlisted_parse_author (m : nat) (entry : Element) :
  preserves (unlisted m) (parse_author E app entry).
Proof.
  apply keeps_parse_author; intros;
    auto using unlisted_get_author, unlisted_new_author; try prim.
  apply keeps_remember_author; prim.
Qed.

Lemma unlisted_parse_comments (m : nat) (post : Post) :
  preserves (unlisted m) (parse_comments E app post).
Proof.
  apply keeps_parse_comments; intros;
    auto using unlisted_get_author, unlisted_new_comment; try prim.
Qed.

Lemma unlisted_first_tag_or_category (m : nat) (l : list nat) (e : Element) :
  preserves (unlisted m) (first_answer l (fun i => tag_or_category i e)).
Proof.
  apply keeps_first_tag_or_category; intros.
  - apply keeps_parse_tag; intros; auto using unlisted_set_extension.
  - apply keeps_parse_category; intros; auto using unlisted_set_extension.
Qed.

Lemma tpxa_answered (e : Element) (l : list nat) (s s' : Parser)
      (rv : option (Tag + Category)) :
  tpxa_scheme e ->
  first_answer (0 :: l) (fun i => tag_or_category i e) s = Ok (rv, s') ->
  rv <> None.
Proof.
  intros Hscheme H. cbn [first_answer] in H. unfold tag_or_category at 1 in H.
  destruct Hscheme as [Hs|Hs]; rewrite Hs in H.
  - change (TEXTPRESS_TAG_URI =? TEXTPRESS_TAG_URI)%string with true in H.
    cbv iota in H. pinv; discriminate.
  - change (TEXTPRESS_CATEGORY_URI =? TEXTPRESS_TAG_URI)%string with false in H.
    change (TEXTPRESS_CATEGORY_URI =? TEXTPRESS_CATEGORY_URI)%string with true in H.
    cbv iota in H. pinv; discriminate.
Qed.

Lemma unlisted_parse_one_category (n : nat) (acc : list Tag * list Category) (e : Element) :
  tpxa_scheme e ->
  preserves (unlisted (S n)) (parse_one_category acc e).
Proof.
  intros Hscheme s acc' s' Hs H. unfold parse_one_category in H.
  apply pbind_ok in H. destruct H as (s0 & s1 & H0 & H).
  inversion H0; subst; clear H0.
  apply pbind_ok in H. destruct H as (rv & s2 & H1 & H).
  assert (Hrv : rv <> None).
  { destruct Hs as [_ Hn]. unfold extension_count in Hn.
    unfold indices in H1. rewrite Hn in H1.
    eapply tpxa_answered; [exact Hscheme|exact H1]. }
  apply (unlisted_first_tag_or_category (S n)) in H1; [|exact Hs].
  destruct rv as [[t|c]|]; [| |congruence].
  - inversion H; subst. exact H1.
  - apply pbind_ok in H. destruct H as (u & s3 & H2 & H).
    inversion H; subst. clear H.
    assert (K : preserves (unlisted (S n)) (_remember_category c e))
      by (apply keeps_remember_category; prim).
    eapply K; [exact H1|exact H2].
Qed.

Lemma unlisted_parse_category_elements (n : nat) (els : list Element) :
  Forall tpxa_scheme els ->
  forall acc, preserves (unlisted (S n)) (parse_category_elements acc els).
Proof.
  induction 1 as [|e els He _ IH]; intros acc; simpl.
  - apply preserves_pret.
  - apply preserves_pbind; [apply unlisted_parse_one_category; exact He|exact IH].
Qed.

Lemma unlisted_parse_post (n : nat) (entry : Element) :
  (forall c, In c (findall entry (atom "category")) -> tpxa_scheme c) ->
  preserves (unlisted (S n)) (parse_post E app entry).
Proof.
  intros Hcs. unfold parse_post.
  apply preserves_pbind; [auto with pres|]. intros updated.
  apply preserves_pbind; [destruct (findtext entry (atom "published")); auto with pres|].
  intros published.
  apply preserves_pbind.
  { apply unlisted_parse_category_elements. apply Forall_forall. exact Hcs. }
  intros [tags cats]. cbv zeta.
  apply preserves_pbind; [auto with pres|]. intros data.
  apply preserves_pbind; [auto with pres|]. intros pickled.
  apply preserves_pbind; [auto with pres|]. intros parser.
  apply preserves_pbind; [apply unlisted_parse_author|]. intros author.
  apply preserves_pbind; [apply unlisted_parse_comments|]. intros post.
  apply preserves_pbind; auto with pres.
Qed.

Lemma preserves_pfor_in {A} (I : Parser -> Prop) (l : list A) (body : A -> P unit) :
  (forall x, In x l -> preserves I (body x)) -> preserves I (pfor l body).
Proof.
  induction l as [|x r IH]; intros Hb; simpl.
  - apply preserves_pret.
  - apply preserves_pbind; [apply Hb; now left|].
    intros _. apply IH. intros y Hy. apply Hb. now right.
Qed.

End Unlisted.

Section Listed.
Context (E : Externals) (app : App).

(** The categories the extension decodes reach the posts but not the
    blog: when every category element of a feed carries one of the two
    schemes of the exporter, as in every export, and the extension is
    registered, the decoded blog lists no category and no tag. *)
Theorem exported_categories_are_not_listed (tree : Element) (blog : Blog) :
  feed_importer_extensions app <> [] ->
  only_tpxa_categories tree ->
  parse_feed E app tree = Ok blog ->
  b_categories blog = [] /\ b_tags blog = [].
Proof.
  intros Hext Hall H.
  split; [|exact (blog_lists_no_tags E app tree blog H)].
  destruct (registered_positive app Hext) as (n & Hn).
  apply parse_feed_ok in H. destruct H as (s0 & s' & H0 & H).
  apply parse_ok in H. destruct H as (s1 & H1 & H2).
  unfold AtomParser_init in H0. injection H0 as <-.
  assert (Hs1 : unlisted (S n) s1).
  { unfold parse_entries in H1.
    apply pbind_ok in H1. destruct H1 as (s2 & s3 & H3 & H1).
    inversion H3; subst; clear H3. cbn [Importer.tree] in H1.
    eapply (preserves_pfor_in (unlisted (S n))); [| |exact H1].
    - intros entry Hentry. apply preserves_pbind.
      + apply unlisted_parse_post. intros c Hc. exact (Hall entry c Hentry Hc).
      + intros post. apply preserves_modify. intros s [Hc Hcount].
        split; [exact Hc|exact Hcount].
    - split; [reflexivity|]. unfold extension_count. cbn [extensions].
      rewrite length_map. exact Hn. }
  unfold build_blog in H2.
  apply pbind_ok in H2. destruct H2 as (s2 & s3 & H3 & H2).
  inversion H3; subst; clear H3.
  apply plift_ok in H2. destruct H2 as [H2 _].
  apply handle_roots_lists in H2. destruct H2 as (_ & Hcats & _).
  rewrite Hcats. exact (proj1 Hs1).
Qed.

End Listed.

(** The export of two posts and a page: the first post has the
    category "news", and the blog lists nothing. *)
Lemma exported_categories_witness :
  exists blog,
    parse_feed Reference.importer_externals Reference.zine (exported []) = Ok blog
    /\ map (fun p => map cat_slug (p_categories p)) (b_posts blog) = [["news"]; []; []]
    /\ b_categories blog = []
    /\ b_tags blog = [].
Proof.
  destruct (parse_feed Reference.importer_externals Reference.zine (exported []))
    as [blog|e] eqn:H.
  - exists blog. split; [reflexivity|]. split.
    + vm_compute in H. injection H as <-. reflexivity.
    + apply (exported_categories_are_not_listed
               Reference.importer_externals Reference.zine (exported []) blog).
      * discriminate.
      * intros entry c Hentry Hc. vm_compute in Hentry.
        destruct Hentry as [<-|[<-|[<-|[]]]]; vm_compute in Hc;
          try contradiction.
        destruct Hc as [<-|[]]. right. reflexivity.
      * exact H.
  - vm_compute in H. discriminate H.
Defined.

End BlogLists.

(* ================================================================== *)
(** * The content type of a decoded post                               *)
(* ================================================================== *)

Module ContentType.
Import Py ET PyFacts ETFacts Importer ImporterStatements ImporterFacts.
Import DecodingStatements ParserInvariants.

Section ContentType.
Context (E : Externals) (app : App).

Lemma extend_comments_fields (l : list nat) :
  forall post s post' s',
    extend_comments E app post l s = Ok (post', s') ->
    p_content_type post' = p_content_type post
    /\ p_element post' = p_element post.
Proof.
  induction l as [|i r IH]; intros post s post' s' H; simpl in H.
  - inversion H; subst. auto.
  - apply pbind_ok in H. destruct H as (found & s1 & _ & H).
    apply IH in H. exact H.
Qed.

Lemma postprocess_all {A} (l : list A) (post : Post) :
  l <> [] ->
  p_content_type (fold_left (fun post _ => postprocess_post post) l post)
  = match findtext (p_element post) (textpress "content_type") with
    | Some t => t
    | None => p_content_type post
    end.
Proof.
  assert (G : forall (l : list A) post,
             p_element (fold_left (fun post _ => postprocess_post post) l post)
             = p_element post
             /\ p_content_type (fold_left (fun post _ => postprocess_post post) l post)
                = match l with
                  | [] => p_content_type post
                  | _ => match findtext (p_element post) (textpress "content_type") with
                         | Some t => t
                         | None => p_content_type post
                         end
                  end).
  { clear. induction l as [|x r IH]; intros post; [auto|].
    simpl fold_left. destruct (IH (postprocess_post post)) as [He Hc].
    assert (Hpe : p_element (postprocess_post post) = p_element post).
    { unfold postprocess_post.
      destruct (findtext (p_element post) (textpress "content_type")); reflexivity. }
    split; [congruence|]. rewrite Hc. rewrite Hpe.
    unfold postprocess_post.
    destruct (findtext (p_element post) (textpress "content_type")) eqn:Hf;
      destruct r; reflexivity. }
  intros Hl. destruct (G l post) as [_ ->]. destruct l; [congruence|reflexivity].
Qed.

(** The content type of a decoded post is the text of the entry's
    [tp:content_type] element, whatever it says, and ["entry"] when the
    entry has none; without a registered extension it is always
    ["entry"]. *)
Theorem content_type_is_what_the_extension_reads
        (entry : Element) (s s' : Parser) (post : Post) :
  parse_post E app entry s = Ok (post, s') ->
  p_content_type post
  = match extensions s with
    | [] => "entry"
    | _ :: _ => declared_content_type entry
    end.
Proof.
  intros H.
  assert (Hcount : List.length (extensions s') = List.length (extensions s)).
  { apply (count_parse_post E app (List.length (extensions s)) entry s post s');
      [reflexivity|exact H]. }
  unfold parse_post in H.
  apply pbind_ok in H. destruct H as (updated & s1 & H1 & H).
  apply pbind_ok in H. destruct H as (published & s2 & H2 & H).
  apply pbind_ok in H. destruct H as ([tags cats] & s3 & H3 & H).
  cbv zeta in H.
  apply pbind_ok in H. destruct H as (data & s4 & H4 & H).
  apply pbind_ok in H. destruct H as (pickled & s5 & H5 & H).
  apply pbind_ok in H. destruct H as (parser & s6 & H6 & H).
  apply pbind_ok in H. destruct H as (author & s7 & H7 & H).
  apply pbind_ok in H. destruct H as (post1 & s8 & H8 & H).
  apply pbind_ok in H. destruct H as (s9 & s10 & H9 & H).
  inversion H9; subst; clear H9. inversion H; subst; clear H.
  unfold parse_comments in H8.
  apply pbind_ok in H8. destruct H8 as (s11 & s12 & H9 & H8).
  inversion H9; subst; clear H9.
  apply extend_comments_fields in H8. destruct H8 as [Hct Hel].
  assert (Hct1 : p_content_type post1 = "entry").
  { rewrite Hct. destruct (known_content_type _); reflexivity. }
  assert (Hel1 : p_element post1 = entry).
  { rewrite Hel. destruct (known_content_type _); reflexivity. }
  unfold indices.
  destruct (extensions s) as [|x xs] eqn:Hx.
  - destruct (extensions s') as [|y ys]; [|discriminate Hcount]. exact Hct1.
  - destruct (extensions s') as [|y ys] eqn:Hy; [discriminate Hcount|].
    rewrite postprocess_all.
    + rewrite Hel1, Hct1. reflexivity.
    + simpl. discriminate.
Qed.

End ContentType.

(** The entry of the exported page. *)
Lemma content_type_witness :
  is_ok (parse_post Reference.importer_externals Reference.zine
                    (third_entry (exported [])) (fresh_parser (exported []))) = true
  /\ match parse_post Reference.importer_externals Reference.zine
                      (third_entry (exported [])) (fresh_parser (exported [])) with
     | Ok (post, _) => p_content_type post = "page"
     | Raise _ => True
     end.
Proof.
  split; [vm_compute; reflexivity|].
  destruct (parse_post Reference.importer_externals Reference.zine
                       (third_entry (exported [])) (fresh_parser (exported [])))
    as [[post s']|e] eqn:H; [|exact Logic.I].
  rewrite (content_type_is_what_the_extension_reads
             Reference.importer_externals Reference.zine
             (third_entry (exported [])) (fresh_parser (exported [])) s' post H).
  vm_compute. reflexivity.
Defined.

End ContentType.

(* ================================================================== *)
(** * Comments without data                                            *)
(* ================================================================== *)

Module CommentsWithoutData.
Import Py ET PyFacts ETFacts Importer ImporterStatements ImporterFacts.
Import DecodingStatements ParserInvariants.

Section NoData.
Context (E : Externals) (app : App).

Lemma parse_comment_unbound (i : nat) (l : CommentLoop) (c : Element) (s : Parser) :
  findall c (textpress "data") = [] ->
  comment_parser l = None ->
  raises (parse_comment E app i l c) s.
Proof.
  intros Hd Hp. unfold parse_comment. rewrite Hd, Hp.
  apply pbind_raises. intros a s1 _.
  apply pbind_raises. intros [[who email] www] s2 _.
  apply pbind_raises. intros [body bound] s3 H3.
  inversion H3; subst; clear H3.
  apply pbind_raises. intros published s4 _.
  apply pbind_raises_left. exists UnboundLocalError. reflexivity.
Qed.

Lemma parse_comment_unbound_exactly (i : nat) (l : CommentLoop) (c a : Element)
      (d : datetime) (s : Parser) :
  findall c (textpress "data") = [] ->
  comment_parser l = None ->
  find c (textpress "author") = Some a ->
  attrib_get a "dependency" = None ->
  parse_iso8601 E (findtext c (textpress "published")) = Ok d ->
  parse_comment E app i l c s = Raise UnboundLocalError.
Proof.
  intros Hd Hp Ha Hdep Hpub. unfold parse_comment.
  rewrite Hd, Hp, Ha. unfold pbind at 1. unfold plift at 1.
  rewrite Hdep. unfold pbind at 1. unfold pret at 1.
  unfold pbind at 1. unfold pret at 1.
  unfold pbind at 1. unfold plift at 1. rewrite Hpub.
  reflexivity.
Qed.

(** The parser of a comment is a local variable of [parse_comments]
    that is only assigned when the comment has a [tp:data] element: when
    the first comment of an entry has none, decoding the feed ends in an
    exception, which is [UnboundLocalError] once the comment's author
    and date were read. *)
Theorem first_comment_without_data_aborts_decoding
        (tree entry c : Element) (rest : list Element) :
  tag tree = atom "feed" ->
  feed_importer_extensions app <> [] ->
  In entry (findall tree (atom "entry")) ->
  findall entry (textpress "comment") = c :: rest ->
  findall c (textpress "data") = [] ->
  (exists e, parse_feed E app tree = Raise e)
  /\ (forall i post s a d,
        p_element post = entry ->
        find c (textpress "author") = Some a ->
        attrib_get a "dependency" = None ->
        parse_iso8601 E (findtext c (textpress "published")) = Ok d ->
        TPZEA_parse_comments E app i post s = Raise UnboundLocalError).
Proof.
  intros Htag Hext Hentry Hc Hd. split.
  - destruct (registered_positive app Hext) as (n & Hn).
    apply parse_feed_raises_at_entry with (entry := entry); auto.
    intros s Hs. rewrite Hn in Hs.
    eapply parse_post_comments_raise; [|exact Hs].
    intros i post s0 Hpost. unfold TPZEA_parse_comments.
    rewrite Hpost, Hc. simpl. apply pbind_raises_left. apply pbind_raises_left.
    apply parse_comment_unbound; auto.
  - intros i post s a d Hpost Ha Hdep Hpub. unfold TPZEA_parse_comments.
    rewrite Hpost, Hc. simpl parse_comment_elements.
    unfold pbind at 1. unfold pbind at 1.
    rewrite (parse_comment_unbound_exactly i _ c a d s); auto.
Qed.

(** A later comment without [tp:data] is given the parser of the
    comment before it, and the empty list [findall] returned as its
    body. *)
Theorem comment_without_data_inherits_the_parser
        (i : nat) (l l' : CommentLoop) (c : Element) (p : string) (s s' : Parser) :
  findall c (textpress "data") = [] ->
  comment_parser l = Some p ->
  parse_comment E app i l c s = Ok (l', s') ->
  comment_parser l' = Some p
  /\ exists cm, comment_heap s' = comment_heap s ++ [cm]
                /\ c_parser cm = p
                /\ c_body cm = BodyEmptyList.
Proof.
  intros Hd Hp H. unfold parse_comment in H. rewrite Hd, Hp in H.
  assert (K : forall d, preserves (fun x => comment_heap x = comment_heap s)
                                  (_get_author E app i d)).
  { intros d. apply keeps_get_author.
    - intros a x r x' Hx Hn. inversion Hn; subst. exact Hx.
    - intros j y x r x' Hx Hn. inversion Hn; subst. exact Hx.
    - intros v x Hx. exact Hx. }
  apply pbind_ok in H. destruct H as (a & s1 & H1 & H).
  apply plift_ok in H1. destruct H1 as [_ ->].
  apply pbind_ok in H. destruct H as ([[who email] www] & s2 & H2 & H).
  assert (Hs2 : comment_heap s2 = comment_heap s).
  { destruct (attrib_get a "dependency").
    - apply pbind_ok in H2. destruct H2 as (r & s3 & H2 & H3).
      inversion H3; subst. eapply K; [|exact H2]. reflexivity.
    - inversion H2; subst. reflexivity. }
  clear H2. pinv.
  all: split; [reflexivity|]; simpl; rewrite Hs2; eexists; repeat split.
Qed.

End NoData.

(** A feed whose only entry has one comment, without [tp:data]. *)
Lemma first_comment_without_data_witness :
  parse_feed Reference.importer_externals Reference.zine bare_comment_document
  = Raise UnboundLocalError
  /\ exists e,
       parse_feed Reference.importer_externals Reference.zine bare_comment_document
       = Raise e.
Proof.
  split; [vm_compute; reflexivity|].
  apply (first_comment_without_data_aborts_decoding
           Reference.importer_externals Reference.zine bare_comment_document
           (first_entry bare_comment_document)
           (first_comment bare_comment_document) []).
  - reflexivity.
  - discriminate.
  - vm_compute. left. reflexivity.
  - vm_compute. reflexivity.
  - vm_compute. reflexivity.
Defined.

(** The comment without [tp:data], after a comment that was written
    with the parser "zeml". *)
Lemma comment_without_data_witness :
  is_ok (parse_comment Reference.importer_externals Reference.zine 0
           (mkLoop dict_empty [] (Some "zeml")) bare_comment
           (fresh_parser bare_comment_document)) = true
  /\ match parse_comment Reference.importer_externals Reference.zine 0
             (mkLoop dict_empty [] (Some "zeml")) bare_comment
             (fresh_parser bare_comment_document) with
     | Ok (l', s') =>
         comment_parser l' = Some "zeml"
         /\ exists cm,
              comment_heap s' = comment_heap (fresh_parser bare_comment_document) ++ [cm]
              /\ c_parser cm = "zeml"
              /\ c_body cm = BodyEmptyList
     | Raise _ => True
     end.
Proof.
  split; [vm_compute; reflexivity|].
  destruct (parse_comment Reference.importer_externals Reference.zine 0
              (mkLoop dict_empty [] (Some "zeml")) bare_comment
              (fresh_parser bare_comment_document)) as [[l' s']|e] eqn:H;
    [|exact Logic.I].
  apply (comment_without_data_inherits_the_parser
           Reference.importer_externals Reference.zine 0
           (mkLoop dict_empty [] (Some "zeml")) l' bare_comment "zeml"
           (fresh_parser bare_comment_document) s').
  - reflexivity.
  - reflexivity.
  - exact H.
Defined.

End CommentsWithoutData.

(* ================================================================== *)
(** * References to dependencies the document does not define         *)
(* ================================================================== *)

Module UndefinedDependencies.
Import Py ET PyFacts ETFacts Importer ImporterStatements ImporterFacts.
Import DecodingStatements ParserInvariants.

#[local] Hint Resolve preserves_pret preserves_plift preserves_praise preserves_this : pres.

Section Undefined.
Context (E : Externals) (app : App) (tree : Element).

Lemma in_replace_nth {A} (i : nat) (x : A) (l : list A) (y : A) :
  In y (replace_nth i x l) -> y = x \/ In y l.
Proof.
  revert i. induction l as [|z r IH]; intros [|i]; simpl; auto.
  - intros [<-|H]; auto.
  - intros [<-|H]; auto. apply IH in H. tauto.
Qed.

Lemma nth_sound (i : nat) (s : Parser) :
  sound_caches tree s ->
  forall id r, dict_get id (_authors (nth i (extensions s) no_extension)) = Some r ->
               In (nth i (extensions s) no_extension) (extensions s).
Proof.
  intros Hs id r Hget.
  destruct (nth_in_or_default i (extensions s) no_extension) as [Hin|Heq]; [exact Hin|].
  rewrite Heq in Hget. discriminate Hget.
Qed.

Lemma sound_set_extension_same (i : nat) (x : TPZEAExtension) (s : Parser) :
  sound_caches tree s ->
  (i < List.length (extensions s) ->
   _dependencies x = _dependencies (nth i (extensions s) no_extension)
   /\ forall id r, dict_get id (_authors x) = Some r ->
                   defined_in (_dependencies x) id) ->
  sound_caches tree (set_extensions (replace_nth i x (extensions s)) s).
Proof.
  intros Hs Hx y Hy. simpl in Hy.
  destruct (Nat.lt_ge_cases i (List.length (extensions s))) as [Hlt|Hge].
  - apply in_replace_nth in Hy. destruct Hy as [->|Hy]; [|auto].
    destruct (Hx Hlt) as [Hd Ha]. split; [|exact Ha].
    rewrite Hd. apply Hs. apply nth_In. exact Hlt.
  - assert (Hsame : replace_nth i x (extensions s) = extensions s).
    { clear - Hge. revert i Hge. induction (extensions s) as [|z r IH];
        intros [|i] Hge; simpl in *; try reflexivity; try lia.
      f_equal. apply IH. lia. }
    rewrite Hsame in Hy. auto.
Qed.

Lemma sound_get_author (i : nat) (d : Dependency) :
  preserves (sound_caches tree) (_get_author E app i d).
Proof.
  intros s r s' Hs H. unfold _get_author in H.
  apply pbind_ok in H. destruct H as (x & s1 & H1 & H).
  inversion H1; subst; clear H1.
  destruct (cached_author _ d) as [a|] eqn:Hc.
  { inversion H; subst. exact Hs. }
  apply pbind_ok in H. destruct H as (found & s2 & H2 & H).
  apply plift_ok in H2. destruct H2 as [Hfound ->].
  apply pbind_ok in H. destruct H as (element & s2 & H2 & H).
  apply plift_ok in H2. destruct H2 as [Hel ->].
  apply pbind_ok in H. destruct H as (role & s2 & H2 & H).
  apply plift_ok in H2. destruct H2 as [_ ->].
  apply pbind_ok in H. destruct H as (extra & s2 & H2 & H).
  apply plift_ok in H2. destruct H2 as [_ ->].
  apply pbind_ok in H. destruct H as (author & s2 & H2 & H).
  inversion H2; subst; clear H2.
  apply pbind_ok in H. destruct H as (u & s3 & H2 & H).
  inversion H2; subst; clear H2.
  apply pbind_ok in H. destruct H as (u' & s4 & H2 & H).
  inversion H2; subst; clear H2. inversion H; subst; clear H.
  intros y Hy. simpl in Hy.
  apply (sound_set_extension_same i
           (cache_author (nth i (extensions s1) no_extension) d
                         (List.length (author_heap s1))) s1 Hs); [|exact Hy].
  intros Hlt. destruct d as [id|e]; simpl.
  - split; [reflexivity|]. intros id' r'.
    destruct (String.eqb_spec id' id) as [->|Hne].
    + intros _. destruct found as [|el rest]; [discriminate Hel|].
      exists el, rest. exact Hfound.
    + unfold dict_get, dict_set. simpl. rewrite assoc_set_other by exact Hne.
      intros Hget.
      apply (proj2 (Hs (nth i (extensions s1) no_extension) (nth_In _ _ Hlt)))
        with (r := r').
      exact Hget.
  - split; [reflexivity|]. intros id' r' Hget.
    apply (proj2 (Hs (nth i (extensions s1) no_extension) (nth_In _ _ Hlt)))
      with (r := r').
    exact Hget.
Qed.

Lemma sound_parse_tag (i : nat) (e : Element) :
  preserves (sound_caches tree) (_parse_tag i e).
Proof.
  intros s t s' Hs H. unfold _parse_tag in H. pinv; try exact Hs.
  match goal with
  | Hs : sound_caches tree ?s0 |- _ =>
      apply sound_set_extension_same; [exact Hs|];
      intros Hlt; simpl; split; [reflexivity|];
      apply (proj2 (Hs (nth i (extensions s0) no_extension) (nth_In _ _ Hlt)))
  end.
Qed.

Lemma sound_parse_category (i : nat) (e : Element) :
  preserves (sound_caches tree) (_parse_category i e).
Proof.
  intros s t s' Hs H. unfold _parse_category in H. pinv; try exact Hs.
  match goal with
  | Hs : sound_caches tree ?s0 |- _ =>
      apply sound_set_extension_same; [exact Hs|];
      intros Hlt; simpl; split; [reflexivity|];
      apply (proj2 (Hs (nth i (extensions s0) no_extension) (nth_In _ _ Hlt)))
  end.
Qed.

Lemma sound_parse_categories (entry : Element) :
  preserves (sound_caches tree) (parse_categories entry).
Proof.
  apply keeps_parse_categories. intros acc e.
  apply keeps_parse_one_category; intros;
    auto using sound_parse_tag, sound_parse_category;
    try (apply keeps_remember_category); prim.
Qed.

Lemma sound_parse_author (entry : Element) :
  preserves (sound_caches tree) (parse_author E app entry).
Proof.
  apply keeps_parse_author; intros; try prim.
  - apply sound_get_author.
  - apply keeps_remember_author; prim.
Qed.

Lemma sound_parse_comments (post : Post) :
  preserves (sound_caches tree) (parse_comments E app post).
Proof.
  apply keeps_parse_comments; intros; try prim. apply sound_get_author.
Qed.

Lemma sound_parse_post (entry : Element) :
  preserves (sound_caches tree) (parse_post E app entry).
Proof.
  apply keeps_parse_post; intros.
  - apply keeps_parse_one_category; intros;
      auto using sound_parse_tag, sound_parse_category;
      try (apply keeps_remember_category); prim.
  - apply sound_parse_author.
  - apply sound_parse_comments.
Qed.

Lemma get_author_undefined (id : string) (s : Parser) :
  sound_caches tree s ->
  extensions s <> [] ->
  ~ defined_in (find tree (textpress "dependencies")) id ->
  _get_author E app 0 (ById id) s
  = Raise (match find tree (textpress "dependencies") with
           | None => TypeError
           | Some _ => IndexError
           end).
Proof.
  intros Hs Hx Hun. unfold _get_author.
  unfold pbind at 1. unfold extension at 1.
  destruct (extensions s) as [|x xs] eqn:Hxs; [congruence|].
  destruct (Hs x) as [Hd Ha]; [rewrite Hxs; left; reflexivity|].
  cbv beta iota. change (nth 0 (x :: xs) no_extension) with x.
  unfold cached_author.
  destruct (dict_get id (_authors x)) as [r|] eqn:Hget.
  { exfalso. apply Hun. rewrite <- Hd. eapply Ha; eauto. }
  unfold pbind at 1. unfold plift at 1. rewrite Hd.
  destruct (_lookup_user (find tree (textpress "dependencies")) (ById id))
    as [found|e] eqn:Hl.
  - destruct found as [|el rest].
    + cbv beta iota. unfold pbind at 1. unfold plift at 1.
      unfold _lookup_user in Hl.
      destruct (find tree (textpress "dependencies")); [reflexivity|discriminate Hl].
    + exfalso. apply Hun. exists el, rest. exact Hl.
  - unfold _lookup_user in Hl.
    destruct (find tree (textpress "dependencies")); inversion Hl. reflexivity.
Qed.

Lemma both_parse_post (n : nat) (entry : Element) :
  preserves (sound_and_counted tree n) (parse_post E app entry).
Proof.
  intros s a s' [Hs Hn] H. split.
  - eapply sound_parse_post; eauto.
  - eapply count_parse_post; eauto.
Qed.

Lemma parse_author_undefined (n : nat) (entry ael : Element) (id : string) (s : Parser) :
  find entry (atom "author") = Some ael ->
  attrib_get ael (textpress "dependency") = Some id ->
  ~ defined_in (find tree (textpress "dependencies")) id ->
  sound_and_counted tree (S n) s ->
  raises (parse_author E app entry) s.
Proof.
  intros Hf Hd Hun [Hs Hn]. unfold parse_author. rewrite Hf.
  apply pbind_raises. intros a s1 H1. apply plift_ok in H1.
  destruct H1 as [H1 ->]. injection H1 as <-.
  apply pbind_raises. intros s0 s1 H1. inversion H1; subst; clear H1.
  apply pbind_raises_left. unfold indices. rewrite Hn. simpl first_answer.
  apply pbind_raises_left. unfold lookup_author. rewrite Hd.
  apply pbind_raises_left. eexists. apply get_author_undefined; auto.
  intros Hnil. unfold extension_count in Hn. rewrite Hnil in Hn. discriminate Hn.
Qed.

Lemma parse_post_undefined (n : nat) (entry ael : Element) (id : string) (s : Parser) :
  find entry (atom "author") = Some ael ->
  attrib_get ael (textpress "dependency") = Some id ->
  ~ defined_in (find tree (textpress "dependencies")) id ->
  sound_and_counted tree (S n) s ->
  raises (parse_post E app entry) s.
Proof.
  intros Hf Hd Hun Hs. unfold parse_post.
  apply pbind_raises. intros updated s1 H1.
  apply plift_ok in H1. destruct H1 as [_ ->].
  apply pbind_raises. intros published s2 H2.
  assert (s2 = s) as ->.
  { destruct (findtext entry (atom "published")).
    - apply plift_ok in H2. tauto.
    - inversion H2. reflexivity. }
  apply pbind_raises. intros [tags cats] s3 H3.
  assert (Hs3 : sound_and_counted tree (S n) s3).
  { destruct Hs as [Hs Hn]. split.
    - eapply sound_parse_categories; eauto.
    - eapply count_parse_categories; eauto. }
  cbv zeta.
  apply pbind_raises. intros data s4 H4.
  apply plift_ok in H4. destruct H4 as [_ ->].
  apply pbind_raises. intros pickled s5 H5.
  apply plift_ok in H5. destruct H5 as [_ ->].
  apply pbind_raises. intros parser s6 H6.
  apply plift_ok in H6. destruct H6 as [_ ->].
  apply pbind_raises_left.
  eapply parse_author_undefined; eauto.
Qed.

(** An entry whose author refers to a dependency that the document does
    not define cannot be decoded: [parse_feed] ends in an exception, and
    [_get_author] raises [IndexError] for the id, or [TypeError] when
    the document has no dependencies block at all. *)
Theorem undefined_dependency_aborts_decoding (entry ael : Element) (id : string) :
  tag tree = atom "feed" ->
  feed_importer_extensions app <> [] ->
  In entry (findall tree (atom "entry")) ->
  find entry (atom "author") = Some ael ->
  attrib_get ael (textpress "dependency") = Some id ->
  ~ defined_in (find tree (textpress "dependencies")) id ->
  (exists e, parse_feed E app tree = Raise e)
  /\ (forall s, sound_caches tree s -> extensions s <> [] ->
                _get_author E app 0 (ById id) s
                = Raise (match find tree (textpress "dependencies") with
                         | None => TypeError
                         | Some _ => IndexError
                         end)).
Proof.
  intros Htag Hext Hin Hf Hd Hun. split; [|intros; apply get_author_undefined; auto].
  destruct (registered_positive app Hext) as (n & Hn).
  rewrite (parse_feed_atom E app tree Htag). unfold AtomParser_init.
  match goal with
  | |- exists e, match parse E app ?p with _ => _ end = _ =>
      assert (R : raises (parse E app) p)
  end.
  { unfold parse. apply pbind_raises_left. unfold parse_entries.
    apply pbind_raises. intros s0 s1 H1. inversion H1; subst; clear H1.
    simpl Importer.tree.
    apply (pfor_raises (sound_and_counted tree (S n))) with (x := entry).
    - exact Hin.
    - intros y. apply preserves_pbind; [apply both_parse_post|].
      intros post. apply preserves_modify. intros s [Hs Hc]. split; [exact Hs|exact Hc].
    - intros s Hs. apply pbind_raises_left.
      eapply parse_post_undefined; eauto.
    - split.
      + intros x Hx. simpl in Hx. apply in_map_iff in Hx.
        destruct Hx as (c & <- & _). split; [reflexivity|].
        intros id' r Hget. discriminate Hget.
      + unfold extension_count. simpl. rewrite length_map.
        exact Hn. }
  destruct R as [e He]. rewrite He. eauto.
Qed.

End Undefined.

(** The entry of an exported post in a feed without the dependencies
    block. *)
Lemma undefined_dependency_witness :
  parse_feed Reference.importer_externals Reference.zine undeclared_author_document
  = Raise TypeError
  /\ exists e,
       parse_feed Reference.importer_externals Reference.zine undeclared_author_document
       = Raise e.
Proof.
  split; [vm_compute; reflexivity|].
  apply (undefined_dependency_aborts_decoding
           Reference.importer_externals Reference.zine undeclared_author_document
           (first_entry undeclared_author_document)
           (nth 0 (findall (first_entry undeclared_author_document) (atom "author"))
                no_element)
           "1").
  - reflexivity.
  - discriminate.
  - vm_compute. left. reflexivity.
  - vm_compute. reflexivity.
  - vm_compute. reflexivity.
  - intros (el & rest & H). vm_compute in H. discriminate H.
Defined.

End UndefinedDependencies.

(* ================================================================== *)
(** * What the exporter writes, read back by the importer              *)
(* ================================================================== *)

Module DecodedUsers.
Import Py ET Statements PyFacts ETFacts Importer ImporterStatements ImporterFacts.
Import DecodingStatements ParserInvariants NumberFacts.


Section Users.
Context (EE : Exporter.Externals).












End Users.

Section Decode.
Context (EE : Exporter.Externals) (E : Externals) (app : App).


End Decode.


End DecodedUsers.

Module DecodedComments.
Import Py ET Statements PyFacts ETFacts Importer ImporterStatements ImporterFacts.
Import DecodingStatements ParserInvariants NumberFacts DecodedUsers.

Section Comments.
Context (EE : Exporter.Externals) (E : Externals) (app : App).





End Comments.


End DecodedComments.

Module DecodedPosts.
Import Py ET Statements PyFacts ExporterFacts ETFacts Importer ImporterStatements.
Import ImporterFacts DecodingStatements ParserInvariants NumberFacts DecodedUsers.

Section Fields.
Context (E : Externals) (app : App).






End Fields.

Section Entry.
Context (EE : Exporter.Externals).


End Entry.




Section Lookups.
Context (EE : Exporter.Externals).







End Lookups.

Section PostRoundTrip.
Context (EE : Exporter.Externals) (E : Externals) (app : App).


End PostRoundTrip.


End DecodedPosts.

Module DecodedTags.
Import Py ET Statements PyFacts ExporterFacts ETFacts Importer ImporterStatements.
Import ImporterFacts DecodingStatements.

Section Tags.



End Tags.


End DecodedTags.

Module DecodedConfiguration.
Import Py ET Statements PyFacts ExporterFacts ETFacts Importer ImporterStatements.
Import ImporterFacts DecodingStatements.

Section Updates.
Context {V : Type}.






End Updates.

Section Config.





End Config.


End DecodedConfiguration.
